(** * Barry: tabulated cosmology generator and power-to-correlation transform

    A shallow embedding of
      - [barry/cosmology/camb_generator.py]  (module [Camb]),
      - [barry/cosmology/pk2xi.py]           (module [Pk2xi]),
      - [barry/models/bao_correlation.py] and
        [barry/framework/models/bao_correlation_poly.py] (module [Models]),
    together with the properties of these programs.

    Numbers.  Python floats are idealised as exact numbers: the generator,
    which only uses field operations, [floor] and [ceil], is modelled over the
    rationals [Q] so that every definition runs; the transform engine needs
    [exp], [log], [sin] and [pi] and is modelled over the reals [R].  The two
    values a float division can produce that no rational stands for (NaN and
    the infinities) are kept apart as [None] of type [npfloat].  Where the
    rounding of the program's own arithmetic decides a table lookup, at the
    upper end of a grid axis, the index expressions are also given in
    IEEE binary64 (module [Binary64]) and evaluated there (module
    [Rounding]); the statements on queries inside the grid stop short of
    that end. *)

From Stdlib Require Import ZArith QArith Qround Qabs List String Ascii Bool Lia Lqa.
From Stdlib Require Import DecimalString DecimalZ DecimalFacts.
From Stdlib Require Import Morphisms Setoid.
From Stdlib Require Import Reals Lra.
From Corelib Require PrimFloat.
Import ListNotations.

(* ===================================================================== *)
(** * Python: exceptions and sequence indexing *)
(* ===================================================================== *)

Module Py.

(** The exceptions the modelled code can end with. *)
Inductive exn : Type :=
| IndexError
| ValueError (msg : string)
| TypeError
| OverflowError
| SystemExit (code : Z)
| ExternalError (msg : string).

(** Outcome of an expression: a value, or a raised exception. *)
Inductive result (A : Type) : Type :=
| Return (a : A)
| Raise (e : exn).
Arguments Return {A} a.
Arguments Raise {A} e.

Definition bind {A B} (r : result A) (k : A -> result B) : result B :=
  match r with
  | Return a => k a
  | Raise e => Raise e
  end.

Definition returns {A} (r : result A) : bool :=
  match r with Return _ => true | Raise _ => false end.

(** [l[i]] for a Python sequence or one axis of a numpy array: a negative
    index counts from the end, anything outside [-len, len) raises. *)
Definition getitem {A} (l : list A) (i : Z) : result A :=
  let n := Z.of_nat (List.length l) in
  let j := if (i <? 0)%Z then (i + n)%Z else i in
  if ((0 <=? j) && (j <? n))%Z then
    match nth_error l (Z.to_nat j) with
    | Some a => Return a
    | None => Raise IndexError
    end
  else Raise IndexError.

(** Normalisation of one slice bound against a length [n]. *)
Definition slice_bound (n i : Z) : Z :=
  if (i <? 0)%Z then Z.max (i + n) 0 else Z.min i n.

(** [l[lo:hi]] and [l[lo:]] (step 1); slices never raise. *)
Definition slice {A} (l : list A) (lo : Z) (hi : option Z) : list A :=
  let n := Z.of_nat (List.length l) in
  let a := slice_bound n lo in
  let b := match hi with Some h => slice_bound n h | None => n end in
  firstn (Z.to_nat (b - a)) (skipn (Z.to_nat a) l).

(** [int(x)] on a finite float: truncation toward zero. *)
Definition int (q : Q) : Z := Z.quot (Qnum q) (Zpos (Qden q)).

(** [str(n)] / the f-string rendering of an integer. *)
Definition str (z : Z) : string := NilEmpty.string_of_int (Z.to_int z).

(** [s.lower()] on ASCII text. *)
Definition lower_ascii (c : ascii) : ascii :=
  let n := nat_of_ascii c in
  if ((65 <=? n) && (n <=? 90))%nat then ascii_of_nat (n + 32) else c.

Fixpoint lower (s : string) : string :=
  match s with
  | EmptyString => EmptyString
  | String c s' => String (lower_ascii c) (lower s')
  end.

End Py.

Import Py.

Declare Scope py_scope.
Delimit Scope py_scope with py.
Notation "x <- c1 ;; c2" := (Py.bind c1 (fun x => c2))
  (at level 61, c1 at next level, right associativity) : py_scope.

(* ===================================================================== *)
(** * numpy: the array operations the generator uses *)
(* ===================================================================== *)

Module Np.

Local Open Scope Q_scope.

(** A float64 scalar: a finite value, or [None] for NaN and the infinities. *)
Definition npfloat := option Q.

(** Scalar division of float64 values.  A zero divisor does not raise in
    numpy (it warns): the quotient is NaN or an infinity. *)
Definition divide (a b : Q) : npfloat :=
  if Qeq_bool b 0 then None else Some (a / b).

(** [int(np.floor(v))] and [int(np.ceil(v))]: [int] of NaN raises
    [ValueError], of an infinity [OverflowError]; the divisions of this
    program that have a zero divisor also have a zero dividend, so the
    non-finite value is NaN. *)
Definition int_floor (v : npfloat) : result Z :=
  match v with
  | Some q => Return (Qfloor q)
  | None => Raise (ValueError "cannot convert float NaN to integer")
  end.

Definition int_ceil (v : npfloat) : result Z :=
  match v with
  | Some q => Return (Qceiling q)
  | None => Raise (ValueError "cannot convert float NaN to integer")
  end.

(** [np.linspace(start, stop, num)] with the default [endpoint=True]:
    [arange(num) * step + start] with [step = (stop - start) / (num - 1)],
    the last sample overwritten by [stop] when [num > 1]. *)
Definition linspace (start stop : Q) (num : Z) : result (list Q) :=
  if (num <? 0)%Z then
    Raise (ValueError "Number of samples must be non-negative")
  else
    let step := (stop - start) / inject_Z (num - 1) in
    Return (map (fun i : nat =>
                   if ((1 <? num) && (Z.of_nat i =? num - 1))%Z then stop
                   else inject_Z (Z.of_nat i) * step + start)
                (seq 0 (Z.to_nat num))).

(** [v * c] for a 1-d array [v] and a scalar [c]. *)
Definition scale (v : list Q) (c : Q) : list Q := map (fun a => a * c) v.

(** [v + w] for 1-d arrays of one shape. *)
Definition add (v w : list Q) : list Q :=
  map (fun p => fst p + snd p) (combine v w).

(** [a[lo:hi] = v]: the right-hand side must have the slice's length, or
    length 1 (broadcast). *)
Definition broadcast_to (n : nat) (v : list Q) : result (list Q) :=
  if (List.length v =? n)%nat then Return v
  else match v with
       | [a] => Return (repeat a n)
       | _ => Raise (ValueError "could not broadcast input array")
       end.

End Np.

(* ===================================================================== *)
(** * barry/cosmology/camb_generator.py *)
(* ===================================================================== *)

Module Camb.

Local Open Scope Q_scope.
Local Open Scope string_scope.
Local Open Scope py_scope.

(** The spectrum table, indexed [omch2-index][h0-index][channel]. *)
Definition table := list (list (list Q)).

(** The attributes of a [CambGenerator] instance.  [self.ks], the
    [np.logspace] wavenumber grid, is not a rational sequence; the generator
    only ever uses its length [k_num]. *)
Record CambGenerator : Type := {
  om_resolution : Z;
  h0_resolution : Z;
  h0 : Q;
  redshift : Q;
  data_dir : string;
  filename_unique : string;
  filename : string;
  k_min : Q;
  k_max : Q;
  k_num : Z;
  omch2s : list Q;
  omega_b : Q;
  ns : Q;
  h0s : list Q;
  data : option table
}.

Definition set_data (g : CambGenerator) (d : option table) : CambGenerator :=
  {| om_resolution := om_resolution g; h0_resolution := h0_resolution g;
     h0 := h0 g; redshift := redshift g; data_dir := data_dir g;
     filename_unique := filename_unique g; filename := filename g;
     k_min := k_min g; k_max := k_max g; k_num := k_num g;
     omch2s := omch2s g; omega_b := omega_b g; ns := ns g; h0s := h0s g;
     data := d |}.

(** What the program does to the outside: log records, directory creation,
    runs of the Boltzmann solver and array files written. *)
Inductive event : Type :=
| LogInfo (msg : string)
| LogError (msg : string)
| LogDebug (i j : nat) (omch2 h0 : Q)
| MakeDirs (dir : string)
| CambRun (nonlinear : bool) (H0 omch2 ombh2 : Q)
| NpSave (file : string).

(** The outside world: the [.npy] files on disk, by path (the first binding
    of a path is the current one), and the events so far, oldest first. *)
Record World : Type := {
  files : list (string * table);
  trace : list event
}.

Definition emit (e : event) (w : World) : World :=
  {| files := files w; trace := trace w ++ [e] |}.

Fixpoint lookup_file (path : string) (fs : list (string * table)) : option table :=
  match fs with
  | [] => None
  | (p, t) :: fs' => if String.eqb p path then Some t else lookup_file path fs'
  end.

(** [os.path.exists] *)
Definition path_exists (path : string) (w : World) : bool :=
  match lookup_file path (files w) with Some _ => true | None => false end.

(** [np.save] *)
Definition np_save (path : string) (t : table) (w : World) : World :=
  {| files := (path, t) :: files w; trace := trace w ++ [NpSave path] |}.

(** ** Construction *)

(** The cache fingerprint, line 63-64:
    [f"{int(z*1000)}_{om_res}_{h0_res}_{int(h0*10000)}_{int(ob*10000)}_{int(ns*1000)}"].
    [Py.int] truncates the exact product; the program truncates the rounded
    one, which is one less where rounding takes the product just under an
    integer ([int(0.69 * 10000)] is 6899). *)
Definition fingerprint (redshift : Q) (om_resolution h0_resolution : Z)
           (h0 ob ns : Q) : string :=
  let hh := Py.int (h0 * 10000) in
  Py.str (Py.int (redshift * 1000)) ++ "_" ++
  Py.str om_resolution ++ "_" ++
  Py.str h0_resolution ++ "_" ++
  Py.str hh ++ "_" ++
  Py.str (Py.int (ob * 10000)) ++ "_" ++
  Py.str (Py.int (ns * 1000)).

(** [CambGenerator.__init__].  [module_dir] stands for
    [os.path.dirname(inspect.stack()[0][1])], the directory of the module. *)
Definition __init__ (module_dir : string) (redshift : Q)
           (om_resolution h0_resolution : Z) (h0 ob ns : Q)
           (w : World) : result CambGenerator * World :=
  let data_dir := module_dir ++ "/" ++ "data/" in
  let filename_unique := fingerprint redshift om_resolution h0_resolution h0 ob ns in
  let filename := data_dir ++ "cosmo_" ++ filename_unique ++ ".npy" in
  match Np.linspace 0.05 0.3 om_resolution with
  | Raise e => (Raise e, w)
  | Return omch2s =>
    match (if (h0_resolution =? 1)%Z then Return [h0]
           else Np.linspace 0.6 0.8 h0_resolution) with
    | Raise e => (Raise e, w)
    | Return h0s =>
      (Return {| om_resolution := om_resolution; h0_resolution := h0_resolution;
                 h0 := h0; redshift := redshift; data_dir := data_dir;
                 filename_unique := filename_unique; filename := filename;
                 k_min := 1 # 10000; k_max := 5; k_num := 2000;
                 omch2s := omch2s; omega_b := ob; ns := ns; h0s := h0s;
                 data := None |},
       emit (LogInfo ("Creating CAMB data with " ++ Py.str om_resolution ++
                      " x " ++ Py.str h0_resolution)) w)
    end
  end.

(** ** Bilinear interpolation *)

(** [data[i, j]] on the table: both axes are bounds-checked, a negative
    index wraps. *)
Definition subscript2 (d : option table) (i j : Z) : result (list Q) :=
  match d with
  | None => Raise TypeError
  | Some t => row <- getitem t i ;; getitem row j
  end.

(** [CambGenerator._interpolate], lines 146-168.  The fractional indices
    are exact rationals here; the program's are rounded and can differ in
    the last bit, which decides a lookup only at the upper end of an axis
    (for [h0 = h0s[-1]] on several H0 samples the rounded index can exceed
    [h0_resolution - 1]). *)
Definition _interpolate (self : CambGenerator) (omch2 h0 : Q) : result (list Q) :=
  g0 <- getitem (omch2s self) 0 ;;
  gN <- getitem (omch2s self) (-1) ;;
  let omch2_index :=
    Np.divide (1 * inject_Z (om_resolution self - 1) * (omch2 - g0)) (gN - g0) in
  h0_index <-
    (if (h0_resolution self =? 1)%Z then Return (Some 0)
     else
       h_0 <- getitem (h0s self) 0 ;;
       h_N <- getitem (h0s self) (-1) ;;
       Return (Np.divide (1 * inject_Z (h0_resolution self - 1) * (h0 - h_0))
                         (h_N - h_0))) ;;
  (* line 159: the first [int(...)] raises on a non-finite index *)
  i0 <- Np.int_floor omch2_index ;;
  j0 <- Np.int_floor h0_index ;;
  match omch2_index, h0_index with
  | Some oi, Some hi =>
    let x := oi - inject_Z (Qfloor oi) in
    let y := hi - inject_Z (Qfloor hi) in
    let data := data self in
    v1 <- subscript2 data i0 j0 ;;
    i1 <- Np.int_ceil omch2_index ;;
    v2 <- subscript2 data i1 j0 ;;
    if (h0_resolution self =? 1)%Z then
      Return (Np.add (Np.scale (Np.scale v1 (1 - x)) (1 - y))
                     (Np.scale (Np.scale v2 x) (1 - y)))
    else
      j1 <- Np.int_ceil h0_index ;;
      v3 <- subscript2 data i0 j1 ;;
      v4 <- subscript2 data i1 j1 ;;
      Return (Np.add (Np.add (Np.add (Np.scale (Np.scale v1 (1 - x)) (1 - y))
                                     (Np.scale (Np.scale v2 x) (1 - y)))
                             (Np.scale (Np.scale v3 y) (1 - x)))
                     (Np.scale (Np.scale v4 x) y))
  | _, _ => Raise (ValueError "cannot convert float NaN to integer")
  end.

(** ** Stateful methods

    A method runs on a state and ends with a value or an exception; what it
    did to the state before raising stays done. *)

Definition M (S A : Type) : Type := S -> result A * S.

Definition ret {S A} (a : A) : M S A := fun s => (Return a, s).

Definition raise {S A} (e : exn) : M S A := fun s => (Raise e, s).

Definition mbind {S A B} (m : M S A) (k : A -> M S B) : M S B :=
  fun s => match m s with
           | (Return a, s') => k a s'
           | (Raise e, s') => (Raise e, s')
           end.

Definition lift {S A} (r : result A) : M S A := fun s => (r, s).

Definition modify {S} (f : S -> S) : M S unit := fun s => (Return tt, f s).

Definition gets {S A} (f : S -> A) : M S A := fun s => (Return (f s), s).

Declare Scope m_scope.
Delimit Scope m_scope with m.
Notation "x <-- c1 ;; c2" := (mbind c1 (fun x => c2))
  (at level 61, c1 at next level, right associativity) : m_scope.
Notation "c1 ;;; c2" := (mbind c1 (fun _ => c2))
  (at level 61, right associativity) : m_scope.
Local Open Scope m_scope.

(** A method's state: the instance and the world. *)
Definition St : Type := CambGenerator * World.

Definition in_world {A} (m : M World A) : M St A :=
  fun s => let (r, w') := m (snd s) in (r, (fst s, w')).

(** ** The Boltzmann solver

    [camb] is an external collaborator.  One run takes the parameters set
    on [pars] and the sampling of [get_matter_power_spectrum] and gives the
    derived [rdrag] and the power table, one row per requested redshift, or
    raises. *)
Record CambParams : Type := {
  p_ns : Q;
  p_redshifts : list Q;
  p_H0 : Q;
  p_omch2 : Q;
  p_ombh2 : Q;
  p_nonlinear : bool;
  p_minkh : Q;
  p_maxkh : Q;
  p_npoints : Z
}.

Record CambResults : Type := {
  rdrag : Q;
  matter_power : list (list Q)
}.

Section Generation.

Variable camb : CambParams -> result CambResults.

(** One grid cell of [_generate_data], lines 120-141: the two solver runs
    and the row [[rdrag] ++ pk_lin[1, :] ++ pk_nonlin.flatten()] stored at
    [data[i, j, :]].  The three assignments of lines 139-141 write every
    channel of the zero-initialised row, so the row is their concatenation. *)
Definition generate_cell (self : CambGenerator) (i j : nat) (omch2 h0 : Q)
  : M World (list Q) :=
  let pars nl :=
    {| p_ns := ns self; p_redshifts := [redshift self; 1 # 10000];
       p_H0 := h0 * 100; p_omch2 := omch2;
       p_ombh2 := omega_b self * h0 * h0; p_nonlinear := nl;
       p_minkh := k_min self; p_maxkh := k_max self;
       p_npoints := k_num self |} in
  modify (emit (LogDebug i j omch2 h0)) ;;;
  modify (emit (CambRun false (h0 * 100) omch2 (omega_b self * h0 * h0))) ;;;
  results <-- lift (camb (pars false)) ;;
  let pk_lin := matter_power results in
  modify (emit (CambRun true (h0 * 100) omch2 (omega_b self * h0 * h0))) ;;;
  results_nl <-- lift (camb (pars true)) ;;
  let pk_nonlin := matter_power results_nl in
  lin1 <-- lift (getitem pk_lin 1) ;;
  lin <-- lift (Np.broadcast_to (Z.to_nat (k_num self)) lin1) ;;
  nonlin <-- lift (Np.broadcast_to (Z.to_nat (2 * k_num self)%Z) (List.concat pk_nonlin)) ;;
  ret (rdrag results :: lin ++ nonlin)%list.

(** [for j, h0 in enumerate(self.h0s)] *)
Fixpoint generate_row (self : CambGenerator) (i j : nat) (omch2 : Q)
         (hs : list Q) : M World (list (list Q)) :=
  match hs with
  | [] => ret []
  | h :: hs' =>
    c <-- generate_cell self i j omch2 h ;;
    cs <-- generate_row self i (S j) omch2 hs' ;;
    ret (c :: cs)
  end.

(** [for i, omch2 in enumerate(self.omch2s)] *)
Fixpoint generate_rows (self : CambGenerator) (i : nat) (oms : list Q)
  : M World table :=
  match oms with
  | [] => ret []
  | o :: oms' =>
    r <-- generate_row self i 0 o (h0s self) ;;
    rs <-- generate_rows self (S i) oms' ;;
    ret (r :: rs)
  end.

(** [CambGenerator._generate_data], lines 106-144. *)
Definition _generate_data (self : CambGenerator) : M World table :=
  modify (emit (LogInfo ("Generating CAMB data with " ++
                         Py.str (om_resolution self) ++ " x " ++
                         Py.str (h0_resolution self)))) ;;;
  modify (emit (MakeDirs (data_dir self))) ;;;
  modify (emit (LogInfo "Configured CAMB power and dark energy")) ;;;
  data <-- generate_rows self 0 (omch2s self) ;;
  modify (emit (LogInfo ("Saving to " ++ filename self))) ;;;
  modify (np_save (filename self) data) ;;;
  ret data.

Definition data_unavailable_msg : string :=
  "Data does not exist and this isn't the time to generate it!".

(** [np.load] of a path that exists. *)
Definition np_load (path : string) : M World table :=
  fun w => match lookup_file path (files w) with
           | Some t => (Return t, w)
           | None => (Raise (ExternalError "No such file or directory"), w)
           end.

(** [CambGenerator.load_data], lines 83-93. *)
Definition load_data (can_generate : bool) : M St unit :=
  self <-- gets fst ;;
  file_exists <-- gets (fun s : St => path_exists (filename self) (snd s)) ;;
  if negb file_exists then
    if negb can_generate then
      in_world (modify (emit (LogError data_unavailable_msg))) ;;;
      raise (ValueError data_unavailable_msg)
    else
      d <-- in_world (_generate_data self) ;;
      modify (fun s : St => (set_data (fst s) (Some d), snd s))
  else
    in_world (modify (emit (LogInfo "Loading existing CAMB data"))) ;;;
    d <-- in_world (np_load (filename self)) ;;
    modify (fun s : St => (set_data (fst s) (Some d), snd s)).

(** The default of [load_data]'s parameter. *)
Definition can_generate_default : bool := false.

(** [CambGenerator.get_data], lines 95-104.  [h0 = None] is the default.
    The [lru_cache] decorator memoises returned values by argument tuple,
    which does not change what a call returns as long as the table is not
    replaced; this is the body a cache miss runs.  [omch2] is the exact
    product here, the rounded one in the program. *)
Definition get_data (om : Q) (h0 : option Q) : M St (Q * list Q * list Q) :=
  self <-- gets fst ;;
  let h0 := match h0 with None => Camb.h0 self | Some h => h end in
  (match data self with
   | None => load_data can_generate_default
   | Some _ => ret tt
   end) ;;;
  self <-- gets fst ;;
  let omch2 := (om - omega_b self) * h0 * h0 in
  data <-- lift (_interpolate self omch2 h0) ;;
  r_s <-- lift (getitem data 0) ;;
  ret (r_s,
       slice data 1 (Some (1 + k_num self)%Z),
       slice data (1 + 2 * k_num self)%Z None).

End Generation.

End Camb.

(* ===================================================================== *)
(** * barry/cosmology/pk2xi.py *)
(* ===================================================================== *)

Module Pk2xi.

Local Open Scope R_scope.
Local Open Scope py_scope.

(** ** numpy and scipy on real arrays *)

Definition Rltb (a b : R) : bool := if Rlt_dec a b then true else false.

(** [np.min] and [np.max]: a zero-size array has no minimum. *)
Definition np_min (a : list R) : result R :=
  match a with
  | [] => Raise (ValueError "zero-size array to reduction operation minimum")
  | x :: a' => Return (fold_left Rmin a' x)
  end.

Definition np_max (a : list R) : result R :=
  match a with
  | [] => Raise (ValueError "zero-size array to reduction operation maximum")
  | x :: a' => Return (fold_left Rmax a' x)
  end.

(** [np.linspace(start, stop, num)], as in [Np.linspace]. *)
Definition linspace (start stop : R) (num : Z) : result (list R) :=
  if (num <? 0)%Z then
    Raise (ValueError "Number of samples must be non-negative")
  else
    let step := (stop - start) / IZR (num - 1) in
    Return (map (fun i : nat =>
                   if ((1 <? num) && (Z.of_nat i =? num - 1))%Z then stop
                   else IZR (Z.of_nat i) * step + start)
                (seq 0 (Z.to_nat num))).

(** [np.logspace(start, stop, num, base=np.e)]: [e ** linspace(...)].  Over
    the reals [exp (ln k)] is [k]; in double arithmetic the end samples can
    miss [k] by a rounding. *)
Definition logspace_e (start stop : R) (num : Z) : result (list R) :=
  y <- linspace start stop num ;;
  Return (map exp y).

(** Element-wise product of two arrays of one shape. *)
Definition mul (v w : list R) : list R :=
  map (fun p => fst p * snd p) (combine v w).

(** [np.diff] *)
Fixpoint diff (x : list R) : list R :=
  match x with
  | a :: ((b :: _) as x') => (b - a) :: diff x'
  | _ => []
  end.

Definition sum (v : list R) : R := fold_right Rplus 0 v.

(** [scipy.integrate.trapz(y, x)], that is [numpy.trapz]:
    [(diff(x) * (y[1:] + y[:-1]) / 2.0).sum()]. *)
Definition trapz (y x : list R) : R :=
  sum (map (fun t => t / 2)
           (mul (diff x)
                (map (fun p => fst p + snd p) (combine (tl y) (removelast y))))).

(** Stable sort of the samples by abscissa: [np.argsort(x, kind="mergesort")]
    applied to [x] and [y]. *)
Fixpoint insert_by_x {A} (p : R * A) (l : list (R * A)) : list (R * A) :=
  match l with
  | [] => [p]
  | q :: l' => if Rltb (fst q) (fst p) then q :: insert_by_x p l' else p :: q :: l'
  end.

Fixpoint sort_by_x {A} (l : list (R * A)) : list (R * A) :=
  match l with
  | [] => []
  | p :: l' => insert_by_x p (sort_by_x l')
  end.

(** [np.searchsorted(x, v)] (side left): how many samples lie below [v]. *)
Definition searchsorted (x : list R) (v : R) : nat :=
  List.length (filter (fun a => Rltb a v) x).

(** One new abscissa through [interp1d._call_linear]: the bracketing pair
    is [(idx - 1, idx)] with [idx = clip(searchsorted(x, v), 1, len(x) - 1)]. *)
Definition call_linear (x y : list R) (v : R) : R :=
  let idx := Nat.min (Nat.max (searchsorted x v) 1) (List.length x - 1) in
  let lo := (idx - 1)%nat in
  let hi := idx in
  let x_lo := nth lo x 0 in
  let x_hi := nth hi x 0 in
  let y_lo := nth lo y 0 in
  let y_hi := nth hi y 0 in
  let slope := (y_hi - y_lo) / (x_hi - x_lo) in
  slope * (v - x_lo) + y_lo.

(** [scipy.interpolate.interp1d(x, y, kind="linear")(x_new)] with the
    defaults [assume_sorted=False] and [bounds_error=True]: [x] and [y] of
    different lengths raise, and so do fewer than two samples; the samples
    are sorted by abscissa, and a new abscissa outside [x[0], x[-1]] raises.
    On distinct abscissae the searchsorted evaluation below and the
    [np.interp] one scipy delegates to for float arrays give the same exact
    value; on a repeated abscissa they can pick different ordinates. *)
Definition interp1d (x y x_new : list R) : result (list R) :=
  if negb (List.length x =? List.length y)%nat then
    Raise (ValueError "x and y arrays must be equal in length along interpolation axis.")
  else if (List.length x <? 2)%nat then
    Raise (ValueError "x and y arrays must have at least 2 entries")
  else
    let s := sort_by_x (combine x y) in
    let xs := map fst s in
    let ys := map snd s in
    if existsb (fun v => Rltb v (hd 0 xs)) x_new then
      Raise (ValueError "A value in x_new is below the interpolation range.")
    else if existsb (fun v => Rltb (last xs 0) v) x_new then
      Raise (ValueError "A value in x_new is above the interpolation range.")
    else Return (map (call_linear xs ys) x_new).

(** ** PowerToCorrelationGauss *)

(** The state of an instance; [ks] is kept but never read again. *)
Record PowerToCorrelationGauss : Type := {
  ks : list R;
  ks2 : list R;
  precomp : list R
}.

(** [PowerToCorrelationGauss.__init__], lines 39-43.  [np.log] of a
    wavenumber that is not positive is infinite or NaN; the model stands
    for the program on positive wavenumbers. *)
Definition __init__ (ks : list R) (interpolateDetail : Z) (a : R)
  : result PowerToCorrelationGauss :=
  kmin <- np_min ks ;;
  kmax <- np_max ks ;;
  ks2 <- logspace_e (ln kmin) (ln kmax)
                    (interpolateDetail * Z.of_nat (List.length ks)) ;;
  Return {| ks := ks;
            ks2 := ks2;
            precomp := map (fun k => k * exp (- k * k * a * a) / (2 * PI * PI)) ks2 |}.

(** The defaults [interpolateDetail=2, a=0.25]. *)
Definition interpolateDetail_default : Z := 2.
Definition a_default : R := 25 / 100.

(** [PowerToCorrelationGauss.__call__], lines 45-58.  The loop stores one
    quadrature per entry of [ss] into [xis], in order.  A distance of 0
    divides by zero (NaN in numpy); the model stands for the program on
    distances that are not 0. *)
Definition __call__ (self : PowerToCorrelationGauss) (ks pks ss : list R)
  : result (list R) :=
  pks2 <- interp1d ks pks (ks2 self) ;;
  let kkpks := mul (precomp self) pks2 in
  Return (map (fun s =>
                 let integrand :=
                   map (fun p => fst p * sin (snd p * s) / s)
                       (combine kkpks (ks2 self)) in
                 trapz integrand (ks2 self))
              ss).

End Pk2xi.

(* ===================================================================== *)
(** * barry/models/bao_correlation.py and
      barry/framework/models/bao_correlation_poly.py *)
(* ===================================================================== *)

Module Models.

Local Open Scope string_scope.
Import Camb.
Local Open Scope m_scope.

Section CorrelationPolynomial.

(** The base class [Model] and the module [power_spectrum_smoothing] are
    collaborators of these constructors: [B] is the part of an instance the
    base class keeps (name, parameters, defaults), [P] the process around it
    (the logger). *)
Variable B : Type.
Variable P : Type.

(** [Model.__init__(name, correction=...)] and [Model.__init__(name)] *)
Variable Model__init__ : string -> option string -> M P B.

(** [validate_smooth_method(method)]: the verdict on a smoothing-method
    name; it may write to the log. *)
Variable validate_smooth_method : string -> P -> bool * P.

(** [Model.add_param(name, label, min, max, default)] and
    [Model.set_fix_params(names)] *)
Variable add_param : string -> string -> Q -> Q -> option Q -> B -> M P B.
Variable set_fix_params : list string -> B -> M P B.

(** The builtin [exit(code)] raises [SystemExit(code)]. *)
Definition exit {A} (code : Z) : M P A := raise (SystemExit code).

(** An instance of [barry.models.bao_correlation.CorrelationPolynomial]
    after construction; the fitting structures are all [None]. *)
Record CorrelationPolynomial : Type := {
  base : B;
  smooth_type : string;
  smooth : bool;
  camb : option CambGenerator;
  PT : option unit;
  pk2xi : option Pk2xi.PowerToCorrelationGauss;
  recon_smoothing_scale : option Q;
  cosmology : option unit
}.

(** [CorrelationPolynomial.declare_parameters], lines 41-45. *)
Definition declare_parameters (b : B) : M P B :=
  b <-- add_param "om" "$\Omega_m$" 0.1%Q 0.5%Q (Some 0.31%Q) b ;;
  b <-- add_param "alpha" "$\alpha$" 0.8%Q 1.2%Q (Some 1%Q) b ;;
  add_param "b" "$b$" 0.01%Q 10%Q (Some 1%Q) b.

(** [CorrelationPolynomial.__init__] of [barry/models/bao_correlation.py],
    lines 14-30. *)
Definition __init__ (smooth_type name : string) (fix_params : list string)
           (smooth : bool) (correction : option string)
  : M P CorrelationPolynomial :=
  b <-- Model__init__ name correction ;;
  let self_smooth_type := Py.lower smooth_type in
  ok <-- (fun p => let (v, p') := validate_smooth_method smooth_type p in
                   (Return v, p')) ;;
  (if negb ok then exit 0 else ret tt) ;;;
  b <-- declare_parameters b ;;
  b <-- set_fix_params fix_params b ;;
  ret {| base := b; smooth_type := self_smooth_type; smooth := smooth;
         camb := None; PT := None; pk2xi := None;
         recon_smoothing_scale := None; cosmology := None |}.

(** The framework variant builds its generator and transform inside the
    constructor, from modules of the older [barry.framework] package;
    [F] is the finished instance and [set_up_fitting] lines 33-43. *)
Variable F : Type.
Variable set_up_fitting : bool -> string -> B -> M P F.

(** [CorrelationPolynomial.__init__] of
    [barry/framework/models/bao_correlation_poly.py], lines 15-43. *)
Definition framework__init__ (fit_omega_m : bool) (smooth_type name : string)
  : M P F :=
  b <-- Model__init__ name None ;;
  let self_smooth_type := Py.lower smooth_type in
  ok <-- (fun p => let (v, p') := validate_smooth_method smooth_type p in
                   (Return v, p')) ;;
  (if negb ok then exit 0 else ret tt) ;;;
  b <-- (if fit_omega_m
         then add_param "om" "$\Omega_m$" 0.1%Q 0.5%Q None b
         else ret b) ;;
  b <-- add_param "alpha" "$\alpha$" 0.8%Q 1.2%Q None b ;;
  b <-- add_param "sigma_nl" "$\Sigma_{NL}$" 1%Q 20%Q None b ;;
  b <-- add_param "b" "$b$" 0.01%Q 10%Q None b ;;
  b <-- add_param "a1" "$a_1$" (-100)%Q 100%Q None b ;;
  b <-- add_param "a2" "$a_2$" (-2)%Q 2%Q None b ;;
  b <-- add_param "a3" "$a_3$" (-0.2)%Q 0.2%Q None b ;;
  set_up_fitting fit_omega_m self_smooth_type b.

End CorrelationPolynomial.

End Models.

(* ===================================================================== *)
(** * Vocabulary of the statements *)
(* ===================================================================== *)

Module Vocabulary.

Import Camb.

(** Occurrence of a character in a string. *)
Fixpoint occurs (c : ascii) (s : string) : bool :=
  match s with
  | EmptyString => false
  | String a s' => Ascii.eqb a c || occurs c s'
  end.

(** The six integers a fingerprint encodes. *)
Definition encoded (redshift : Q) (om_resolution h0_resolution : Z)
           (h0 ob ns : Q) : list Z :=
  [Py.int (redshift * 1000)%Q; om_resolution; h0_resolution;
   Py.int (h0 * 10000)%Q; Py.int (ob * 10000)%Q; Py.int (ns * 1000)%Q].

(** A table of [a] x [b] cells of [c] channels each. *)
Definition table_shape (t : table) (a b c : nat) : Prop :=
  List.length t = a /\
  Forall (fun r => List.length r = b /\
                   Forall (fun cell => List.length cell = c) r) t.

(** What the generator relies on from the solver: a run succeeds and gives
    one power row per requested redshift, each sampled at the requested
    number of wavenumbers. *)
Definition solver_contract (camb : CambParams -> result CambResults) : Prop :=
  forall p, exists r,
    camb p = Return r /\
    List.length (matter_power r) = List.length (p_redshifts p) /\
    Forall (fun row => List.length row = Z.to_nat (p_npoints p)) (matter_power r).

(** Rows are compared entry by entry as rationals. *)
Definition row_eq (v w : list Q) : Prop := Forall2 Qeq v w.

Definition result_eq (r1 r2 : result (list Q)) : Prop :=
  match r1, r2 with
  | Return v, Return w => row_eq v w
  | Raise e1, Raise e2 => e1 = e2
  | _, _ => False
  end.

(** Linear interpolation of the table over the omch2 axis alone, in the
    words of the specification: with the fractional index
    [(N-1) * (omch2 - grid[0]) / (grid[-1] - grid[0])] and [x] its
    fractional part, [(1-x) * data[floor][0] + x * data[ceil][0]]. *)
Definition linear_in_omch2 (self : CambGenerator) (omch2 : Q) : result (list Q) :=
  (g0 <- getitem (omch2s self) 0 ;;
   gN <- getitem (omch2s self) (-1) ;;
   match Np.divide (inject_Z (om_resolution self - 1) * (omch2 - g0))%Q
                   (gN - g0)%Q with
   | None => Raise (ValueError "cannot convert float NaN to integer")
   | Some idx =>
     let x := (idx - inject_Z (Qfloor idx))%Q in
     lo <- subscript2 (data self) (Qfloor idx) 0 ;;
     hi <- subscript2 (data self) (Qceiling idx) 0 ;;
     Return (Np.add (map (fun a => (1 - x) * a)%Q lo)
                    (map (fun a => x * a)%Q hi))
   end)%py.

(** Python's reading of an index on an axis of length [n]. *)
Definition wrap (n i : Z) : Z := if (i <? 0)%Z then (i + n)%Z else i.

(** The cell [t[i][j]] for indices already inside the table. *)
Definition cell (t : table) (i j : Z) : list Q :=
  nth (Z.to_nat j) (nth (Z.to_nat i) t []) [].

(** The fractional indices of a query on the grids [__init__] builds:
    [np.linspace(0.05, 0.3, N)] and, for more than one H0 sample,
    [np.linspace(0.6, 0.8, H)]. *)
Definition omch2_index (N : Z) (omch2 : Q) : Q :=
  (inject_Z (N - 1) * (omch2 - 0.05) / 0.25)%Q.

Definition h0_index (H : Z) (h0 : Q) : Q :=
  if (H =? 1)%Z then 0%Q else (inject_Z (H - 1) * (h0 - 0.6) / 0.2)%Q.

(** The bilinear blend at fractional indices [(oi, hi)] of the cells at
    their floor and ceil, indices read as Python reads them. *)
Definition bilinear (t : table) (N H : Z) (oi hi : Q) : list Q :=
  let x := (oi - inject_Z (Qfloor oi))%Q in
  let y := (hi - inject_Z (Qfloor hi))%Q in
  let i0 := wrap N (Qfloor oi) in
  let i1 := wrap N (Qceiling oi) in
  let j0 := wrap H (Qfloor hi) in
  let j1 := wrap H (Qceiling hi) in
  map (fun p => match p with
                | (v1, v2, v3, v4) =>
                  (v1 * (1 - x) * (1 - y) + v2 * x * (1 - y)
                   + v3 * y * (1 - x) + v4 * x * y)%Q
                end)
      (combine (combine (combine (cell t i0 j0) (cell t i1 j0))
                        (cell t i0 j1)) (cell t i1 j1)).

(** Bilinear interpolation on the table in the words of the specification:
    with [(x, y)] the fractional parts of the fractional indices, the four
    surrounding cells at the floor and ceil indices blended with the
    weights [(1-x)(1-y)], [x(1-y)], [(1-x)y] and [xy]. *)
Definition bilinear_interpolation (t : table) (oi hi : Q) : list Q :=
  let x := (oi - inject_Z (Qfloor oi))%Q in
  let y := (hi - inject_Z (Qfloor hi))%Q in
  map (fun p => match p with
                | (v00, v10, v01, v11) =>
                  ((1 - x) * (1 - y) * v00 + x * (1 - y) * v10
                   + (1 - x) * y * v01 + x * y * v11)%Q
                end)
      (combine (combine (combine (cell t (Qfloor oi) (Qfloor hi))
                                 (cell t (Qceiling oi) (Qfloor hi)))
                        (cell t (Qfloor oi) (Qceiling hi)))
               (cell t (Qceiling oi) (Qceiling hi))).

(** Lines 155-168 of [_interpolate] on their own: the lookups and the
    blend at given fractional indices, for [H] samples of H0. *)
Definition interp_at (H : Z) (t : table) (oi hi : Q) : result (list Q) :=
  (let x := (oi - inject_Z (Qfloor oi))%Q in
   let y := (hi - inject_Z (Qfloor hi))%Q in
   v1 <- subscript2 (Some t) (Qfloor oi) (Qfloor hi) ;;
   v2 <- subscript2 (Some t) (Qceiling oi) (Qfloor hi) ;;
   if (H =? 1)%Z then
     Return (Np.add (Np.scale (Np.scale v1 (1 - x)) (1 - y))
                    (Np.scale (Np.scale v2 x) (1 - y)))
   else
     v3 <- subscript2 (Some t) (Qfloor oi) (Qceiling hi) ;;
     v4 <- subscript2 (Some t) (Qceiling oi) (Qceiling hi) ;;
     Return (Np.add (Np.add (Np.add (Np.scale (Np.scale v1 (1 - x)) (1 - y))
                                    (Np.scale (Np.scale v2 x) (1 - y)))
                            (Np.scale (Np.scale v3 y) (1 - x)))
                    (Np.scale (Np.scale v4 x) y)))%py.

(** An outcome that reports an error to the caller: the call ends in an
    exception other than [SystemExit(0)], the exit whose status reports
    success. *)
Definition propagates_error {A} (r : result A) : bool :=
  match r with
  | Raise (SystemExit code) => negb (code =? 0)%Z
  | Raise _ => true
  | Return _ => false
  end.

(** Decision of [table_shape]. *)
Definition table_shapeb (t : table) (a b c : nat) : bool :=
  (List.length t =? a)%nat &&
  forallb (fun r => (List.length r =? b)%nat &&
                    forallb (fun cell => (List.length cell =? c)%nat) r) t.

Definition table_of (s : St) : table :=
  match data (fst s) with Some t => t | None => [] end.

End Vocabulary.

(* ===================================================================== *)
(** * The index arithmetic of the generator in binary64 *)
(* ===================================================================== *)

Module Binary64.

Import PrimFloat.
Local Open Scope float_scope.
#[local] Set Warnings "-inexact-float".

(** A Python [int] as a float; exact below [2 ** 53]. *)
Fixpoint of_pos (p : positive) : float :=
  match p with
  | xH => 1
  | xO p' => 2 * of_pos p'
  | xI p' => 2 * of_pos p' + 1
  end.

Definition of_Z (z : Z) : float :=
  match z with
  | Z0 => 0
  | Zpos p => of_pos p
  | Zneg p => - of_pos p
  end.

(** Line 148 of [_interpolate] on the grid [np.linspace(0.05, 0.3, N)],
    whose first and last samples are the two bounds:
    [1.0 * (self.om_resolution - 1) * (omch2 - self.omch2s[0])
     / (self.omch2s[-1] - self.omch2s[0])]. *)
Definition omch2_index (om_resolution : Z) (omch2 : float) : float :=
  1.0 * of_Z (om_resolution - 1) * (omch2 - 0.05) / (0.3 - 0.05).

(** Line 153 on the grid [np.linspace(0.6, 0.8, H)]. *)
Definition h0_index (h0_resolution : Z) (h0 : float) : float :=
  1.0 * of_Z (h0_resolution - 1) * (h0 - 0.6) / (0.8 - 0.6).

(** Line 102 of [get_data]: [(om - self.omega_b) * h0 * h0]. *)
Definition omch2 (om omega_b h0 : float) : float := (om - omega_b) * h0 * h0.

End Binary64.

(* ===================================================================== *)
(** * Vocabulary of the statements on the transform *)
(* ===================================================================== *)

Module TransformVocabulary.

Import Pk2xi.
Local Open Scope R_scope.

(** [pk1 + pk2] and [c * pk] on the caller's side. *)
Definition add (v w : list R) : list R :=
  map (fun p => fst p + snd p) (combine v w).

Definition scale (c : R) (v : list R) : list R := map (Rmult c) v.

Definition result_map {A B} (f : A -> B) (r : result A) : result B :=
  match r with Return a => Return (f a) | Raise e => Raise e end.

Definition result_map2 {A B C} (f : A -> B -> C) (r1 : result A) (r2 : result B)
  : result C :=
  match r1, r2 with
  | Return a, Return b => Return (f a b)
  | Raise e, _ => Raise e
  | _, Raise e => Raise e
  end.

(** The trapezoid rule on sample points [(x_j, y_j)], the abscissa being
    the integration variable:
    the sum over [j] of [(x_(j+1) - x_j) * (y_(j+1) + y_j) / 2]. *)
Fixpoint trapezoid (x y : list R) : R :=
  match x, y with
  | x0 :: ((x1 :: _) as x'), y0 :: ((y1 :: _) as y') =>
    (x1 - x0) * (y1 + y0) / 2 + trapezoid x' y'
  | _, _ => 0
  end.

(** The Gaussian-damped kernel [k exp(-k^2 a^2) / (2 pi^2)]. *)
Definition kernel (a k : R) : R := k * exp (- (k * k * a * a)) / (2 * PI * PI).

(** The integrand of the transform at distance [s] on the dense grid:
    [kernel(k) * pk(k) * sin(k s) / s], sample by sample. *)
Definition integrand_at (a s : R) (dense pk_interp : list R) : list R :=
  map (fun p => kernel a (fst p) * snd p * sin (fst p * s) / s)
      (combine dense pk_interp).

(** The reading of the transform in which the quadrature runs in log-k
    space: the same integrand, the trapezoid rule taken with [ln k] as the
    integration variable. *)
Definition call_in_log_space (self : PowerToCorrelationGauss) (ks pks ss : list R)
  : result (list R) :=
  (pks2 <- interp1d ks pks (ks2 self) ;;
   let kkpks := mul (precomp self) pks2 in
   Return (map (fun s =>
                  trapz (map (fun p => fst p * sin (snd p * s) / s)
                             (combine kkpks (ks2 self)))
                        (map ln (ks2 self)))
               ss))%py.

(** The input grid covers the dense grid. *)
Definition covers (ks dense : list R) : Prop :=
  forall v, In v dense ->
    (exists a, In a ks /\ a <= v) /\ (exists b, In b ks /\ v <= b).

(** [keys_from a l]: every abscissa of [l] is at least [a]. *)
Definition keys_from {A} (a : R) (l : list (R * A)) : Prop :=
  Forall (fun q => a <= fst q) l.

(** Samples in ascending order of abscissa. *)
Inductive ascending {A} : list (R * A) -> Prop :=
| asc_nil : ascending []
| asc_cons p l : keys_from (fst p) l -> ascending l -> ascending (p :: l).

(** The interpolant through samples [(fst q, f (snd q))], for the samples
    [s] already sorted. *)
Definition through {A} (f : A -> R) (s : list (R * A)) (v : R) : R :=
  call_linear (map fst s) (map (fun q => f (snd q)) s) v.

(** The integrand of [__call__] at distance [s], lines 51 and 55, as a
    function of the interpolated spectrum. *)
Definition integrand (self : PowerToCorrelationGauss) (pks2 : list R) (s : R)
  : list R :=
  map (fun p => fst p * sin (snd p * s) / s)
      (combine (mul (precomp self) pks2) (ks2 self)).

End TransformVocabulary.

(* ===================================================================== *)
(** * Concrete generators, tables and solvers *)
(* ===================================================================== *)

Module Examples.

Import Camb.
Local Open Scope Q_scope.

Definition empty_world : World := {| files := []; trace := [] |}.

(** A stand-in solver: [rdrag] and the power rows vary with [omch2]. *)
Definition toy_camb (p : CambParams) : result CambResults :=
  Return {| rdrag := 100 + 100 * p_omch2 p;
            matter_power :=
              map (fun z => repeat (1000 * p_omch2 p + z) (Z.to_nat (p_npoints p)))
                  (p_redshifts p) |}.

Definition no_generator : CambGenerator :=
  {| om_resolution := 0; h0_resolution := 0; h0 := 0; redshift := 0;
     data_dir := ""; filename_unique := ""; filename := "";
     k_min := 0; k_max := 0; k_num := 0; omch2s := []; omega_b := 0;
     ns := 0; h0s := []; data := None |}.

Definition constructed (r : result CambGenerator * World) : CambGenerator :=
  match fst r with Return g => g | Raise _ => no_generator end.

(** [CambGenerator(redshift=0.51, om_resolution=N, h0_resolution=H)] *)
Definition generator (N H : Z) : CambGenerator :=
  constructed (__init__ "/barry/cosmology" 0.51 N H 0.676 0.04814 0.97 empty_world).

(** The same generator after [load_data(can_generate=True)] on an empty
    cache, with the world it leaves. *)
Definition generated (N H : Z) : St :=
  snd (load_data toy_camb true (generator N H, empty_world)).

Definition gen_3x1 : St := generated 3 1.
Definition gen_3x2 : St := generated 3 2.
Definition gen_1x1 : St := generated 1 1.

(** The generated tables on their own, and the loaded instances. *)
Definition table_3x1 : table := Vocabulary.table_of gen_3x1.
Definition table_3x2 : table := Vocabulary.table_of gen_3x2.
Definition loaded_3x1 : CambGenerator := set_data (generator 3 1) (Some table_3x1).
Definition loaded_3x2 : CambGenerator := set_data (generator 3 2) (Some table_3x2).

(** Stand-ins for the collaborators of the model constructors: the base
    class keeps the declared parameter names, the process is its log, and
    the validator knows two method names and logs any other. *)
Definition toy_Model__init__ (name : string) (correction : option string)
  : M (list string) (list string) := ret [].

Definition toy_validate_smooth_method (method : string) (log : list string)
  : bool * list string :=
  if existsb (String.eqb (Py.lower method)) ["hinton2017"; "eh1998"]%string
  then (true, log)
  else (false,
        (log ++ [("Smoothing method is " ++ method ++ " and not in list")%string])%list).

Definition toy_add_param (name label : string) (lo hi : Q) (default : option Q)
           (b : list string) : M (list string) (list string) :=
  ret (b ++ [name])%list.

Definition toy_set_fix_params (names : list string) (b : list string)
  : M (list string) (list string) := ret b.

Definition toy_set_up_fitting (fit_omega_m : bool) (smooth_type : string)
           (b : list string) : M (list string) (list string) := ret b.

(** [PowerToCorrelationGauss(np.array([1., 2.]), interpolateDetail=1)] *)
Definition gauss_1_2 : Pk2xi.PowerToCorrelationGauss :=
  {| Pk2xi.ks := [1; 2]%R;
     Pk2xi.ks2 := [1; 2]%R;
     Pk2xi.precomp :=
       [1 * exp (- 1 * 1 * (1 / 4) * (1 / 4)) / (2 * PI * PI);
        2 * exp (- 2 * 2 * (1 / 4) * (1 / 4)) / (2 * PI * PI)]%R |}.

(** The one term of the quadrature on [gauss_1_2] for the spectrum
    [[1, 0]] at distance 1: [precomp[0] * 1 * sin(1 * 1) / 1]. *)
Definition gauss_1_2_f0 : R :=
  (1 * exp (- 1 * 1 * (1 / 4) * (1 / 4)) / (2 * PI * PI) * sin 1)%R.

End Examples.

(* ===================================================================== *)
(** * barry/cosmology/camb_generator.py: the background functions, the
      wavenumber grid and the benchmark helpers *)
(* ===================================================================== *)

Module Cosmology.

Local Open Scope R_scope.

(** A float64 over the reals: a finite value, or [None] for NaN and the
    infinities. *)
Definition npfloat := option R.

(** [np.sqrt]: NaN on a negative argument (numpy warns, it does not
    raise). *)
Definition np_sqrt (x : R) : npfloat :=
  if Rlt_dec x 0 then None else Some (sqrt x).

(** Division by a float64: a zero divisor gives an infinity or NaN. *)
Definition np_divide (a b : R) : npfloat :=
  if Req_dec_T b 0 then None else Some (a / b).

(** [E_z], lines 31-42:
    [np.sqrt((1.0 + z) ** 3 * omega_m + (1.0 - omega_m))]. *)
Definition E_z (omega_m z : R) : npfloat :=
  np_sqrt ((1 + z) ^ 3 * omega_m + (1 - omega_m)).

(** [Omega_m_z], lines 17-28:
    [omega_m * (1.0 + z) ** 3 / E_z(omega_m, z) ** 2]. *)
Definition Omega_m_z (omega_m z : R) : npfloat :=
  match E_z omega_m z with
  | None => None
  | Some e => np_divide (omega_m * (1 + z) ^ 3) (e ^ 2)
  end.

(** [x ** 0.55] on a float64: NaN on a negative base, 0 at 0. *)
Definition pow_0_55 (x : npfloat) : npfloat :=
  match x with
  | None => None
  | Some v =>
    if Rlt_dec v 0 then None
    else if Req_dec_T v 0 then Some 0
    else Some (Rpower v (55 / 100))
  end.

(** [PowerNoda2019.get_growth] of [barry/models/bao_power_Noda2019.py],
    lines 38-40: [Omega_m_z(om, self.camb.redshift) ** 0.55]; [redshift]
    stands for [self.camb.redshift]. *)
Definition get_growth (redshift om : R) : npfloat :=
  pow_0_55 (Omega_m_z om redshift).

End Cosmology.

Module Wavenumbers.

Import Camb.

(** [self.ks] of a [CambGenerator], line 70:
    [np.logspace(np.log(k_min), np.log(k_max), k_num, base=np.e)]. *)
Definition ks (self : CambGenerator) : result (list R) :=
  Pk2xi.logspace_e (ln (Q2R (k_min self))) (ln (Q2R (k_max self))) (k_num self).

End Wavenumbers.

Module Benchmark.

Import Camb.
Local Open Scope Q_scope.
Local Open Scope m_scope.

Section Benchmark.

Variable camb : CambParams -> result CambResults.

(** The two lines both helpers start with, [g = CambGenerator()] and
    [g.load_data()]: every argument at its default. *)
Definition make_generator (module_dir : string) (w : World) : result St :=
  match __init__ module_dir 0.61 101 1 0.676 0.04814 0.97 w with
  | (Raise e, _) => Raise e
  | (Return g, w') =>
    match load_data camb can_generate_default (g, w') with
    | (Raise e, _) => Raise e
    | (Return _, s) => Return s
    end
  end.

(** The closure [fn] of [test_rand_h0const], lines 175-176; [u] is the draw
    [np.random.uniform(0.1, 0.2)]. *)
Definition test_rand_h0const_fn (u : Q) : M St unit :=
  get_data camb u None ;;; ret tt.

(** The closure [fn] of [test_rand], lines 185-186; [u] and [v] are the
    draws [np.random.uniform(0.1, 0.2)] and [np.random.uniform(60, 80)]. *)
Definition test_rand_fn (u v : Q) : M St unit :=
  get_data camb u (Some v) ;;; ret tt.

End Benchmark.

End Benchmark.

(* ===================================================================== *)
(** * Vocabulary of the statements on generation and on the grids *)
(* ===================================================================== *)

Module GenerationVocabulary.

Import Camb.
Local Open Scope Q_scope.

Definition is_solver_run (e : event) : bool :=
  match e with CambRun _ _ _ _ => true | _ => false end.

(** How many runs of the Boltzmann solver a world has seen. *)
Definition solver_runs (w : World) : nat :=
  List.length (filter is_solver_run (trace w)).

(** The parameters one grid node hands to the solver, lines 111-138. *)
Definition solver_pars (self : CambGenerator) (omch2 h0 : Q) (nonlinear : bool)
  : CambParams :=
  {| p_ns := ns self; p_redshifts := [redshift self; 1 # 10000];
     p_H0 := h0 * 100; p_omch2 := omch2;
     p_ombh2 := omega_b self * h0 * h0; p_nonlinear := nonlinear;
     p_minkh := k_min self; p_maxkh := k_max self;
     p_npoints := k_num self |}.

(** What [_generate_data] stores for the node [(omch2, h0)]: the sound
    horizon of the linear run, the linear spectrum of that run's second
    redshift row, then the two redshift rows of the nonlinear run, each
    spectrum of [k_num] samples. *)
Definition stores_node (camb : CambParams -> result CambResults)
           (self : CambGenerator) (omch2 h0 : Q) (row : list Q) : Prop :=
  exists rl rnl lin0 lin nl0 nl1,
    camb (solver_pars self omch2 h0 false) = Return rl /\
    matter_power rl = [lin0; lin] /\
    camb (solver_pars self omch2 h0 true) = Return rnl /\
    matter_power rnl = [nl0; nl1] /\
    row = (rdrag rl :: lin ++ nl0 ++ nl1)%list /\
    List.length lin = Z.to_nat (k_num self) /\
    List.length nl0 = Z.to_nat (k_num self) /\
    List.length nl1 = Z.to_nat (k_num self).

(** Two outcomes of [get_data] agree: the same exception, or triples equal
    entry by entry as rationals. *)
Definition answer_eq (r1 r2 : result (Q * list Q * list Q)) : Prop :=
  match r1, r2 with
  | Return (s1, l1, n1), Return (s2, l2, n2) =>
    s1 == s2 /\ Forall2 Qeq l1 l2 /\ Forall2 Qeq n1 n2
  | Raise e1, Raise e2 => e1 = e2
  | _, _ => False
  end.

(** Every entry of a row, resp. of a table, lies between [lo] and [hi]. *)
Definition row_within (lo hi : Q) (v : list Q) : Prop :=
  Forall (fun a => lo <= a /\ a <= hi) v.

Definition table_within (lo hi : Q) (t : table) : Prop :=
  Forall (fun r => Forall (row_within lo hi) r) t.

Definition row_withinb (lo hi : Q) (v : list Q) : bool :=
  forallb (fun a => Qle_bool lo a && Qle_bool a hi) v.

Definition table_withinb (lo hi : Q) (t : table) : bool :=
  forallb (fun r => forallb (row_withinb lo hi) r) t.

End GenerationVocabulary.

Module Scenarios.

Import Camb.
Local Open Scope Q_scope.

(** A solver that is down. *)
Definition failing_camb (p : CambParams) : result CambResults :=
  Raise (ExternalError "CAMBError").

(** [CambGenerator()], every argument at its default. *)
Definition default_generator : CambGenerator :=
  Examples.constructed
    (__init__ "/barry/cosmology" 0.61 101 1 0.676 0.04814 0.97 Examples.empty_world).

(** A table of the default shape, every channel 1. *)
Definition flat_table : table :=
  repeat [repeat 1 (S (3 * 2000))] 101.

(** A world whose cache holds [flat_table] for the default generator. *)
Definition cached_world : World :=
  {| files := [(filename default_generator, flat_table)]; trace := [] |}.

End Scenarios.

(* ===================================================================== *)
(** * Properties of the cache fingerprint *)
(* ===================================================================== *)

Module Fingerprint.

Import Camb Vocabulary.
Local Open Scope string_scope.

Lemma uint_has_no_underscore (d : Decimal.uint) :
  occurs "_" (NilEmpty.string_of_uint d) = false.
Proof. induction d; simpl; auto. Qed.

Lemma str_has_no_underscore (z : Z) : occurs "_" (Py.str z) = false.
Proof.
  unfold Py.str. destruct (Z.to_int z); simpl; apply uint_has_no_underscore.
Qed.

Lemma str_inj (a b : Z) : Py.str a = Py.str b -> a = b.
Proof.
  unfold Py.str. intros H.
  apply DecimalZ.to_int_inj.
  assert (E : Some (Z.to_int a) = Some (Z.to_int b)).
  { rewrite <- (NilEmpty.isi (Z.to_int a)), <- (NilEmpty.isi (Z.to_int b)).
    now rewrite H. }
  now injection E.
Qed.

(** A separator that occurs in neither prefix splits a string in one way. *)
Lemma split_at_separator (c : ascii) (s1 s2 r1 r2 : string) :
  occurs c s1 = false -> occurs c s2 = false ->
  s1 ++ String c r1 = s2 ++ String c r2 -> s1 = s2 /\ r1 = r2.
Proof.
  revert s2. induction s1 as [|a s1 IH]; intros [|b s2]; simpl; intros H1 H2 E.
  - injection E as E. now split.
  - injection E as Eb _. subst b. rewrite Ascii.eqb_refl in H2. discriminate.
  - injection E as Ea _. subst a. rewrite Ascii.eqb_refl in H1. discriminate.
  - injection E as Eab E. subst b.
    apply orb_false_iff in H1 as [_ H1]. apply orb_false_iff in H2 as [_ H2].
    destruct (IH s2 H1 H2 E) as [-> ->]. now split.
Qed.

Lemma field_then_rest (a b : Z) (r1 r2 : string) :
  Py.str a ++ "_" ++ r1 = Py.str b ++ "_" ++ r2 -> a = b /\ r1 = r2.
Proof.
  intros E. change ("_" ++ r1) with (String "_" r1) in E.
  change ("_" ++ r2) with (String "_" r2) in E.
  apply split_at_separator in E; try apply str_has_no_underscore.
  destruct E as [E ->]. split; [now apply str_inj | reflexivity].
Qed.

Lemma fingerprint_eq_iff z N H h ob n z' N' H' h' ob' n' :
  fingerprint z N H h ob n = fingerprint z' N' H' h' ob' n' <->
  encoded z N H h ob n = encoded z' N' H' h' ob' n'.
Proof.
  unfold fingerprint, encoded. split.
  - intros E.
    apply field_then_rest in E as [-> E].
    apply field_then_rest in E as [-> E].
    apply field_then_rest in E as [-> E].
    apply field_then_rest in E as [-> E].
    apply field_then_rest in E as [-> E].
    apply str_inj in E as ->. reflexivity.
  - intros E. injection E as -> -> -> -> -> ->. reflexivity.
Qed.

Lemma append_inj_l (p s t : string) : p ++ s = p ++ t -> s = t.
Proof. induction p; simpl; intros E; [assumption | injection E; auto]. Qed.

Lemma length_append (s t : string) :
  String.length (s ++ t) = (String.length s + String.length t)%nat.
Proof. induction s; simpl; auto. Qed.

Lemma append_inj_r (s t q : string) : s ++ q = t ++ q -> s = t.
Proof.
  revert t. induction s as [|a s IH]; intros [|b t] E; simpl in *.
  - reflexivity.
  - exfalso. apply (f_equal String.length) in E. simpl in E.
    rewrite length_append in E. lia.
  - exfalso. apply (f_equal String.length) in E. simpl in E.
    rewrite length_append in E. lia.
  - injection E as -> E. f_equal. now apply IH.
Qed.

Lemma init_inv dir z N H h ob n w g :
  fst (__init__ dir z N H h ob n w) = Return g ->
  filename_unique g = fingerprint z N H h ob n /\
  filename g = (dir ++ "/" ++ "data/") ++ "cosmo_" ++ filename_unique g ++ ".npy" /\
  om_resolution g = N /\ h0_resolution g = H /\ Camb.h0 g = h /\
  omega_b g = ob /\ k_num g = 2000%Z /\ data g = None /\
  Np.linspace 0.05 0.3 N = Return (omch2s g) /\
  (if (H =? 1)%Z then Return [h] else Np.linspace 0.6 0.8 H) = Return (h0s g).
Proof.
  unfold __init__.
  destruct (Np.linspace 0.05 0.3 N) as [oms|e]; [|discriminate].
  destruct (if (H =? 1)%Z then Return [h] else Np.linspace 0.6 0.8 H)
    as [hs|e]; [|discriminate].
  simpl. intros [= <-]. simpl. repeat split; reflexivity.
Qed.

(** C4, as the program has it: the fingerprint of a generator is fixed by
    the six integers it encodes, [int(1000 z)], the two resolutions,
    [int(10000 h0)], [int(10000 ob)] and [int(1000 ns)].  Two constructions
    get the same fingerprint, and the same cache file, exactly when these
    integers agree; a resolution that differs always changes it, a float
    field that differs changes it only when its truncated scaling does. *)
Theorem fingerprint_exact_match dir w w' z N H h ob n z' N' H' h' ob' n' g g' :
  fst (__init__ dir z N H h ob n w) = Return g ->
  fst (__init__ dir z' N' H' h' ob' n' w') = Return g' ->
  (filename_unique g = filename_unique g' <->
   encoded z N H h ob n = encoded z' N' H' h' ob' n') /\
  (filename g = filename g' <-> filename_unique g = filename_unique g').
Proof.
  intros Hg Hg'.
  destruct (init_inv _ _ _ _ _ _ _ _ _ Hg) as (U & Fn & _).
  destruct (init_inv _ _ _ _ _ _ _ _ _ Hg') as (U' & Fn' & _).
  split.
  - rewrite U, U'. apply fingerprint_eq_iff.
  - rewrite Fn, Fn'. split.
    + intros E. apply append_inj_l in E. apply append_inj_l in E.
      now apply append_inj_r in E.
    + now intros ->.
Qed.

Lemma fingerprint_exact_match_witness :
  exists g g',
    fst (__init__ "/barry/cosmology" 0.51 101 1 0.676 0.04814 0.97
                  {| files := []; trace := [] |}) = Return g /\
    fst (__init__ "/barry/cosmology" 0.51 101 1 0.7 0.04814 0.97
                  {| files := []; trace := [] |}) = Return g' /\
    (filename_unique g = filename_unique g' <->
     encoded 0.51 101 1 0.676 0.04814 0.97 = encoded 0.51 101 1 0.7 0.04814 0.97).
Proof.
  eexists. eexists. split; [reflexivity|]. split; [reflexivity|].
  exact (proj1 (fingerprint_exact_match
                  "/barry/cosmology" {| files := []; trace := [] |}
                  {| files := []; trace := [] |}
                  0.51 101 1 0.676 0.04814 0.97
                  0.51 101 1 0.7 0.04814 0.97 _ _ eq_refl eq_refl)).
Defined.

(** C4 fails as stated: two constructions that differ in [h0] alone
    (0.676 against 0.67601) get one fingerprint and one cache file. *)
Lemma fingerprint_collision :
  ~ (0.676 == 0.67601)%Q /\
  match fst (__init__ "/barry/cosmology" 0.51 101 1 0.676 0.04814 0.97
                      {| files := []; trace := [] |}),
        fst (__init__ "/barry/cosmology" 0.51 101 1 0.67601 0.04814 0.97
                      {| files := []; trace := [] |}) with
  | Return g, Return g' =>
    filename_unique g = filename_unique g' /\ filename g = filename g'
  | _, _ => False
  end.
Proof.
  split.
  - intros E. vm_compute in E. discriminate E.
  - vm_compute. split; reflexivity.
Qed.

End Fingerprint.

(* ===================================================================== *)
(** * Properties of the load / generate life cycle *)
(* ===================================================================== *)

Module Lifecycle.

Import Camb Vocabulary.
Local Open Scope Z_scope.

Section Generation.

Variable camb : CambParams -> result CambResults.
Hypothesis camb_ok : solver_contract camb.

Lemma generate_cell_ok self i j o h w :
  exists row w',
    generate_cell camb self i j o h w = (Return row, w') /\
    files w' = files w /\
    List.length row = S (3 * Z.to_nat (k_num self)).
Proof.
  unfold generate_cell, mbind, modify, lift, ret.
  match goal with |- context [camb ?p] => destruct (camb_ok p) as (r & E & L & F) end.
  rewrite E.
  match goal with |- context [camb ?p] =>
    match p with context [true] => destruct (camb_ok p) as (r' & E' & L' & F') end
  end.
  rewrite E'. simpl in L, L', F, F'.
  destruct (matter_power r) as [|a [|b [|? ?]]]; try discriminate L.
  destruct (matter_power r') as [|a' [|b' [|? ?]]]; try discriminate L'.
  change (getitem [a; b] 1) with (Return b).
  inversion F as [|? ? Fa Fb']; subst. inversion Fb' as [|? ? Fb _]; subst.
  inversion F' as [|? ? Fa' Fb'']; subst. inversion Fb'' as [|? ? Fb2 _]; subst.
  assert (Kb : List.length b = Z.to_nat (k_num self)) by exact Fb.
  change (List.concat [a'; b']) with (a' ++ b' ++ [])%list.
  assert (Kc : List.length (a' ++ b' ++ [])%list = Z.to_nat (2 * k_num self)).
  { rewrite !length_app. cbn [List.length]. lia. }
  unfold Np.broadcast_to. rewrite Kb, Nat.eqb_refl.
  rewrite Kc, Nat.eqb_refl.
  eexists. eexists. split; [reflexivity|]. split; [reflexivity|].
  simpl List.length. rewrite length_app, Kb, Kc. lia.
Qed.

Lemma generate_row_ok self i o hs : forall j w,
  exists r w',
    generate_row camb self i j o hs w = (Return r, w') /\
    files w' = files w /\
    List.length r = List.length hs /\
    Forall (fun cell => List.length cell = S (3 * Z.to_nat (k_num self))) r.
Proof.
  induction hs as [|h hs IH]; intros j w.
  - exists [], w. repeat split; constructor.
  - cbn [generate_row]. unfold mbind at 1.
    destruct (generate_cell_ok self i j o h w) as (c & w1 & E & Fw & Lc).
    rewrite E. unfold mbind at 1.
    destruct (IH (S j) w1) as (cs & w2 & E2 & Fw2 & Lcs & Fcs).
    rewrite E2. exists (c :: cs), w2. unfold ret. repeat split.
    + congruence.
    + simpl. now rewrite Lcs.
    + now constructor.
Qed.

Lemma generate_rows_ok self oms : forall i w,
  exists t w',
    generate_rows camb self i oms w = (Return t, w') /\
    files w' = files w /\
    table_shape t (List.length oms) (List.length (h0s self))
                (S (3 * Z.to_nat (k_num self))).
Proof.
  induction oms as [|o oms IH]; intros i w.
  - exists [], w. repeat split; constructor.
  - cbn [generate_rows]. unfold mbind at 1.
    destruct (generate_row_ok self i o (h0s self) 0%nat w)
      as (r & w1 & E & Fw & Lr & Fr).
    rewrite E. unfold mbind at 1.
    destruct (IH (S i) w1) as (t & w2 & E2 & Fw2 & Lt & Ft).
    rewrite E2. exists (r :: t), w2. unfold ret. repeat split.
    + congruence.
    + simpl. now rewrite Lt.
    + constructor; [now split | assumption].
Qed.

Lemma generate_data_ok self w :
  exists t w',
    _generate_data camb self w = (Return t, w') /\
    files w' = (filename self, t) :: files w /\
    table_shape t (List.length (omch2s self)) (List.length (h0s self))
                (S (3 * Z.to_nat (k_num self))).
Proof.
  unfold _generate_data, mbind, modify, ret.
  match goal with |- context [generate_rows camb self 0 ?o ?w0] =>
    destruct (generate_rows_ok self o 0%nat w0) as (t & w1 & E & Fw & Sh)
  end.
  rewrite E. eexists. eexists. split; [reflexivity|].
  split; [|exact Sh]. simpl. now rewrite Fw.
Qed.

End Generation.

Lemma lookup_file_head path t fs : lookup_file path ((path, t) :: fs) = Some t.
Proof. simpl. now rewrite String.eqb_refl. Qed.

Lemma toy_camb_contract : solver_contract Examples.toy_camb.
Proof.
  intros p. eexists. split; [reflexivity|]. cbn [matter_power]. split.
  - apply length_map.
  - apply Forall_forall. intros row Hrow. apply in_map_iff in Hrow.
    destruct Hrow as (zz & <- & _). apply repeat_length.
Qed.

End Lifecycle.

(* ===================================================================== *)
(** * Properties of the bilinear interpolation *)
(* ===================================================================== *)

Module Interpolation.

Import Camb Vocabulary.
Import Lqa.
Local Open Scope Q_scope.

Lemma row_eq_refl v : row_eq v v.
Proof. induction v; constructor; [reflexivity | assumption]. Qed.

Lemma combine_map {A B C D} (f : A -> C) (g : B -> D) v w :
  combine (map f v) (map g w) = map (fun p => (f (fst p), g (snd p))) (combine v w).
Proof.
  revert w. induction v as [|a v IH]; intros [|b w]; simpl; try reflexivity.
  now rewrite IH.
Qed.

Lemma row_eq_map {A} (f g : A -> Q) l :
  (forall a, In a l -> f a == g a) -> row_eq (map f l) (map g l).
Proof.
  induction l as [|a l IH]; intros H; simpl; constructor.
  - apply H. now left.
  - apply IH. intros b Hb. apply H. now right.
Qed.

(** The blend of two rows, written as one pass over their entries. *)
Lemma blend2_as_map v1 v2 a b c d :
  Np.add (Np.scale (Np.scale v1 a) b) (Np.scale (Np.scale v2 c) d) =
  map (fun p => fst p * a * b + snd p * c * d) (combine v1 v2).
Proof.
  unfold Np.add, Np.scale. rewrite !map_map, combine_map, map_map. reflexivity.
Qed.

Lemma divide_comp a a' b : a == a' ->
  match Np.divide a b, Np.divide a' b with
  | Some q, Some q' => q == q'
  | None, None => True
  | _, _ => False
  end.
Proof.
  intros E. unfold Np.divide. destruct (Qeq_bool b 0); [exact I|].
  now rewrite E.
Qed.

Lemma Qfloor_eq q q' : q == q' -> Qfloor q = Qfloor q'.
Proof. intros E. now rewrite E. Qed.

Lemma Qceiling_eq q q' : q == q' -> Qceiling q = Qceiling q'.
Proof. intros E. now rewrite E. Qed.

(** C7: with a single H0 sample the bilinear blend is linear interpolation
    over the omch2 axis alone.  Whatever the table and the query,
    [_interpolate] ends as [(1-x) * data[floor][0] + x * data[ceil][0]]
    does (the same exception, or rows equal entry by entry), and its
    outcome does not depend on the [h0] it is given. *)
Theorem interpolate_degenerate_h0 self omch2 h0 :
  h0_resolution self = 1%Z ->
  result_eq (_interpolate self omch2 h0) (linear_in_omch2 self omch2) /\
  forall h0', _interpolate self omch2 h0' = _interpolate self omch2 h0.
Proof.
  intros H1. split; [|intros h0'; unfold _interpolate; rewrite H1; reflexivity].
  unfold _interpolate, linear_in_omch2. rewrite H1. cbn [Z.eqb Pos.eqb].
  destruct (getitem (omch2s self) 0) as [g0|e]; [|reflexivity].
  destruct (getitem (omch2s self) (-1)) as [gN|e]; [|reflexivity].
  cbn [Py.bind].
  assert (E : 1 * inject_Z (om_resolution self - 1) * (omch2 - g0) ==
              inject_Z (om_resolution self - 1) * (omch2 - g0)) by ring.
  pose proof (divide_comp _ _ (gN - g0) E) as D.
  destruct (Np.divide (1 * inject_Z (om_resolution self - 1) * (omch2 - g0)) (gN - g0))
    as [oi|];
  destruct (Np.divide (inject_Z (om_resolution self - 1) * (omch2 - g0)) (gN - g0))
    as [oi'|]; try contradiction; [|reflexivity].
  cbn [Np.int_floor Np.int_ceil Py.bind].
  rewrite (Qfloor_eq _ _ D), (Qceiling_eq _ _ D).
  change (Qfloor 0) with 0%Z.
  destruct (subscript2 (data self) (Qfloor oi') 0) as [v1|e]; [|reflexivity].
  cbn [Py.bind].
  destruct (subscript2 (data self) (Qceiling oi') 0) as [v2|e]; [|reflexivity].
  cbn [Py.bind result_eq].
  rewrite blend2_as_map. unfold Np.add. rewrite combine_map, map_map.
  apply row_eq_map. intros [a b] _. cbn [fst snd]. rewrite D. ring.
Qed.

(** ** The grids of [__init__] *)

Lemma getitem_map_seq {A} (f : nat -> A) (n : nat) (k : Z) :
  (0 <= k < Z.of_nat n)%Z ->
  getitem (map f (seq 0 n)) k = Return (f (Z.to_nat k)).
Proof.
  intros Hk. unfold getitem. rewrite length_map, length_seq.
  destruct (Z.ltb_spec k 0); [lia|].
  destruct (Z.leb_spec 0 k); [|lia]. destruct (Z.ltb_spec k (Z.of_nat n)); [|lia].
  cbn [andb]. rewrite nth_error_map, nth_error_seq.
  destruct (Nat.ltb_spec (Z.to_nat k) n); [reflexivity | lia].
Qed.

Lemma getitem_map_seq_last {A} (f : nat -> A) (n : nat) :
  (0 < n)%nat ->
  getitem (map f (seq 0 n)) (-1) = Return (f (n - 1)%nat).
Proof.
  intros Hn. unfold getitem. rewrite length_map, length_seq.
  cbn [Z.ltb Z.compare].
  destruct (Z.leb_spec 0 (-1 + Z.of_nat n)); [|lia].
  destruct (Z.ltb_spec (-1 + Z.of_nat n) (Z.of_nat n)); [|lia].
  cbn [andb]. rewrite nth_error_map, nth_error_seq.
  replace (Z.to_nat (-1 + Z.of_nat n)) with (n - 1)%nat by lia.
  destruct (Nat.ltb_spec (n - 1) n); [reflexivity | lia].
Qed.

Lemma linspace_inv start stop N l :
  Np.linspace start stop N = Return l ->
  (0 <= N)%Z /\ List.length l = Z.to_nat N /\
  (forall k, (0 <= k < N)%Z ->
     exists v, getitem l k = Return v /\
               (v == start + inject_Z k * ((stop - start) / inject_Z (N - 1)) \/
                (N = 1%Z /\ v == start))) /\
  ((1 <= N)%Z -> exists v, getitem l 0 = Return v /\ v == start) /\
  ((2 <= N)%Z -> getitem l (-1) = Return stop).
Proof.
  unfold Np.linspace. destruct (Z.ltb_spec N 0); [discriminate|].
  intros [= <-]. split; [assumption|]. split; [now rewrite length_map, length_seq|].
  split; [|split].
  - intros k Hk. rewrite getitem_map_seq by lia. eexists. split; [reflexivity|].
    rewrite Z2Nat.id by lia.
    destruct (Z.ltb_spec 1 N); cbn [andb].
    + destruct (Z.eqb_spec k (N - 1)).
      * left. subst k. field. intros E.
        assert (E' : inject_Z (N - 1) == inject_Z 0) by exact E.
        apply (proj1 (inject_Z_injective _ _)) in E'. lia.
      * left. ring.
    + right. split; [lia|]. assert (k = 0%Z) by lia. subst k.
      assert (N = 1%Z) by lia. subst N. change (inject_Z 0) with 0. ring.
  - intros HN. rewrite getitem_map_seq by lia. eexists. split; [reflexivity|].
    cbn [Z.to_nat Z.of_nat].
    destruct (Z.ltb_spec 1 N); cbn [andb].
    + destruct (Z.eqb_spec 0 (N - 1)); [lia|]. change (inject_Z 0) with 0. ring.
    + change (inject_Z 0) with 0. ring.
  - intros HN. rewrite getitem_map_seq_last by lia.
    destruct (Z.ltb_spec 1 N); [|lia]. cbn [andb].
    destruct (Z.eqb_spec (Z.of_nat (Z.to_nat N - 1)) (N - 1)); [reflexivity | lia].
Qed.

Lemma divide_nonzero a b : ~ b == 0 -> Np.divide a b = Some (a / b).
Proof.
  intros Hb. unfold Np.divide. destruct (Qeq_bool b 0) eqn:E; [|reflexivity].
  apply Qeq_bool_eq in E. contradiction.
Qed.

(** On a generator built by [__init__] with at least two omch2 samples and
    at least one H0 sample, the index computation of [_interpolate] never
    fails and gives the fractional indices of the query. *)
Lemma interpolate_on_init_grid dir z N H h ob n w g t omch2 h0q :
  fst (__init__ dir z N H h ob n w) = Return g ->
  (2 <= N)%Z -> (1 <= H)%Z ->
  exists oi hi,
    oi == omch2_index N omch2 /\ hi == h0_index H h0q /\
    _interpolate (set_data g (Some t)) omch2 h0q = interp_at H t oi hi.
Proof.
  intros Hg HN HH.
  destruct (Fingerprint.init_inv _ _ _ _ _ _ _ _ _ Hg)
    as (_ & _ & EN & EH & _ & _ & _ & _ & Lo & Lh).
  apply linspace_inv in Lo. destruct Lo as (_ & _ & _ & Lo0 & LoN).
  destruct (Lo0 ltac:(lia)) as (g0 & Eg0 & Qg0). specialize (LoN HN).
  unfold _interpolate. cbn [set_data omch2s h0s om_resolution h0_resolution data].
  rewrite Eg0, LoN, EN, EH. cbn [Py.bind].
  assert (Nz : ~ 0.3 - g0 == 0) by (rewrite Qg0; intros E; vm_compute in E; discriminate E).
  rewrite (divide_nonzero _ _ Nz).
  destruct (Z.eqb_spec H 1) as [->|H1].
  - cbn [Py.bind Np.int_floor Np.int_ceil]. eexists. exists 0.
    split; [|split; [reflexivity|]].
    2:{ unfold interp_at. cbn [Z.eqb Pos.eqb]. reflexivity. }
    unfold omch2_index. rewrite Qg0. field.
  - apply linspace_inv in Lh. destruct Lh as (_ & _ & _ & Lh0 & LhN).
    destruct (Lh0 ltac:(lia)) as (h_0 & Eh0 & Qh0). specialize (LhN ltac:(lia)).
    rewrite Eh0, LhN. cbn [Py.bind].
    assert (Nh : ~ 0.8 - h_0 == 0) by (rewrite Qh0; intros E; vm_compute in E; discriminate E).
    rewrite (divide_nonzero _ _ Nh).
    cbn [Py.bind Np.int_floor Np.int_ceil]. eexists. eexists.
    split; [|split].
    3:{ unfold interp_at. destruct (Z.eqb_spec H 1); [contradiction|]. reflexivity. }
    + unfold omch2_index. rewrite Qg0. field.
    + unfold h0_index. destruct (Z.eqb_spec H 1); [contradiction|].
      rewrite Qh0. field.
Qed.

(** ** Table lookups *)

Lemma getitem_in_range {A} (l : list A) (i : Z) (d : A) :
  (- Z.of_nat (List.length l) <= i < Z.of_nat (List.length l))%Z ->
  getitem l i = Return (nth (Z.to_nat (wrap (Z.of_nat (List.length l)) i)) l d).
Proof.
  intros Hi. unfold getitem, wrap.
  set (j := if (i <? 0)%Z then (i + Z.of_nat (List.length l))%Z else i).
  assert (Hj : (0 <= j < Z.of_nat (List.length l))%Z)
    by (subst j; destruct (Z.ltb_spec i 0); lia).
  destruct (Z.leb_spec 0 j); [|lia].
  destruct (Z.ltb_spec j (Z.of_nat (List.length l))); [|lia].
  cbn [andb]. rewrite (nth_error_nth' l d) by lia. reflexivity.
Qed.

Lemma getitem_out_of_range {A} (l : list A) (i : Z) :
  (i < - Z.of_nat (List.length l) \/ Z.of_nat (List.length l) <= i)%Z ->
  getitem l i = Raise IndexError.
Proof.
  intros Hi. unfold getitem.
  destruct (Z.ltb_spec i 0).
  - destruct (Z.leb_spec 0 (i + Z.of_nat (List.length l))); [|reflexivity].
    destruct (Z.ltb_spec (i + Z.of_nat (List.length l)) (Z.of_nat (List.length l)));
      [lia | reflexivity].
  - destruct (Z.leb_spec 0 i); [|reflexivity].
    destruct (Z.ltb_spec i (Z.of_nat (List.length l))); [lia | reflexivity].
Qed.

Lemma getitem_raises {A} (l : list A) (i : Z) e :
  getitem l i = Raise e -> e = IndexError.
Proof.
  unfold getitem.
  destruct (_ && _); [|now intros [= <-]].
  destruct (nth_error _ _); [discriminate | now intros [= <-]].
Qed.

Lemma subscript2_raises t i j e :
  subscript2 (Some t) i j = Raise e -> e = IndexError.
Proof.
  unfold subscript2. destruct (getitem t i) as [r|e'] eqn:E; cbn [Py.bind].
  - apply getitem_raises.
  - intros [= <-]. now apply getitem_raises in E.
Qed.

Lemma subscript2_row_out_of_range t i j :
  (i < - Z.of_nat (List.length t) \/ Z.of_nat (List.length t) <= i)%Z ->
  subscript2 (Some t) i j = Raise IndexError.
Proof.
  intros Hi. unfold subscript2. now rewrite getitem_out_of_range.
Qed.

Lemma subscript2_in_range t N H c i j :
  table_shape t (Z.to_nat N) (Z.to_nat H) c ->
  (- N <= i < N)%Z -> (- H <= j < H)%Z ->
  subscript2 (Some t) i j = Return (cell t (wrap N i) (wrap H j)) /\
  List.length (cell t (wrap N i) (wrap H j)) = c.
Proof.
  intros [Lt Ft] Hi Hj. unfold subscript2, cell.
  assert (LN : Z.of_nat (List.length t) = N) by lia.
  rewrite (getitem_in_range t i []) by lia. cbn [Py.bind]. rewrite LN.
  set (r := nth (Z.to_nat (wrap N i)) t []).
  assert (Hr : In r t).
  { apply nth_In. unfold wrap. destruct (Z.ltb_spec i 0); lia. }
  rewrite Forall_forall in Ft. destruct (Ft r Hr) as [Lr Fr].
  assert (LH : Z.of_nat (List.length r) = H) by lia.
  rewrite (getitem_in_range r j []) by lia. rewrite LH. split; [reflexivity|].
  rewrite Forall_forall in Fr. apply Fr. apply nth_In.
  unfold wrap. destruct (Z.ltb_spec j 0); lia.
Qed.

(** ** The blend *)

Lemma row_eq_sym v w : row_eq v w -> row_eq w v.
Proof. induction 1; constructor; [now symmetry | assumption]. Qed.

Lemma row_eq_trans u v w : row_eq u v -> row_eq v w -> row_eq u w.
Proof.
  intros H. revert w.
  induction H as [|a b u v Hab Huv IH]; intros w' H'; inversion H'; subst; constructor.
  - etransitivity; eassumption.
  - apply IH. assumption.
Qed.

Lemma add_map_combine {A B} (f : A -> Q) (g : B -> Q) l m :
  Np.add (map f l) (map g m) = map (fun p => f (fst p) + g (snd p)) (combine l m).
Proof. unfold Np.add. now rewrite combine_map, map_map. Qed.

Lemma scale_scale v a b : Np.scale (Np.scale v a) b = map (fun q => q * a * b) v.
Proof. unfold Np.scale. now rewrite map_map. Qed.

Lemma map_combine_fst {A B C} (f : A -> C) (l : list A) (m : list B) :
  List.length l = List.length m ->
  map (fun p => f (fst p)) (combine l m) = map f l.
Proof.
  revert m. induction l as [|a l IH]; intros [|b m] E; simpl in *;
    try reflexivity; try discriminate.
  f_equal. apply IH. now injection E.
Qed.

Lemma length_combine_same {A B} (l : list A) (m : list B) :
  List.length l = List.length m -> List.length (combine l m) = List.length l.
Proof. intros E. rewrite length_combine, <- E. apply Nat.min_id. Qed.

Lemma Qfloor_le_ceiling q : (Qfloor q <= Qceiling q)%Z.
Proof. rewrite Zle_Qle. apply Qle_floor_ceiling. Qed.

(** A query whose floor and ceil indices Python accepts on both axes
    returns the bilinear blend of the cells those indices select. *)
Lemma interp_at_in_range t N H c oi hi :
  table_shape t (Z.to_nat N) (Z.to_nat H) c ->
  (- N <= Qfloor oi)%Z -> (Qceiling oi <= N - 1)%Z ->
  (- H <= Qfloor hi)%Z -> (Qceiling hi <= H - 1)%Z ->
  (H = 1%Z -> hi == 0) ->
  result_eq (interp_at H t oi hi) (Return (bilinear t N H oi hi)).
Proof.
  intros Sh Ho0 Ho1 Hh0 Hh1 Hdeg.
  pose proof (Qfloor_le_ceiling oi). pose proof (Qfloor_le_ceiling hi).
  destruct (subscript2_in_range t N H c (Qfloor oi) (Qfloor hi) Sh) as [E1 L1]; try lia.
  destruct (subscript2_in_range t N H c (Qceiling oi) (Qfloor hi) Sh) as [E2 L2]; try lia.
  destruct (subscript2_in_range t N H c (Qfloor oi) (Qceiling hi) Sh) as [E3 L3]; try lia.
  destruct (subscript2_in_range t N H c (Qceiling oi) (Qceiling hi) Sh) as [E4 L4]; try lia.
  unfold interp_at, bilinear. rewrite E1, E2, E3, E4. cbn [Py.bind].
  set (v1 := cell t (wrap N (Qfloor oi)) (wrap H (Qfloor hi))) in *.
  set (v2 := cell t (wrap N (Qceiling oi)) (wrap H (Qfloor hi))) in *.
  set (v3 := cell t (wrap N (Qfloor oi)) (wrap H (Qceiling hi))) in *.
  set (v4 := cell t (wrap N (Qceiling oi)) (wrap H (Qceiling hi))) in *.
  rewrite !scale_scale.
  assert (C12 : List.length (combine v1 v2) = c)
    by (rewrite length_combine_same; congruence).
  assert (C123 : List.length (combine (combine v1 v2) v3) = c)
    by (rewrite length_combine_same; congruence).
  destruct (Z.eqb_spec H 1) as [HH1|HH1]; cbn [result_eq].
  - rewrite add_map_combine.
    apply row_eq_sym.
    eapply row_eq_trans.
    + apply (row_eq_map _ (fun p => fst (fst (fst p)) * (1 - (oi - inject_Z (Qfloor oi)))
                                      * (1 - (hi - inject_Z (Qfloor hi)))
                                    + snd (fst (fst p)) * (oi - inject_Z (Qfloor oi))
                                      * (1 - (hi - inject_Z (Qfloor hi))))).
      intros [[[a b] d] e] _. cbn [fst snd].
      pose proof (Hdeg HH1) as Ehi.
      rewrite (Qfloor_eq _ _ Ehi). change (Qfloor 0) with 0%Z.
      change (inject_Z 0) with 0. rewrite Ehi. ring.
    + rewrite (map_combine_fst
                 (fun q => fst (fst q) * (1 - (oi - inject_Z (Qfloor oi)))
                           * (1 - (hi - inject_Z (Qfloor hi)))
                           + snd (fst q) * (oi - inject_Z (Qfloor oi))
                             * (1 - (hi - inject_Z (Qfloor hi))))).
      2:{ congruence. }
      rewrite (map_combine_fst
                 (fun q => fst q * (1 - (oi - inject_Z (Qfloor oi)))
                           * (1 - (hi - inject_Z (Qfloor hi)))
                           + snd q * (oi - inject_Z (Qfloor oi))
                             * (1 - (hi - inject_Z (Qfloor hi))))).
      2:{ congruence. }
      apply row_eq_refl.
  - rewrite !add_map_combine. apply row_eq_map.
    intros [[[a b] d] e] _. cbn [fst snd]. reflexivity.
Qed.

(** A query above the last omch2 sample reads row [N] of an [N]-row table. *)
Lemma interp_at_above (t : table) N H oi hi :
  List.length t = Z.to_nat N -> (0 <= N)%Z ->
  inject_Z (N - 1) < oi ->
  interp_at H t oi hi = Raise IndexError.
Proof.
  intros Lt HN Hoi.
  assert (Hc : (N <= Qceiling oi)%Z).
  { assert (N - 1 < Qceiling oi)%Z; [|lia].
    rewrite Zlt_Qlt. eapply Qlt_le_trans; [exact Hoi | apply Qle_ceiling]. }
  assert (E2 : forall j, subscript2 (Some t) (Qceiling oi) j = Raise IndexError)
    by (intros j; apply subscript2_row_out_of_range; lia).
  unfold interp_at. cbv zeta.
  destruct (subscript2 (Some t) (Qfloor oi) (Qfloor hi)) as [v1|e] eqn:E1.
  - cbn [Py.bind]. rewrite E2. reflexivity.
  - cbn [Py.bind]. now apply subscript2_raises in E1 as ->.
Qed.

Lemma table_shapeb_sound t a b c :
  table_shapeb t a b c = true -> table_shape t a b c.
Proof.
  unfold table_shapeb, table_shape. intros E.
  apply andb_true_iff in E as [E1 E2]. apply Nat.eqb_eq in E1. split; [assumption|].
  rewrite forallb_forall in E2. apply Forall_forall. intros r Hr.
  specialize (E2 r Hr). apply andb_true_iff in E2 as [E2 E3].
  apply Nat.eqb_eq in E2. split; [assumption|].
  rewrite forallb_forall in E3. apply Forall_forall. intros x Hx.
  now apply Nat.eqb_eq, E3.
Qed.

Lemma getitem_In {A} (l : list A) i a : getitem l i = Return a -> In a l.
Proof.
  unfold getitem. destruct (_ && _); [|discriminate].
  destruct (nth_error _ _) eqn:E; [|discriminate].
  intros [= <-]. eapply nth_error_In; eassumption.
Qed.

Lemma subscript2_col_out_of_range t a b c i j :
  table_shape t a b c -> (Z.of_nat b <= j)%Z ->
  subscript2 (Some t) i j = Raise IndexError.
Proof.
  intros [_ Ft] Hj. unfold subscript2.
  destruct (getitem t i) as [r|e] eqn:E; cbn [Py.bind].
  - apply getitem_In in E. rewrite Forall_forall in Ft.
    destruct (Ft r E) as [Lr _]. apply getitem_out_of_range. lia.
  - now apply getitem_raises in E as ->.
Qed.

(** Whatever fails in the lookups of the blend fails with [IndexError]. *)
Lemma interp_at_raises H t oi hi e :
  interp_at H t oi hi = Raise e -> e = IndexError.
Proof.
  unfold interp_at. cbv zeta.
  destruct (subscript2 (Some t) (Qfloor oi) (Qfloor hi)) eqn:E1; cbn [Py.bind];
    [|intros [= <-]; now apply subscript2_raises in E1].
  destruct (subscript2 (Some t) (Qceiling oi) (Qfloor hi)) eqn:E2; cbn [Py.bind];
    [|intros [= <-]; now apply subscript2_raises in E2].
  destruct (H =? 1)%Z; [discriminate|].
  destruct (subscript2 (Some t) (Qfloor oi) (Qceiling hi)) eqn:E3; cbn [Py.bind];
    [|intros [= <-]; now apply subscript2_raises in E3].
  destruct (subscript2 (Some t) (Qceiling oi) (Qceiling hi)) eqn:E4; cbn [Py.bind];
    [discriminate|intros [= <-]; now apply subscript2_raises in E4].
Qed.

(** A query above the last H0 sample, on a grid of several, reads column
    [H] of an [H]-column table. *)
Lemma interp_at_above_h0 t N H c oi hi :
  table_shape t N (Z.to_nat H) c -> (2 <= H)%Z ->
  inject_Z (H - 1) < hi ->
  interp_at H t oi hi = Raise IndexError.
Proof.
  intros Sh HH Hhi.
  assert (Hc : (H <= Qceiling hi)%Z).
  { assert (H - 1 < Qceiling hi)%Z; [|lia].
    rewrite Zlt_Qlt. eapply Qlt_le_trans; [exact Hhi | apply Qle_ceiling]. }
  assert (E3 : forall i, subscript2 (Some t) i (Qceiling hi) = Raise IndexError)
    by (intros i; eapply subscript2_col_out_of_range; [exact Sh | lia]).
  destruct (interp_at H t oi hi) as [v|e] eqn:E;
    [|now apply interp_at_raises in E as ->].
  exfalso. revert E. unfold interp_at. cbv zeta.
  destruct (subscript2 (Some t) (Qfloor oi) (Qfloor hi)); cbn [Py.bind]; [|discriminate].
  destruct (subscript2 (Some t) (Qceiling oi) (Qfloor hi)); cbn [Py.bind]; [|discriminate].
  destruct (Z.eqb_spec H 1); [lia|].
  rewrite E3. discriminate.
Qed.

Lemma bilinear_comp t N H oi oi' hi hi' :
  oi == oi' -> hi == hi' ->
  row_eq (bilinear t N H oi hi) (bilinear t N H oi' hi').
Proof.
  intros Eo Eh. unfold bilinear.
  rewrite (Qfloor_eq _ _ Eo), (Qceiling_eq _ _ Eo),
          (Qfloor_eq _ _ Eh), (Qceiling_eq _ _ Eh).
  apply row_eq_map. intros [[[a b] d] e] _. rewrite Eo, Eh. reflexivity.
Qed.

Lemma result_eq_trans r1 r2 r3 :
  result_eq r1 r2 -> result_eq r2 r3 -> result_eq r1 r3.
Proof.
  destruct r1, r2, r3; cbn; try contradiction; try congruence.
  apply row_eq_trans.
Qed.

Lemma index_above_grid (n u : Q) : 1 <= n -> 1 < u -> n < n * u.
Proof.
  intros Hn Hu. setoid_replace n with (n * 1) at 1 by ring.
  apply Qmult_lt_l; [lra | assumption].
Qed.

Lemma index_in_grid (n u : Q) : 0 <= n -> 0 <= u -> u <= 1 -> 0 <= n * u /\ n * u <= n.
Proof.
  intros Hn Hu0 Hu1. split.
  - now apply Qmult_le_0_compat.
  - setoid_replace n with (n * 1) at 2 by ring.
    destruct (Qlt_le_dec 0 n) as [Pos|Zero].
    + now apply Qmult_le_l.
    + assert (E : n == 0) by lra. rewrite E. lra.
Qed.

(** C1, as the program has it.  [_interpolate] does no clamping and no
    range check of its own; the table lookups decide.  On a generator of
    at least two omch2 samples whose table has the generator's shape, a
    query above the grid (omch2 over 0.3, or h0 over 0.8 on an H0 grid of
    several samples) has its ceil index past the end of the axis, and the
    call raises [IndexError] instead of extrapolating. *)
Theorem interpolate_outside_grid dir z N H h ob n w g t c omch2 h0q :
  fst (__init__ dir z N H h ob n w) = Return g ->
  (2 <= N)%Z -> (1 <= H)%Z ->
  table_shape t (Z.to_nat N) (Z.to_nat H) c ->
  (0.3 < omch2 ->
   _interpolate (set_data g (Some t)) omch2 h0q = Raise IndexError) /\
  ((2 <= H)%Z -> 0.8 < h0q ->
   _interpolate (set_data g (Some t)) omch2 h0q = Raise IndexError).
Proof.
  intros Hg HN HH Sh.
  destruct (interpolate_on_init_grid dir z N H h ob n w g t omch2 h0q Hg HN HH)
    as (oi & hi & Eo & Eh & Ei).
  rewrite Ei. split.
  - intros Hom. apply (interp_at_above t N); [apply Sh | lia |].
    rewrite Eo. unfold omch2_index.
    setoid_replace (inject_Z (N - 1) * (omch2 - 0.05) / 0.25)
      with (inject_Z (N - 1) * ((omch2 - 0.05) * 4)) by field.
    apply index_above_grid; [|lra].
    change 1 with (inject_Z 1). rewrite <- Zle_Qle. lia.
  - intros HH2 Hh. apply (interp_at_above_h0 t (Z.to_nat N) H c); [exact Sh | exact HH2 |].
    rewrite Eh. unfold h0_index. destruct (Z.eqb_spec H 1); [lia|].
    setoid_replace (inject_Z (H - 1) * (h0q - 0.6) / 0.2)
      with (inject_Z (H - 1) * ((h0q - 0.6) * 5)) by field.
    apply index_above_grid; [|lra].
    change 1 with (inject_Z 1). rewrite <- Zle_Qle. lia.
Qed.

Lemma interpolate_outside_grid_witness :
  _interpolate Examples.loaded_3x1 0.31 0.676 = Raise IndexError /\
  _interpolate Examples.loaded_3x2 0.1 0.81 = Raise IndexError.
Proof.
  assert (Hg : fst (__init__ "/barry/cosmology" 0.51 3 1 0.676 0.04814 0.97
                             Examples.empty_world) = Return (Examples.generator 3 1))
    by (vm_compute; reflexivity).
  assert (Sh : table_shape Examples.table_3x1 (Z.to_nat 3) (Z.to_nat 1) (1 + 3 * 2000))
    by (apply table_shapeb_sound; vm_compute; reflexivity).
  assert (Hg2 : fst (__init__ "/barry/cosmology" 0.51 3 2 0.676 0.04814 0.97
                              Examples.empty_world) = Return (Examples.generator 3 2))
    by (vm_compute; reflexivity).
  assert (Sh2 : table_shape Examples.table_3x2 (Z.to_nat 3) (Z.to_nat 2) (1 + 3 * 2000))
    by (apply table_shapeb_sound; vm_compute; reflexivity).
  split.
  - refine (proj1 (interpolate_outside_grid
                     "/barry/cosmology" 0.51 3 1 0.676 0.04814 0.97
                     Examples.empty_world (Examples.generator 3 1)
                     Examples.table_3x1 (1 + 3 * 2000) 0.31 0.676
                     Hg _ _ Sh) _); [lia | lia | vm_compute; reflexivity].
  - refine (proj2 (interpolate_outside_grid
                     "/barry/cosmology" 0.51 3 2 0.676 0.04814 0.97
                     Examples.empty_world (Examples.generator 3 2)
                     Examples.table_3x2 (1 + 3 * 2000) 0.1 0.81
                     Hg2 _ _ Sh2) _ _); [lia | lia | lia | vm_compute; reflexivity].
Defined.

(** C1 fails as stated: on the default grid of 101 samples, loaded, the
    query [om = 0.8] (omch2 about 0.34, above the last sample 0.3) raises
    [IndexError] instead of extrapolating, and so does [_interpolate] at
    omch2 = 0.31. *)
Lemma interpolate_above_grid_raises :
  _interpolate (fst (Examples.generated 101 1)) 0.31 0.676 = Raise IndexError /\
  fst (get_data Examples.toy_camb 0.8 None (Examples.generated 101 1))
  = Raise IndexError.
Proof.
  split; vm_compute; reflexivity.
Qed.

(** Just below the grid the floor index is [-1], which reads the last row:
    on three samples whose sound horizons are 105, 117.5 and 130, the query
    omch2 = 0.04 blends 130 and 105 (weights 0.08 and 0.92) into 107. *)
Example interpolate_below_grid_wraps :
  match _interpolate (fst Examples.gen_3x1) 0.04 0.676 with
  | Return row => nth 0 row 0 == 107
  | Raise _ => False
  end.
Proof. vm_compute. reflexivity. Qed.

Lemma interpolate_degenerate_h0_witness :
  result_eq (_interpolate Examples.loaded_3x1 0.1 0.676)
            (linear_in_omch2 Examples.loaded_3x1 0.1) /\
  _interpolate Examples.loaded_3x1 0.1 0.7 = _interpolate Examples.loaded_3x1 0.1 0.676.
Proof.
  destruct (interpolate_degenerate_h0 Examples.loaded_3x1 0.1 0.676 eq_refl)
    as [Linear Same].
  split; [exact Linear | exact (Same 0.7)].
Defined.

End Interpolation.

(* ===================================================================== *)
(** * Rounding at the upper end of an axis *)
(* ===================================================================== *)

Module Rounding.

Import PrimFloat.
Local Open Scope float_scope.
#[local] Set Warnings "-inexact-float".

(** On six H0 samples the index of the last sample, [h0 = 0.8], rounds to
    a value over 5, so its ceil is 6 and the lookup [data[., 6]] is past
    the table; on five samples it is exactly 4. *)
Example upper_h0_edge_rounds_past_table :
  ltb 5 (Binary64.h0_index 6 0.8) = true /\
  eqb (Binary64.h0_index 5 0.8) 4 = true.
Proof. split; vm_compute; reflexivity. Qed.

(** The product [(0.51689 - 0.04814) * 0.8 * 0.8], which is the last omch2
    sample 0.3 in exact arithmetic, rounds to a value over 0.3, and its
    index on three samples to a value over 2. *)
Example product_rounds_past_grid :
  ltb 0.3 (Binary64.omch2 0.51689 0.04814 0.8) = true /\
  ltb 2 (Binary64.omch2_index 3 (Binary64.omch2 0.51689 0.04814 0.8)) = true.
Proof. split; vm_compute; reflexivity. Qed.

(** The last omch2 sample itself has the exact index [N - 1]. *)
Example upper_omch2_edge_is_exact :
  eqb (Binary64.omch2_index 101 0.3) 100 = true /\
  eqb (Binary64.omch2_index 3 0.3) 2 = true.
Proof. split; vm_compute; reflexivity. Qed.

(** The scaled values of the fingerprint can round just under the integer
    the exact product reaches, and [int] then gives one less. *)
Example scaled_value_rounds_below_integer :
  ltb (0.69 * 10000) 6900 = true /\
  ltb (1.001 * 1000) 1001 = true.
Proof. split; vm_compute; reflexivity. Qed.

End Rounding.

(* ===================================================================== *)
(** * Properties of [get_data] *)
(* ===================================================================== *)

Module Query.

Import Camb Vocabulary Interpolation.
Import Lqa.
Local Open Scope Q_scope.

(** On a loaded generator [get_data] touches neither the instance nor the
    world: it is the interpolation followed by the split into channels. *)
Lemma get_data_loaded camb self w om h0o t :
  data self = Some t ->
  get_data camb om h0o (self, w) =
  (let h0q := match h0o with None => Camb.h0 self | Some q => q end in
   match _interpolate self ((om - omega_b self) * h0q * h0q) h0q with
   | Return row =>
     match getitem row 0 with
     | Return rs => Return (rs, slice row 1 (Some (1 + k_num self)%Z),
                            slice row (1 + 2 * k_num self)%Z None)
     | Raise e => Raise e
     end
   | Raise e => Raise e
   end, (self, w)).
Proof.
  intros Hd. unfold get_data, mbind, gets, ret, lift. cbn [fst snd].
  rewrite Hd. cbn [fst snd].
  destruct (_interpolate _ _ _) as [row|e]; [|reflexivity].
  destruct (getitem row 0); reflexivity.
Qed.

(** The lazy load of [get_data]: with the cache file present, an unloaded
    generator answers as the loaded one does. *)
Lemma get_data_lazy_load camb self w om h0o t :
  data self = None ->
  lookup_file (filename self) (files w) = Some t ->
  get_data camb om h0o (self, w) =
  get_data camb om h0o
           (set_data self (Some t), emit (LogInfo "Loading existing CAMB data") w).
Proof.
  intros Hd Hf.
  rewrite (get_data_loaded camb (set_data self (Some t)) _ om h0o t eq_refl).
  unfold get_data, mbind, gets, ret, lift. cbn [fst snd]. rewrite Hd.
  unfold load_data, can_generate_default, mbind, gets, in_world, modify, np_load,
    path_exists.
  cbn [fst snd]. rewrite Hf. cbn [negb fst snd emit files]. rewrite Hf.
  cbn [fst snd].
  destruct (_interpolate _ _ _) as [row|e]; [|reflexivity].
  destruct (getitem row 0); reflexivity.
Qed.

(** ** Slices *)

Lemma slice_from_to {A} (l : list A) (lo hi : nat) :
  (lo <= hi <= List.length l)%nat ->
  slice l (Z.of_nat lo) (Some (Z.of_nat hi)) = firstn (hi - lo) (skipn lo l).
Proof.
  intros Hb. unfold slice, slice_bound.
  destruct (Z.ltb_spec (Z.of_nat lo) 0); [lia|].
  destruct (Z.ltb_spec (Z.of_nat hi) 0); [lia|].
  rewrite !Z.min_l by lia. rewrite Nat2Z.id. f_equal. lia.
Qed.

Lemma slice_from {A} (l : list A) (lo : nat) :
  (lo <= List.length l)%nat ->
  slice l (Z.of_nat lo) None = skipn lo l.
Proof.
  intros Hb. unfold slice, slice_bound.
  destruct (Z.ltb_spec (Z.of_nat lo) 0); [lia|].
  rewrite !Z.min_l by lia. rewrite Nat2Z.id.
  apply firstn_all2. rewrite length_skipn. lia.
Qed.

Lemma row_eq_length v w : row_eq v w -> List.length v = List.length w.
Proof. induction 1; simpl; congruence. Qed.

Lemma row_eq_firstn n v w : row_eq v w -> row_eq (firstn n v) (firstn n w).
Proof.
  intros H. revert n.
  induction H as [|a b v w Hab Hvw IH]; intros [|n]; simpl; constructor;
    solve [assumption | apply IH].
Qed.

Lemma row_eq_skipn n v w : row_eq v w -> row_eq (skipn n v) (skipn n w).
Proof.
  intros H. revert n.
  induction H as [|a b v w Hab Hvw IH]; intros [|n]; simpl;
    solve [constructor; assumption | apply IH].
Qed.

Lemma row_eq_slice v w lo hi : row_eq v w -> row_eq (slice v lo hi) (slice w lo hi).
Proof.
  intros H. unfold slice. rewrite (row_eq_length _ _ H).
  now apply row_eq_firstn, row_eq_skipn.
Qed.

(** ** The shape of an interpolated row *)

Lemma subscript2_length t a b c i j v :
  table_shape t a b c -> subscript2 (Some t) i j = Return v -> List.length v = c.
Proof.
  intros [_ Ft]. unfold subscript2.
  destruct (getitem t i) as [r|e] eqn:E; cbn [Py.bind]; [|discriminate].
  intros Ev. apply getitem_In in E, Ev.
  rewrite Forall_forall in Ft. destruct (Ft r E) as [_ Fr].
  rewrite Forall_forall in Fr. now apply Fr.
Qed.

Lemma length_add v w :
  List.length (Np.add v w) = Nat.min (List.length v) (List.length w).
Proof. unfold Np.add. now rewrite length_map, length_combine. Qed.

Lemma length_scale v q : List.length (Np.scale v q) = List.length v.
Proof. unfold Np.scale. apply length_map. Qed.

Lemma interpolate_length self t a b c omch2 h0q row :
  data self = Some t -> table_shape t a b c ->
  _interpolate self omch2 h0q = Return row -> List.length row = c.
Proof.
  intros Hd Sh. unfold _interpolate. rewrite Hd.
  destruct (getitem (omch2s self) 0) as [g0|]; cbn [Py.bind]; [|discriminate].
  destruct (getitem (omch2s self) (-1)) as [gN|]; cbn [Py.bind]; [|discriminate].
  destruct (Np.divide _ (gN - g0)) as [oi|].
  2:{ destruct (if (h0_resolution self =? 1)%Z then _ else _); cbn; discriminate. }
  destruct (h0_resolution self =? 1)%Z.
  - cbn [Py.bind Np.int_floor Np.int_ceil].
    destruct (subscript2 (Some t) (Qfloor oi) (Qfloor 0)) as [v1|] eqn:E1;
      cbn [Py.bind]; [|discriminate].
    destruct (subscript2 (Some t) (Qceiling oi) (Qfloor 0)) as [v2|] eqn:E2;
      cbn [Py.bind]; [|discriminate].
    intros [= <-].
    rewrite length_add, !length_scale,
      (subscript2_length _ _ _ _ _ _ _ Sh E1), (subscript2_length _ _ _ _ _ _ _ Sh E2).
    apply Nat.min_id.
  - destruct (getitem (h0s self) 0) as [h_0|]; cbn [Py.bind]; [|discriminate].
    destruct (getitem (h0s self) (-1)) as [h_N|]; cbn [Py.bind]; [|discriminate].
    destruct (Np.divide _ (h_N - h_0)) as [hi|]; cbn [Py.bind Np.int_floor Np.int_ceil];
      [|discriminate].
    destruct (subscript2 (Some t) (Qfloor oi) (Qfloor hi)) as [v1|] eqn:E1;
      cbn [Py.bind]; [|discriminate].
    destruct (subscript2 (Some t) (Qceiling oi) (Qfloor hi)) as [v2|] eqn:E2;
      cbn [Py.bind]; [|discriminate].
    destruct (subscript2 (Some t) (Qfloor oi) (Qceiling hi)) as [v3|] eqn:E3;
      cbn [Py.bind]; [|discriminate].
    destruct (subscript2 (Some t) (Qceiling oi) (Qceiling hi)) as [v4|] eqn:E4;
      cbn [Py.bind]; [|discriminate].
    intros [= <-].
    rewrite !length_add, !length_scale,
      (subscript2_length _ _ _ _ _ _ _ Sh E1), (subscript2_length _ _ _ _ _ _ _ Sh E2),
      (subscript2_length _ _ _ _ _ _ _ Sh E3), (subscript2_length _ _ _ _ _ _ _ Sh E4).
    rewrite !Nat.min_id. reflexivity.
Qed.

(** A row of [1 + 3 K] channels splits into its first channel and three
    runs of [K]; the slices of [get_data] are the first and the last run. *)
Lemma channels_split (row : list Q) (K : nat) :
  List.length row = S (3 * K) ->
  exists rs lin mid nl,
    getitem row 0 = Return rs /\
    slice row 1 (Some (1 + Z.of_nat K)%Z) = lin /\
    slice row (1 + 2 * Z.of_nat K)%Z None = nl /\
    row = (rs :: lin ++ mid ++ nl)%list /\
    List.length lin = K /\ List.length mid = K /\ List.length nl = K.
Proof.
  intros L. destruct row as [|rs rest]; [discriminate L|].
  simpl in L. injection L as L.
  exists rs, (firstn K rest), (firstn K (skipn K rest)), (skipn (2 * K) rest).
  split; [reflexivity|].
  split.
  { change 1%Z with (Z.of_nat 1). rewrite <- Nat2Z.inj_add.
    rewrite slice_from_to by (simpl; lia).
    replace (1 + K - 1)%nat with K by lia. reflexivity. }
  split.
  { replace (1 + 2 * Z.of_nat K)%Z with (Z.of_nat (S (2 * K))) by lia.
    rewrite slice_from by (simpl; lia). reflexivity. }
  split.
  { f_equal. rewrite <- (firstn_skipn K rest) at 1. f_equal.
    rewrite <- (firstn_skipn K (skipn K rest)) at 1. f_equal.
    rewrite skipn_skipn. f_equal. lia. }
  rewrite !length_firstn, !length_skipn. lia.
Qed.

(** ** Queries inside the grid *)

(** Inside the table no index wraps: the blend of the cells Python reads
    is the bilinear interpolation of the specification. *)
Lemma bilinear_in_table t N H oi hi :
  (0 <= Qfloor oi)%Z -> (0 <= Qfloor hi)%Z ->
  row_eq (bilinear t N H oi hi) (bilinear_interpolation t oi hi).
Proof.
  intros Ho Hh. unfold bilinear, bilinear_interpolation, wrap.
  pose proof (Qfloor_le_ceiling oi). pose proof (Qfloor_le_ceiling hi).
  destruct (Z.ltb_spec (Qfloor oi) 0); [lia|].
  destruct (Z.ltb_spec (Qceiling oi) 0); [lia|].
  destruct (Z.ltb_spec (Qfloor hi) 0); [lia|].
  destruct (Z.ltb_spec (Qceiling hi) 0); [lia|].
  cbv zeta. apply row_eq_map. intros [[[v1 v2] v3] v4] _. ring.
Qed.

Lemma interpolate_in_grid dir z N H h ob n w g t c omch2 h0q :
  fst (__init__ dir z N H h ob n w) = Return g ->
  (2 <= N)%Z -> (1 <= H)%Z ->
  table_shape t (Z.to_nat N) (Z.to_nat H) c ->
  0.05 <= omch2 -> omch2 <= 0.3 ->
  (H = 1%Z \/ (0.6 <= h0q /\ h0q <= 0.8)) ->
  result_eq (_interpolate (set_data g (Some t)) omch2 h0q)
            (Return (bilinear_interpolation t (omch2_index N omch2) (h0_index H h0q))).
Proof.
  intros Hg HN HH Sh Lo Hi Hh.
  destruct (interpolate_on_init_grid dir z N H h ob n w g t omch2 h0q Hg HN HH)
    as (oi & hi & Eo & Eh & Ei).
  assert (Bo : 0 <= omch2_index N omch2 /\ omch2_index N omch2 <= inject_Z (N - 1)).
  { unfold omch2_index.
    setoid_replace (inject_Z (N - 1) * (omch2 - 0.05) / 0.25)
      with (inject_Z (N - 1) * ((omch2 - 0.05) * 4)) by field.
    apply index_in_grid; try lra.
    change 0 with (inject_Z 0). rewrite <- Zle_Qle. lia. }
  assert (Bh : 0 <= h0_index H h0q /\ h0_index H h0q <= inject_Z (H - 1)).
  { unfold h0_index. destruct (Z.eqb_spec H 1) as [->|H1].
    - split; [lra|]. vm_compute. discriminate.
    - destruct Hh as [?|[Hl Hu]]; [contradiction|].
      setoid_replace (inject_Z (H - 1) * (h0q - 0.6) / 0.2)
        with (inject_Z (H - 1) * ((h0q - 0.6) * 5)) by field.
      apply index_in_grid; try lra.
      change 0 with (inject_Z 0). rewrite <- Zle_Qle. lia. }
  assert (Fo : (0 <= Qfloor (omch2_index N omch2))%Z).
  { rewrite <- (Qfloor_Z 0). apply Qfloor_resp_le. apply Bo. }
  assert (Fh : (0 <= Qfloor (h0_index H h0q))%Z).
  { rewrite <- (Qfloor_Z 0). apply Qfloor_resp_le. apply Bh. }
  rewrite Ei. eapply result_eq_trans.
  - apply (interp_at_in_range t N H c); try exact Sh.
    + rewrite (Qfloor_eq _ _ Eo). lia.
    + rewrite (Qceiling_eq _ _ Eo), <- (Qceiling_Z (N - 1)).
      apply Qceiling_resp_le. apply Bo.
    + rewrite (Qfloor_eq _ _ Eh). lia.
    + rewrite (Qceiling_eq _ _ Eh), <- (Qceiling_Z (H - 1)).
      apply Qceiling_resp_le. apply Bh.
    + intros ->. rewrite Eh. reflexivity.
  - cbn [result_eq]. eapply row_eq_trans.
    + apply bilinear_comp; eassumption.
    + now apply bilinear_in_table.
Qed.

(** C2, as the program has it.  [get_data(om)] with [h0] left unset is
    [get_data(om, self.h0)].  On a loaded generator whose table rows have
    the [1 + 3 k_num] channels [_generate_data] lays out, [get_data(om, h0)]
    interpolates at [omch2 = (om - omega_b) * h0 * h0]; when the
    interpolation gives a row it returns the row's channel 0 as the sound
    horizon, its next [k_num] channels as the linear spectrum and its last
    [k_num] channels as the nonlinear one, and when the interpolation
    raises, so does [get_data], with the same exception.  On a generator
    built by [__init__] with at least two omch2 samples, the interpolation
    at an omch2 from 0.05 to 0.3 (and, on an H0 grid of several samples, an
    h0 from 0.6 to below 0.8, where no rounding of the index can pass the
    table) gives a row, and that row is the bilinear interpolation of the
    table at the query's fractional indices. *)
Theorem get_data_result camb self w om :
  get_data camb om None (self, w) = get_data camb om (Some (Camb.h0 self)) (self, w) /\
  (forall h0q t a b K,
     data self = Some t ->
     k_num self = Z.of_nat K ->
     table_shape t a b (S (3 * K)) ->
     match _interpolate self ((om - omega_b self) * h0q * h0q) h0q with
     | Raise e => get_data camb om (Some h0q) (self, w) = (Raise e, (self, w))
     | Return row =>
       exists sound_horizon pk_linear middle pk_nonlinear,
         get_data camb om (Some h0q) (self, w) =
           (Return (sound_horizon, pk_linear, pk_nonlinear), (self, w)) /\
         row = (sound_horizon :: pk_linear ++ middle ++ pk_nonlinear)%list /\
         List.length pk_linear = K /\ List.length middle = K /\
         List.length pk_nonlinear = K
     end) /\
  (forall dir z N H h ob n w0 g t c omch2 h0q,
     fst (__init__ dir z N H h ob n w0) = Return g ->
     self = set_data g (Some t) ->
     (2 <= N)%Z -> (1 <= H)%Z ->
     table_shape t (Z.to_nat N) (Z.to_nat H) c ->
     0.05 <= omch2 -> omch2 <= 0.3 ->
     (H = 1%Z \/ (0.6 <= h0q /\ h0q < 0.8)) ->
     result_eq (_interpolate self omch2 h0q)
               (Return (bilinear_interpolation t (omch2_index N omch2)
                                               (h0_index H h0q)))).
Proof.
  split; [reflexivity|]. split.
  - intros h0q t a b K Hd Hk Sh.
    rewrite (get_data_loaded camb self w om _ t Hd). cbv zeta.
    destruct (_interpolate self ((om - omega_b self) * h0q * h0q) h0q)
      as [row|e] eqn:E; [|reflexivity].
    pose proof (interpolate_length _ _ _ _ _ _ _ _ Hd Sh E) as L.
    destruct (channels_split row K L) as (rs & lin & mid & nl & E0 & E1 & E2 & Er & Ls).
    exists rs, lin, mid, nl. rewrite E0, Hk, E1, E2. split; [reflexivity|].
    split; assumption.
  - intros dir z N H h ob n w0 g t c omch2 h0q Hg -> HN HH Sh Lo Hi Hh.
    apply (interpolate_in_grid dir z N H h ob n w0 g t c); try assumption.
    destruct Hh as [H1|[Hl Hu]]; [now left | right; split; lra].
Qed.

Lemma get_data_result_witness :
  exists sound_horizon pk_linear pk_nonlinear row,
    get_data Examples.toy_camb 0.31 (Some 0.676)
             (Examples.loaded_3x1, Examples.empty_world) =
      (Return (sound_horizon, pk_linear, pk_nonlinear),
       (Examples.loaded_3x1, Examples.empty_world)) /\
    List.length pk_linear = 2000%nat /\ List.length pk_nonlinear = 2000%nat /\
    nth 0 row 0 = sound_horizon /\
    row_eq row
           (bilinear_interpolation
              Examples.table_3x1
              (omch2_index 3 ((0.31 - omega_b Examples.loaded_3x1) * 0.676 * 0.676))
              (h0_index 1 0.676)).
Proof.
  assert (Hg : fst (__init__ "/barry/cosmology" 0.51 3 1 0.676 0.04814 0.97
                             Examples.empty_world) = Return (Examples.generator 3 1))
    by (vm_compute; reflexivity).
  assert (Sh : table_shapeb Examples.table_3x1 3 1 (S (3 * 2000)) = true)
    by (vm_compute; reflexivity).
  apply table_shapeb_sound in Sh.
  destruct (get_data_result Examples.toy_camb Examples.loaded_3x1
                            Examples.empty_world 0.31) as (_ & Split & Bilinear).
  specialize (Split 0.676 Examples.table_3x1 3%nat 1%nat 2000%nat eq_refl eq_refl Sh).
  assert (Lo : 0.05 <= (0.31 - omega_b Examples.loaded_3x1) * 0.676 * 0.676)
    by (apply Qle_bool_iff; vm_compute; reflexivity).
  assert (Hi : (0.31 - omega_b Examples.loaded_3x1) * 0.676 * 0.676 <= 0.3)
    by (apply Qle_bool_iff; vm_compute; reflexivity).
  specialize (Bilinear "/barry/cosmology"%string 0.51 3%Z 1%Z 0.676 0.04814 0.97
                       Examples.empty_world (Examples.generator 3 1)
                       Examples.table_3x1 (S (3 * 2000))
                       ((0.31 - omega_b Examples.loaded_3x1) * 0.676 * 0.676) 0.676
                       Hg eq_refl ltac:(lia) ltac:(lia) Sh Lo Hi (or_introl eq_refl)).
  destruct (_interpolate Examples.loaded_3x1
              ((0.31 - omega_b Examples.loaded_3x1) * 0.676 * 0.676) 0.676)
    as [row|e]; [|contradiction].
  destruct Split as (rs & lin & mid & nl & Eg & Er & Ll & _ & Ln).
  exists rs, lin, nl, row. split; [exact Eg|]. split; [exact Ll|]. split; [exact Ln|].
  split; [rewrite Er; reflexivity | exact Bilinear].
Defined.

(** C2 fails as stated: not every query returns a triple.  On the default
    grid of 101 samples, loaded with a table of its shape, the query
    [om = 0.75] (omch2 about 0.32, above the last sample 0.3) ends in
    [IndexError]. *)
Lemma get_data_above_grid_raises :
  table_shapeb (table_of (Examples.generated 101 1)) 101 1 (S (3 * 2000)) = true /\
  fst (get_data Examples.toy_camb 0.75 None (Examples.generated 101 1))
  = Raise IndexError.
Proof.
  split; vm_compute; reflexivity.
Qed.

(** ** The table a generator makes for itself *)

(** Generation on a generator built by [__init__] gives the table shape
    the query lemmas ask for: one row per omch2 sample, one cell per H0
    sample, [1 + 3 * 2000] channels per cell. *)
Lemma generated_table_shape camb dir z N H h ob n w0 g w :
  Vocabulary.solver_contract camb ->
  fst (__init__ dir z N H h ob n w0) = Return g ->
  path_exists (filename g) w = false ->
  exists t w',
    load_data camb true (g, w) = (Return tt, (set_data g (Some t), w')) /\
    table_shape t (Z.to_nat N) (Z.to_nat H) (S (3 * 2000)).
Proof.
  intros Ok Hg Miss.
  destruct (Fingerprint.init_inv _ _ _ _ _ _ _ _ _ Hg)
    as (_ & _ & _ & _ & _ & _ & Ek & _ & Lo & Lh).
  destruct (Lifecycle.generate_data_ok camb Ok g w) as (t & w' & E & _ & Sh).
  exists t, w'. split.
  - unfold load_data, mbind, gets, in_world, modify. cbn [fst snd].
    rewrite Miss. cbn [negb fst snd]. rewrite E. reflexivity.
  - apply linspace_inv in Lo. destruct Lo as (_ & LN & _).
    assert (LH : List.length (h0s g) = Z.to_nat H).
    { destruct (Z.eqb_spec H 1) as [->|H1].
      - injection Lh as <-. reflexivity.
      - apply linspace_inv in Lh. apply Lh. }
    rewrite LN, LH, Ek in Sh. exact Sh.
Qed.

(** ** Queries on a grid node *)

Lemma map_combine4_diag (f : Q * Q * Q * Q -> Q) (v : list Q) :
  (forall a, f (a, a, a, a) == a) ->
  row_eq (map f (combine (combine (combine v v) v) v)) v.
Proof.
  intros Hf. induction v as [|a v IH]; simpl; constructor; [apply Hf | exact IH].
Qed.

Lemma bilinear_on_node t N H oi hi i j :
  (0 <= i)%Z -> (0 <= j)%Z ->
  oi == inject_Z i -> hi == inject_Z j ->
  row_eq (bilinear t N H oi hi) (cell t i j).
Proof.
  intros Hi Hj Eo Eh. unfold bilinear.
  rewrite (Qfloor_eq _ _ Eo), (Qceiling_eq _ _ Eo),
          (Qfloor_eq _ _ Eh), (Qceiling_eq _ _ Eh).
  rewrite !Qfloor_Z, !Qceiling_Z.
  unfold wrap. destruct (Z.ltb_spec i 0); [lia|]. destruct (Z.ltb_spec j 0); [lia|].
  apply map_combine4_diag. intros a. rewrite Eo, Eh. ring.
Qed.

Lemma index_on_omch2_node N i gi :
  (2 <= N)%Z ->
  gi == 0.05 + inject_Z i * ((0.3 - 0.05) / inject_Z (N - 1)) ->
  omch2_index N gi == inject_Z i.
Proof.
  intros HN E. unfold omch2_index. rewrite E. field.
  intros Z0. assert (E' : inject_Z (N - 1) == inject_Z 0) by exact Z0.
  apply (proj1 (inject_Z_injective _ _)) in E'. lia.
Qed.

Lemma index_on_h0_node H j hj :
  (2 <= H)%Z ->
  hj == 0.6 + inject_Z j * ((0.8 - 0.6) / inject_Z (H - 1)) ->
  h0_index H hj == inject_Z j.
Proof.
  intros HH E. unfold h0_index. destruct (Z.eqb_spec H 1); [lia|].
  rewrite E. field.
  intros Z0. assert (E' : inject_Z (H - 1) == inject_Z 0) by exact Z0.
  apply (proj1 (inject_Z_injective _ _)) in E'. lia.
Qed.

Lemma omch2_index_comp N o o' : o == o' -> omch2_index N o == omch2_index N o'.
Proof. intros E. unfold omch2_index. now rewrite E. Qed.

Lemma h0_index_comp H q q' : q == q' -> h0_index H q == h0_index H q'.
Proof.
  intros E. unfold h0_index. destruct (H =? 1)%Z; [reflexivity|]. now rewrite E.
Qed.

(** C6, as the program has it.  On a generator built by [__init__],
    loaded with a table of its own shape, a query whose
    [omch2 = (om - omega_b) * h0 * h0] is the [i]-th omch2 sample, and
    whose [h0] is the [j]-th H0 sample when there are several ([j = 0]
    when there is one), neither of them the last sample of its axis,
    returns, entry by entry, channel 0 and the two channel runs of the
    stored cell [data[i][j]].  The equalities are exact in rational
    arithmetic, which is what the tolerance of the floating-point program
    idealises to.  The last sample of an axis is left out: there the
    program's rounded index, or its rounded [omch2], can pass the end of
    the table (module [Rounding]). *)
Theorem get_data_on_grid_node camb dir z N H h ob n w0 g t w om h0q i j gi :
  fst (__init__ dir z N H h ob n w0) = Return g ->
  (2 <= N)%Z -> (1 <= H)%Z ->
  table_shape t (Z.to_nat N) (Z.to_nat H) (S (3 * 2000)) ->
  (0 <= i)%Z -> (i + 1 < N)%Z -> (0 <= j < H)%Z ->
  getitem (omch2s g) i = Return gi ->
  (om - ob) * h0q * h0q == gi ->
  (H = 1%Z \/
   ((j + 1 < H)%Z /\ exists hj, getitem (h0s g) j = Return hj /\ h0q == hj)) ->
  exists sound_horizon pk_linear pk_nonlinear,
    get_data camb om (Some h0q) (set_data g (Some t), w) =
      (Return (sound_horizon, pk_linear, pk_nonlinear), (set_data g (Some t), w)) /\
    sound_horizon == nth 0 (cell t i j) 0 /\
    row_eq pk_linear (slice (cell t i j) 1 (Some 2001%Z)) /\
    row_eq pk_nonlinear (slice (cell t i j) 4001%Z None).
Proof.
  intros Hg HN HH Sh Hi0 Hi1 Hj Egi Eom Hnode.
  assert (Hi : (0 <= i < N)%Z) by lia.
  destruct (Fingerprint.init_inv _ _ _ _ _ _ _ _ _ Hg)
    as (_ & _ & _ & _ & _ & Eob & Ek & _ & Lo & Lh).
  destruct (interpolate_on_init_grid dir z N H h ob n w0 g t
              ((om - ob) * h0q * h0q) h0q Hg HN HH) as (oi & hi & Eo & Eh & Ei).
  (* the fractional indices are the node's integer indices *)
  assert (Eoi : oi == inject_Z i).
  { rewrite Eo, (omch2_index_comp _ _ _ Eom).
    apply index_on_omch2_node; [exact HN|].
    apply linspace_inv in Lo. destruct Lo as (_ & _ & Lk & _).
    destruct (Lk i Hi) as (v & Ev & [Qv|[? _]]); [|lia].
    rewrite Egi in Ev. injection Ev as <-. exact Qv. }
  assert (Ehi : hi == inject_Z j).
  { rewrite Eh. destruct Hnode as [->|(_ & hj & Ehj & Qh)].
    - assert (j = 0%Z) by lia. subst j. reflexivity.
    - destruct (Z.eq_dec H 1) as [->|H1].
      + assert (j = 0%Z) by lia. subst j. reflexivity.
      + rewrite (h0_index_comp _ _ _ Qh).
        apply index_on_h0_node; [lia|].
        destruct (Z.eqb_spec H 1); [contradiction|].
        apply linspace_inv in Lh. destruct Lh as (_ & _ & Lk & _).
        destruct (Lk j Hj) as (v & Ev & [Qv|[? _]]); [|lia].
        rewrite Ehj in Ev. injection Ev as <-. exact Qv. }
  (* so the blend is the stored cell *)
  assert (R : result_eq (interp_at H t oi hi) (Return (cell t i j))).
  { eapply result_eq_trans.
    - apply (interp_at_in_range t N H (S (3 * 2000))); try exact Sh.
      + rewrite (Qfloor_eq _ _ Eoi), Qfloor_Z. lia.
      + rewrite (Qceiling_eq _ _ Eoi), Qceiling_Z. lia.
      + rewrite (Qfloor_eq _ _ Ehi), Qfloor_Z. lia.
      + rewrite (Qceiling_eq _ _ Ehi), Qceiling_Z. lia.
      + intros ->. rewrite Ehi. assert (j = 0%Z) by lia. subst j. reflexivity.
    - cbn [result_eq]. apply bilinear_on_node; try assumption; lia. }
  rewrite <- Ei in R.
  rewrite (get_data_loaded camb (set_data g (Some t)) w om (Some h0q) t eq_refl).
  cbv zeta. cbn [set_data omega_b k_num]. rewrite Eob, Ek.
  destruct (_interpolate (set_data g (Some t)) ((om - ob) * h0q * h0q) h0q)
    as [row|e]; [|contradiction].
  cbn [result_eq] in R.
  assert (Lc : List.length (cell t i j) = S (3 * 2000)).
  { destruct (subscript2_in_range t N H (S (3 * 2000)) i j Sh) as [_ L]; try lia.
    revert L. unfold wrap.
    destruct (Z.ltb_spec i 0); [lia|]. destruct (Z.ltb_spec j 0); [lia|]. trivial. }
  destruct R as [|rs c0 row' cell' Ers Erest]; [discriminate Lc|].
  exists rs, (slice (rs :: row') 1 (Some 2001%Z)), (slice (rs :: row') 4001%Z None).
  split; [reflexivity|]. split; [exact Ers|].
  split; apply row_eq_slice; constructor; assumption.
Qed.

Lemma get_data_on_grid_node_witness :
  exists sound_horizon pk_linear pk_nonlinear,
    get_data Examples.toy_camb 0.22314 (Some 1)
             (Examples.loaded_3x1, Examples.empty_world) =
      (Return (sound_horizon, pk_linear, pk_nonlinear),
       (Examples.loaded_3x1, Examples.empty_world)) /\
    sound_horizon == nth 0 (cell Examples.table_3x1 1 0) 0 /\
    row_eq pk_linear (slice (cell Examples.table_3x1 1 0) 1 (Some 2001%Z)) /\
    row_eq pk_nonlinear (slice (cell Examples.table_3x1 1 0) 4001%Z None).
Proof.
  eapply (get_data_on_grid_node Examples.toy_camb
            "/barry/cosmology" 0.51 3 1 0.676 0.04814 0.97 Examples.empty_world
            (Examples.generator 3 1) Examples.table_3x1 Examples.empty_world
            0.22314 1 1 0).
  - vm_compute. reflexivity.
  - lia.
  - lia.
  - apply table_shapeb_sound. vm_compute. reflexivity.
  - lia.
  - lia.
  - lia.
  - vm_compute. reflexivity.
  - vm_compute. reflexivity.
  - left. reflexivity.
Defined.

(** C6 fails as stated: a generator with a single omch2 sample loads its
    table, but its index computation divides zero by zero, so even the
    query that sits on its one node (omch2 = 0.05) raises [ValueError]. *)
Lemma get_data_single_sample_grid_raises :
  match getitem (omch2s (fst Examples.gen_1x1)) 0 with
  | Return g0 => (0.09814 - omega_b (fst Examples.gen_1x1)) * 1 * 1 == g0
  | Raise _ => False
  end /\
  match data (fst Examples.gen_1x1) with
  | Some t => table_shapeb t 1 1 (S (3 * 2000)) = true
  | None => False
  end /\
  fst (get_data Examples.toy_camb 0.09814 (Some 1) Examples.gen_1x1)
  = Raise (ValueError "cannot convert float NaN to integer").
Proof.
  split; [vm_compute; reflexivity|]. split; vm_compute; reflexivity.
Qed.

End Query.

(* ===================================================================== *)
(** * Properties of model construction *)
(* ===================================================================== *)

Module Construction.

Import Camb Models.

Section Rejection.

Variables B P F : Type.
Variable Model__init__ : string -> option string -> M P B.
Variable validate_smooth_method : string -> P -> bool * P.
Variable add_param : string -> string -> Q -> Q -> option Q -> B -> M P B.
Variable set_fix_params : list string -> B -> M P B.
Variable set_up_fitting : bool -> string -> B -> M P F.

(** C8, as the program has it.  When the validator does not recognise
    the smoothing method, both constructors of [CorrelationPolynomial] fail
    fast: they end in an exception and return no instance.  If the
    base-class constructor returned normally, that exception is the
    [SystemExit] of the [exit(0)] that follows the validation at once: no
    parameter is declared, and the process is left exactly as the
    validator left it, so the constructor itself raises no error of its
    own and logs nothing. *)
Theorem unrecognised_smooth_method_aborts
        (smooth_type name : string) (fix_params : list string) (smooth : bool)
        (correction : option string) (fit_omega_m : bool) :
  (forall p, fst (validate_smooth_method smooth_type p) = false) ->
  (forall p, exists e p',
      __init__ B P Model__init__ validate_smooth_method add_param set_fix_params
               smooth_type name fix_params smooth correction p = (Raise e, p') /\
      forall b p1, Model__init__ name correction p = (Return b, p1) ->
                   e = SystemExit 0 /\
                   p' = snd (validate_smooth_method smooth_type p1)) /\
  (forall p, exists e p',
      framework__init__ B P Model__init__ validate_smooth_method add_param
                        F set_up_fitting fit_omega_m smooth_type name p
      = (Raise e, p') /\
      forall b p1, Model__init__ name None p = (Return b, p1) ->
                   e = SystemExit 0 /\
                   p' = snd (validate_smooth_method smooth_type p1)).
Proof.
  intros Bad. split; intros p.
  - unfold __init__, mbind.
    destruct (Model__init__ name correction p) as [[b|e] p1].
    + specialize (Bad p1).
      destruct (validate_smooth_method smooth_type p1) as [ok p2] eqn:V.
      cbn [fst] in Bad. subst ok. cbn [negb]. unfold exit, raise.
      eexists. eexists. split; [reflexivity|].
      intros b' p1' [= <- <-]. rewrite V. split; reflexivity.
    + exists e, p1. split; [reflexivity|]. intros b p1' [=].
  - unfold framework__init__, mbind.
    destruct (Model__init__ name None p) as [[b|e] p1].
    + specialize (Bad p1).
      destruct (validate_smooth_method smooth_type p1) as [ok p2] eqn:V.
      cbn [fst] in Bad. subst ok. cbn [negb]. unfold exit, raise.
      eexists. eexists. split; [reflexivity|].
      intros b' p1' [= <- <-]. rewrite V. split; reflexivity.
    + exists e, p1. split; [reflexivity|]. intros b p1' [=].
Qed.

End Rejection.

Lemma unrecognised_smooth_method_aborts_witness :
  __init__ (list string) (list string) Examples.toy_Model__init__
           Examples.toy_validate_smooth_method Examples.toy_add_param
           Examples.toy_set_fix_params
           "wiggly" "BAO Correlation Polynomial Fit" ["om"%string] false None []
  = (Raise (SystemExit 0),
     ["Smoothing method is wiggly and not in list"%string]).
Proof.
  destruct (unrecognised_smooth_method_aborts
              (list string) (list string) (list string)
              Examples.toy_Model__init__ Examples.toy_validate_smooth_method
              Examples.toy_add_param Examples.toy_set_fix_params
              Examples.toy_set_up_fitting
              "wiggly" "BAO Correlation Polynomial Fit" ["om"%string] false None false
              (fun p => eq_refl)) as [Main _].
  destruct (Main []) as (e & p' & E & Exit).
  destruct (Exit [] [] eq_refl) as [-> ->]. exact E.
Defined.

(** C8 fails as stated: with the name "wiggly", which the validator
    rejects (and reports in the log), the constructor ends in
    [SystemExit(0)].  No error reaches the caller: the exit status is the
    one of success.  That does not depend on the stand-in validator:
    whatever a validator that rejects the name writes to the log, the
    outcome is [SystemExit(0)]. *)
Lemma unrecognised_smooth_method_exits_with_status_0 :
  (Examples.toy_validate_smooth_method "wiggly" []
   = (false, ["Smoothing method is wiggly and not in list"%string]) /\
   __init__ (list string) (list string) Examples.toy_Model__init__
            Examples.toy_validate_smooth_method Examples.toy_add_param
            Examples.toy_set_fix_params
            "wiggly" "BAO Correlation Polynomial Fit" ["om"%string] false None []
   = (Raise (SystemExit 0),
      ["Smoothing method is wiggly and not in list"%string]) /\
   Vocabulary.propagates_error
     (fst (__init__ (list string) (list string) Examples.toy_Model__init__
                    Examples.toy_validate_smooth_method Examples.toy_add_param
                    Examples.toy_set_fix_params
                    "wiggly" "BAO Correlation Polynomial Fit" ["om"%string]
                    false None []))
   = false) /\
  (forall (validate : string -> list string -> bool * list string) log,
     fst (validate "wiggly"%string log) = false ->
     Vocabulary.propagates_error
       (fst (__init__ (list string) (list string) Examples.toy_Model__init__
                      validate Examples.toy_add_param Examples.toy_set_fix_params
                      "wiggly" "BAO Correlation Polynomial Fit" ["om"%string]
                      false None log))
     = false).
Proof.
  split; [split; [reflexivity | split; reflexivity]|].
  intros validate log Bad.
  unfold __init__, mbind, Examples.toy_Model__init__, ret.
  destruct (validate "wiggly"%string log) as [ok log'].
  cbn [fst] in Bad. subst ok. reflexivity.
Qed.

(** A recognised name goes through: the same constructor returns an
    instance with the three parameters declared. *)
Example recognised_smooth_method_constructs :
  match __init__ (list string) (list string) Examples.toy_Model__init__
                 Examples.toy_validate_smooth_method Examples.toy_add_param
                 Examples.toy_set_fix_params
                 "Hinton2017" "BAO Correlation Polynomial Fit" ["om"%string]
                 false None [] with
  | (Return m, log) =>
    base _ m = ["om"; "alpha"; "b"]%string /\ smooth_type _ m = "hinton2017"%string /\
    log = []
  | (Raise _, _) => False
  end.
Proof. vm_compute. repeat split. Qed.

End Construction.

(* ===================================================================== *)
(** * Properties of the power-to-correlation transform *)
(* ===================================================================== *)

Module Transform.

Import Pk2xi TransformVocabulary.
Import Lra.
Local Open Scope R_scope.

(** ** Sorting the samples *)

Lemma Rltb_true a b : Rltb a b = true <-> a < b.
Proof. unfold Rltb. destruct (Rlt_dec a b); split; auto; discriminate. Qed.

Lemma Rltb_false a b : Rltb a b = false <-> b <= a.
Proof.
  unfold Rltb. destruct (Rlt_dec a b); split; intros; try discriminate; try lra; auto.
Qed.

Lemma insert_by_x_map {A B} (f : A -> B) (p : R * A) l :
  insert_by_x (fst p, f (snd p)) (map (fun q => (fst q, f (snd q))) l) =
  map (fun q => (fst q, f (snd q))) (insert_by_x p l).
Proof.
  induction l as [|q l IH]; simpl; [reflexivity|].
  destruct (Rltb (fst q) (fst p)); simpl; [now rewrite IH | reflexivity].
Qed.

(** Sorting by abscissa commutes with any change of the ordinates. *)
Lemma sort_by_x_map {A B} (f : A -> B) (l : list (R * A)) :
  sort_by_x (map (fun q => (fst q, f (snd q))) l) =
  map (fun q => (fst q, f (snd q))) (sort_by_x l).
Proof.
  induction l as [|p l IH]; simpl; [reflexivity|].
  rewrite IH. apply insert_by_x_map.
Qed.

Lemma in_insert_by_x {A} (p q : R * A) l :
  In q (insert_by_x p l) <-> q = p \/ In q l.
Proof.
  induction l as [|r l IH]; simpl.
  - intuition.
  - destruct (Rltb (fst r) (fst p)); simpl; rewrite ?IH; intuition.
Qed.

Lemma in_sort_by_x {A} (q : R * A) l : In q (sort_by_x l) <-> In q l.
Proof.
  induction l as [|p l IH]; simpl; [reflexivity|].
  rewrite in_insert_by_x, IH. intuition.
Qed.

Lemma length_insert_by_x {A} (p : R * A) l :
  List.length (insert_by_x p l) = S (List.length l).
Proof.
  induction l as [|r l IH]; simpl; [reflexivity|].
  destruct (Rltb (fst r) (fst p)); simpl; [now rewrite IH | reflexivity].
Qed.

Lemma length_sort_by_x {A} (l : list (R * A)) :
  List.length (sort_by_x l) = List.length l.
Proof.
  induction l as [|p l IH]; simpl; [reflexivity|].
  now rewrite length_insert_by_x, IH.
Qed.

Lemma insert_keys_from {A} a (p : R * A) l :
  a <= fst p -> keys_from a l -> keys_from a (insert_by_x p l).
Proof.
  intros Hp Hl. apply Forall_forall. intros q Hq.
  apply in_insert_by_x in Hq as [->|Hq]; [assumption|].
  unfold keys_from in Hl. rewrite Forall_forall in Hl. now apply Hl.
Qed.

Lemma insert_ascending {A} (p : R * A) l :
  ascending l -> ascending (insert_by_x p l).
Proof.
  induction 1 as [|q l Hq Hl IH]; simpl.
  - constructor; constructor.
  - destruct (Rltb (fst q) (fst p)) eqn:E.
    + apply Rltb_true in E. constructor; [|assumption].
      apply insert_keys_from; [lra | assumption].
    + apply Rltb_false in E. constructor; [|now constructor].
      constructor; [assumption|].
      unfold keys_from in *. rewrite Forall_forall in *.
      intros r Hr. specialize (Hq r Hr). lra.
Qed.

Lemma sort_ascending {A} (l : list (R * A)) : ascending (sort_by_x l).
Proof.
  induction l as [|p l IH]; simpl; [constructor | now apply insert_ascending].
Qed.

Lemma ascending_hd_least {A} (l : list (R * A)) d q :
  ascending l -> In q l -> fst (hd d l) <= fst q.
Proof.
  intros [|p l' Hp _]; [contradiction|]. simpl. intros [->|Hq]; [lra|].
  unfold keys_from in Hp. rewrite Forall_forall in Hp. now apply Hp.
Qed.

Lemma ascending_last_greatest {A} (l : list (R * A)) d q :
  ascending l -> In q l -> fst q <= fst (last l d).
Proof.
  induction 1 as [|p l Hp Hl IH]; [contradiction|].
  intros [->|Hq].
  - destruct l as [|r l]; [simpl; lra|].
    change (last (q :: r :: l) d) with (last (r :: l) d).
    unfold keys_from in Hp. rewrite Forall_forall in Hp.
    apply Hp. destruct (@exists_last _ (r :: l)) as (l0 & z & E); [discriminate|].
    rewrite E, last_last. apply in_or_app. right. now left.
  - destruct l as [|r l]; [contradiction|].
    change (last (p :: r :: l) d) with (last (r :: l) d). now apply IH.
Qed.

(** ** Minimum and maximum *)

Lemma fold_min_spec l a :
  (fold_left Rmin l a = a \/ In (fold_left Rmin l a) l) /\
  fold_left Rmin l a <= a /\
  (forall b, In b l -> fold_left Rmin l a <= b).
Proof.
  revert a. induction l as [|b l IH]; intros a; simpl.
  - split; [now left|]. split; [lra | contradiction].
  - destruct (IH (Rmin a b)) as (Hin & Hle & Hall).
    assert (Ha : Rmin a b <= a) by apply Rmin_l.
    assert (Hb : Rmin a b <= b) by apply Rmin_r.
    split; [|split].
    + destruct Hin as [E|Hin]; [|now right; right].
      rewrite E. unfold Rmin. destruct (Rle_dec a b); [now left | right; now left].
    + lra.
    + intros c [<-|Hc]; [lra | now apply Hall].
Qed.

Lemma fold_max_spec l a :
  (fold_left Rmax l a = a \/ In (fold_left Rmax l a) l) /\
  a <= fold_left Rmax l a /\
  (forall b, In b l -> b <= fold_left Rmax l a).
Proof.
  revert a. induction l as [|b l IH]; intros a; simpl.
  - split; [now left|]. split; [lra | contradiction].
  - destruct (IH (Rmax a b)) as (Hin & Hle & Hall).
    assert (Ha : a <= Rmax a b) by apply Rmax_l.
    assert (Hb : b <= Rmax a b) by apply Rmax_r.
    split; [|split].
    + destruct Hin as [E|Hin]; [|now right; right].
      rewrite E. unfold Rmax. destruct (Rle_dec a b); [right; now left | now left].
    + lra.
    + intros c [<-|Hc]; [lra | now apply Hall].
Qed.

Lemma np_min_spec l m :
  np_min l = Return m -> In m l /\ forall b, In b l -> m <= b.
Proof.
  destruct l as [|a l]; [discriminate|]. intros [= <-].
  destruct (fold_min_spec l a) as (Hin & Hle & Hall). split.
  - destruct Hin as [->|Hin]; [now left | now right].
  - intros b [<-|Hb]; [assumption | now apply Hall].
Qed.

Lemma np_max_spec l m :
  np_max l = Return m -> In m l /\ forall b, In b l -> b <= m.
Proof.
  destruct l as [|a l]; [discriminate|]. intros [= <-].
  destruct (fold_max_spec l a) as (Hin & Hle & Hall). split.
  - destruct Hin as [->|Hin]; [now left | now right].
  - intros b [<-|Hb]; [assumption | now apply Hall].
Qed.

(** ** The bounds check of [interp1d] *)

Lemma sorted_keys_in (x y : list R) a :
  In a (map fst (sort_by_x (combine x y))) -> In a x.
Proof.
  intros H. apply in_map_iff in H as ([a' b] & <- & H).
  apply (proj1 (in_sort_by_x _ _)) in H. simpl. eapply in_combine_l; eassumption.
Qed.

Lemma in_sorted_keys (x y : list R) a :
  List.length x = List.length y -> In a x ->
  In a (map fst (sort_by_x (combine x y))).
Proof.
  intros L Ha. apply in_map_iff.
  assert (E : exists b, In (a, b) (combine x y)).
  { revert y L. induction x as [|c x IH]; intros [|d y] L; simpl in *;
      try contradiction; try discriminate.
    destruct Ha as [->|Ha]; [exists d; now left|].
    destruct (IH Ha y) as (b & Hb); [now injection L|]. exists b. now right. }
  destruct E as (b & Hb). exists (a, b). split; [reflexivity|].
  now apply (proj2 (in_sort_by_x _ _)).
Qed.

Lemma hd_in {A} (l : list A) d : l <> [] -> In (hd d l) l.
Proof. destruct l; [contradiction | intros _; now left]. Qed.

Lemma last_in {A} (l : list A) d : l <> [] -> In (last l d) l.
Proof.
  intros H. destruct (@exists_last _ l H) as (l0 & z & ->).
  rewrite last_last. apply in_or_app. right. now left.
Qed.

Lemma sorted_keys_nonempty (x y : list R) :
  List.length x = List.length y -> (2 <= List.length x)%nat ->
  map fst (sort_by_x (combine x y)) <> [].
Proof.
  intros L L2 E. apply (f_equal (@List.length R)) in E.
  rewrite length_map, length_sort_by_x, length_combine, <- L, Nat.min_id in E.
  simpl in E. lia.
Qed.

(** A new abscissa under every sample, or over every sample, makes
    [interp1d] raise. *)
Lemma interp1d_out_of_bounds x y x_new v :
  In v x_new ->
  (forall a, In a x -> v < a) \/ (forall a, In a x -> a < v) ->
  exists msg, interp1d x y x_new = Raise (ValueError msg).
Proof.
  intros Hv Hout. unfold interp1d.
  destruct (Nat.eqb_spec (List.length x) (List.length y)) as [L|L];
    cbn [negb]; [|eexists; reflexivity].
  destruct (Nat.ltb_spec (List.length x) 2) as [L2|L2]; [eexists; reflexivity|].
  set (xs := map fst (sort_by_x (combine x y))).
  assert (Ne : xs <> []) by now apply sorted_keys_nonempty.
  destruct (existsb (fun v0 => Rltb v0 (hd 0 xs)) x_new) eqn:Eb; [eexists; reflexivity|].
  destruct (existsb (fun v0 => Rltb (last xs 0) v0) x_new) eqn:Ea; [eexists; reflexivity|].
  exfalso.
  assert (Hb : Rltb v (hd 0 xs) = false).
  { destruct (Rltb v (hd 0 xs)) eqn:E; [|reflexivity].
    rewrite <- Eb. symmetry. apply existsb_exists. now exists v. }
  assert (Ha : Rltb (last xs 0) v = false).
  { destruct (Rltb (last xs 0) v) eqn:E; [|reflexivity].
    rewrite <- Ea. symmetry. apply existsb_exists. now exists v. }
  apply Rltb_false in Hb, Ha.
  destruct Hout as [Hlow|Hhigh].
  - specialize (Hlow (hd 0 xs) (sorted_keys_in x y _ (hd_in xs 0 Ne))). lra.
  - specialize (Hhigh (last xs 0) (sorted_keys_in x y _ (last_in xs 0 Ne))). lra.
Qed.

(** C9: the interpolation onto the dense grid is bounds-checked.  When the
    smallest input wavenumber lies above the smallest dense one, or the
    largest input wavenumber below the largest dense one, [__call__] raises
    a [ValueError] and returns nothing. *)
Theorem call_checks_bounds self ks pks ss dense_min dense_max :
  np_min (ks2 self) = Return dense_min ->
  np_max (ks2 self) = Return dense_max ->
  (exists m, np_min ks = Return m /\ dense_min < m) \/
  (exists m, np_max ks = Return m /\ m < dense_max) ->
  exists msg, __call__ self ks pks ss = Raise (ValueError msg).
Proof.
  intros Hmin Hmax Hout.
  apply np_min_spec in Hmin as [Imin _]. apply np_max_spec in Hmax as [Imax _].
  assert (E : exists msg, interp1d ks pks (ks2 self) = Raise (ValueError msg)).
  { destruct Hout as [(m & Hm & Lt)|(m & Hm & Lt)].
    - apply np_min_spec in Hm as [_ Hall].
      apply (interp1d_out_of_bounds ks pks _ dense_min Imin). left.
      intros a Ha. specialize (Hall a Ha). lra.
    - apply np_max_spec in Hm as [_ Hall].
      apply (interp1d_out_of_bounds ks pks _ dense_max Imax). right.
      intros a Ha. specialize (Hall a Ha). lra. }
  destruct E as (msg & E). exists msg. unfold __call__. rewrite E. reflexivity.
Qed.

(** ** Linearity of the interpolation in the ordinates *)

Lemma combine_map_r {A B} (f : A -> B) (x : list R) (y : list A) :
  combine x (map f y) = map (fun q => (fst q, f (snd q))) (combine x y).
Proof.
  revert y. induction x as [|a x IH]; intros [|b y]; simpl; try reflexivity.
  now rewrite IH.
Qed.

Lemma map_fst_combine {A B} (l : list A) (m : list B) :
  List.length l = List.length m -> map fst (combine l m) = l.
Proof.
  revert m. induction l as [|a l IH]; intros [|b m] E; simpl in *;
    try reflexivity; try discriminate.
  f_equal. apply IH. now injection E.
Qed.

Lemma map_snd_combine {A B} (l : list A) (m : list B) :
  List.length l = List.length m -> map snd (combine l m) = m.
Proof.
  revert m. induction l as [|a l IH]; intros [|b m] E; simpl in *;
    try reflexivity; try discriminate.
  f_equal. apply IH. now injection E.
Qed.

Lemma nth_map_zero {A} (f : A -> R) (l : list A) (n : nat) (d : A) :
  f d = 0 -> nth n (map f l) 0 = f (nth n l d).
Proof. intros <-. apply map_nth. Qed.

Lemma through_scale {A} (f : A -> R) (d : A) c s v :
  f d = 0 ->
  through (fun a => c * f a) s v = c * through f s v.
Proof.
  intros Hd. unfold through, call_linear. rewrite !length_map.
  set (lo := (Nat.min (Nat.max (searchsorted (map fst s) v) 1) (List.length s - 1) - 1)%nat).
  set (hi := Nat.min (Nat.max (searchsorted (map fst s) v) 1) (List.length s - 1)).
  rewrite !(nth_map_zero (fun q => c * f (snd q)) s _ (0, d)) by (simpl; rewrite Hd; ring).
  rewrite !(nth_map_zero (fun q => f (snd q)) s _ (0, d)) by (simpl; exact Hd).
  unfold Rdiv. ring.
Qed.

Lemma through_add {A} (f g : A -> R) (d : A) s v :
  f d = 0 -> g d = 0 ->
  through (fun a => f a + g a) s v = through f s v + through g s v.
Proof.
  intros Hf Hg. unfold through, call_linear. rewrite !length_map.
  set (lo := (Nat.min (Nat.max (searchsorted (map fst s) v) 1) (List.length s - 1) - 1)%nat).
  set (hi := Nat.min (Nat.max (searchsorted (map fst s) v) 1) (List.length s - 1)).
  rewrite !(nth_map_zero (fun q => f (snd q) + g (snd q)) s _ (0, d))
    by (simpl; rewrite Hf, Hg; ring).
  rewrite !(nth_map_zero (fun q => f (snd q)) s _ (0, d)) by (simpl; exact Hf).
  rewrite !(nth_map_zero (fun q => g (snd q)) s _ (0, d)) by (simpl; exact Hg).
  unfold Rdiv. ring.
Qed.

(** [interp1d] on samples whose ordinates are [f] of some payload: the
    checks only look at the abscissae, the values are [through f]. *)
Lemma interp1d_payload {A} (f : A -> R) (x : list R) (y : list A) x_new :
  interp1d x (map f y) x_new =
  if negb (List.length x =? List.length y)%nat then
    Raise (ValueError "x and y arrays must be equal in length along interpolation axis.")
  else if (List.length x <? 2)%nat then
    Raise (ValueError "x and y arrays must have at least 2 entries")
  else
    let s := sort_by_x (combine x y) in
    if existsb (fun v => Rltb v (hd 0 (map fst s))) x_new then
      Raise (ValueError "A value in x_new is below the interpolation range.")
    else if existsb (fun v => Rltb (last (map fst s) 0) v) x_new then
      Raise (ValueError "A value in x_new is above the interpolation range.")
    else Return (map (through f s) x_new).
Proof.
  unfold interp1d, through. rewrite length_map.
  rewrite combine_map_r, sort_by_x_map, !map_map. cbn [fst snd]. reflexivity.
Qed.

Lemma map_id_payload (y : list R) : map (fun a => a) y = y.
Proof. apply map_id. Qed.

Lemma interp1d_scale x y x_new c :
  interp1d x (scale c y) x_new = result_map (scale c) (interp1d x y x_new).
Proof.
  unfold scale. rewrite <- (map_id_payload y) at 2.
  rewrite !interp1d_payload.
  destruct (negb _); [reflexivity|]. destruct (_ <? _)%nat; [reflexivity|]. cbv zeta.
  destruct (existsb _ _); [reflexivity|]. destruct (existsb _ _); [reflexivity|].
  cbn [result_map]. f_equal. rewrite map_map. apply map_ext. intros v.
  change (Rmult c) with (fun a => c * (fun b : R => b) a).
  apply (through_scale (fun b : R => b) 0). reflexivity.
Qed.

Lemma add_map_same {A} (f g : A -> R) (l : list A) :
  add (map f l) (map g l) = map (fun v => f v + g v) l.
Proof. unfold add. induction l; simpl; [reflexivity | now f_equal]. Qed.

Lemma interp1d_add x y1 y2 x_new :
  List.length y1 = List.length y2 ->
  interp1d x (add y1 y2) x_new =
  result_map2 add (interp1d x y1 x_new) (interp1d x y2 x_new).
Proof.
  intros L. unfold add at 1.
  rewrite <- (map_fst_combine y1 y2 L) at 2.
  rewrite <- (map_snd_combine y1 y2 L) at 3.
  rewrite !interp1d_payload.
  destruct (negb _); [reflexivity|]. destruct (_ <? _)%nat; [reflexivity|]. cbv zeta.
  destruct (existsb _ _); [reflexivity|]. destruct (existsb _ _); [reflexivity|].
  cbn [result_map2]. f_equal. rewrite add_map_same. apply map_ext. intros v.
  apply (through_add fst snd (0, 0)); reflexivity.
Qed.

(** ** The quadrature *)

(** [trapz] is the trapezoid rule in its abscissa. *)
Lemma trapz_trapezoid y x : trapz y x = trapezoid x y.
Proof.
  unfold trapz. revert y.
  induction x as [|x0 x IH]; intros y; [reflexivity|].
  destruct x as [|x1 x]; [destruct y; reflexivity|].
  destruct y as [|y0 [|y1 y]]; try reflexivity.
  specialize (IH (y1 :: y)).
  change (trapezoid (x0 :: x1 :: x) (y0 :: y1 :: y))
    with ((x1 - x0) * (y1 + y0) / 2 + trapezoid (x1 :: x) (y1 :: y)).
  rewrite <- IH. reflexivity.
Qed.

Lemma trapezoid_scale c x y :
  trapezoid x (scale c y) = c * trapezoid x y.
Proof.
  revert y. induction x as [|x0 x IH]; intros y; [simpl; ring|].
  destruct x as [|x1 x]; [destruct y; simpl; ring|].
  destruct y as [|y0 [|y1 y]]; try (simpl; ring).
  specialize (IH (y1 :: y)).
  change (scale c (y0 :: y1 :: y)) with (c * y0 :: scale c (y1 :: y)).
  change (scale c (y1 :: y)) with (c * y1 :: scale c y) in *.
  change (trapezoid (x0 :: x1 :: x) (c * y0 :: c * y1 :: scale c y))
    with ((x1 - x0) * (c * y1 + c * y0) / 2
          + trapezoid (x1 :: x) (c * y1 :: scale c y)).
  rewrite IH.
  change (trapezoid (x0 :: x1 :: x) (y0 :: y1 :: y))
    with ((x1 - x0) * (y1 + y0) / 2 + trapezoid (x1 :: x) (y1 :: y)).
  unfold Rdiv. ring.
Qed.

Lemma trapezoid_add x y z :
  List.length y = List.length z ->
  trapezoid x (add y z) = trapezoid x y + trapezoid x z.
Proof.
  revert y z. induction x as [|x0 x IH]; intros y z L; [simpl; ring|].
  destruct x as [|x1 x]; [destruct y, z; simpl; ring|].
  destruct y as [|y0 [|y1 y]], z as [|z0 [|z1 z]]; try discriminate L;
    try (simpl; ring).
  specialize (IH (y1 :: y) (z1 :: z) ltac:(simpl in *; lia)).
  change (add (y0 :: y1 :: y) (z0 :: z1 :: z))
    with (y0 + z0 :: add (y1 :: y) (z1 :: z)).
  change (add (y1 :: y) (z1 :: z)) with (y1 + z1 :: add y z) in *.
  change (trapezoid (x0 :: x1 :: x) (y0 + z0 :: y1 + z1 :: add y z))
    with ((x1 - x0) * (y1 + z1 + (y0 + z0)) / 2
          + trapezoid (x1 :: x) (y1 + z1 :: add y z)).
  rewrite IH.
  change (trapezoid (x0 :: x1 :: x) (y0 :: y1 :: y))
    with ((x1 - x0) * (y1 + y0) / 2 + trapezoid (x1 :: x) (y1 :: y)).
  change (trapezoid (x0 :: x1 :: x) (z0 :: z1 :: z))
    with ((x1 - x0) * (z1 + z0) / 2 + trapezoid (x1 :: x) (z1 :: z)).
  unfold Rdiv. ring.
Qed.

Lemma integrand_scale self c p s :
  integrand self (scale c p) s = scale c (integrand self p s).
Proof.
  unfold integrand, mul, scale.
  generalize (precomp self) (ks2 self). intros pre. revert p.
  induction pre as [|a pre IH]; intros [|b p] [|k ks]; simpl; try reflexivity.
  f_equal; [unfold Rdiv; ring | apply IH].
Qed.

Lemma integrand_add self p q s :
  List.length p = List.length q ->
  integrand self (add p q) s = add (integrand self p s) (integrand self q s).
Proof.
  unfold integrand, mul, add.
  generalize (precomp self) (ks2 self). intros pre. revert p q.
  induction pre as [|a pre IH]; intros [|b p] [|c q] [|k ks] L; simpl;
    try reflexivity; try discriminate L.
  f_equal; [unfold Rdiv; ring | apply IH; now injection L].
Qed.

Lemma length_integrand self p q s :
  List.length p = List.length q ->
  List.length (integrand self p s) = List.length (integrand self q s).
Proof.
  intros L. unfold integrand, mul.
  rewrite !length_map, !length_combine, !length_map, !length_combine, L. reflexivity.
Qed.

Lemma call_unfold self ks pks ss :
  __call__ self ks pks ss =
  result_map (fun pks2 => map (fun s => trapezoid (ks2 self) (integrand self pks2 s)) ss)
             (interp1d ks pks (ks2 self)).
Proof.
  unfold __call__. destruct (interp1d ks pks (ks2 self)) as [pks2|e]; [|reflexivity].
  cbn [Py.bind result_map]. f_equal. apply map_ext. intros s.
  rewrite trapz_trapezoid. reflexivity.
Qed.

Lemma interp1d_length x y x_new p :
  interp1d x y x_new = Return p -> List.length p = List.length x_new.
Proof.
  unfold interp1d. destruct (negb _); [discriminate|].
  destruct (_ <? _)%nat; [discriminate|].
  destruct (existsb _ _); [discriminate|]. destruct (existsb _ _); [discriminate|].
  intros [= <-]. apply length_map.
Qed.

Lemma last_map_fst {A} (s : list (R * A)) (d : R * A) :
  last (map fst s) (fst d) = fst (last s d).
Proof.
  induction s as [|q s IH]; [reflexivity|].
  destruct s as [|r s]; [reflexivity|].
  change (last (map fst (q :: r :: s)) (fst d)) with (last (map fst (r :: s)) (fst d)).
  change (last (q :: r :: s) d) with (last (r :: s) d). exact IH.
Qed.

(** An input grid that covers the dense grid passes the bounds check. *)
Lemma interp1d_returns x y x_new :
  List.length x = List.length y -> (2 <= List.length x)%nat ->
  covers x x_new ->
  exists p, interp1d x y x_new = Return p.
Proof.
  intros L L2 Cov. unfold interp1d.
  destruct (Nat.eqb_spec (List.length x) (List.length y)); [|contradiction].
  destruct (Nat.ltb_spec (List.length x) 2); [lia|]. cbn [negb].
  set (s := sort_by_x (combine x y)).
  assert (Asc : ascending s) by apply sort_ascending.
  assert (Hhd : hd 0 (map fst s) = fst (hd (0, 0) s)) by (destruct s; reflexivity).
  assert (Hlast : last (map fst s) 0 = fst (last s (0, 0)))
    by apply (last_map_fst s (0, 0)).
  assert (Key : forall a, In a x -> exists q, In q s /\ fst q = a).
  { intros a Ha. apply (in_sorted_keys x y a L) in Ha.
    apply in_map_iff in Ha as (q & E & Hq). now exists q. }
  destruct (existsb (fun v => Rltb v (hd 0 (map fst s))) x_new) eqn:Eb.
  { exfalso. apply existsb_exists in Eb as (v & Hv & Lt). apply Rltb_true in Lt.
    destruct (Cov v Hv) as [(a & Ha & Le) _].
    destruct (Key a Ha) as (q & Hq & <-).
    pose proof (ascending_hd_least s (0, 0) q Asc Hq). rewrite Hhd in Lt. lra. }
  destruct (existsb (fun v => Rltb (last (map fst s) 0) v) x_new) eqn:Ea.
  { exfalso. apply existsb_exists in Ea as (v & Hv & Lt). apply Rltb_true in Lt.
    destruct (Cov v Hv) as [_ (b & Hb & Le)].
    destruct (Key b Hb) as (q & Hq & <-).
    pose proof (ascending_last_greatest s (0, 0) q Asc Hq). rewrite Hlast in Lt. lra. }
  eexists. reflexivity.
Qed.

(** C10: the transform is linear in the power spectrum.  For one instance,
    one input grid and one set of distances, scaling the spectrum scales
    the outcome and adding two spectra of one length adds the outcomes
    (an exception, which only the grids can cause, is the same on both
    sides); and when the input grid covers the dense grid the outcome is a
    correlation function with one value per distance. *)
Theorem call_linear_in_pk self ks pk1 pk2 c ss :
  __call__ self ks (scale c pk1) ss =
    result_map (scale c) (__call__ self ks pk1 ss) /\
  (List.length pk1 = List.length pk2 ->
   __call__ self ks (add pk1 pk2) ss =
     result_map2 add (__call__ self ks pk1 ss) (__call__ self ks pk2 ss)) /\
  (List.length ks = List.length pk1 -> (2 <= List.length ks)%nat ->
   covers ks (ks2 self) ->
   exists xi, __call__ self ks pk1 ss = Return xi /\
              List.length xi = List.length ss).
Proof.
  split; [|split].
  - rewrite !call_unfold, interp1d_scale.
    destruct (interp1d ks pk1 (ks2 self)) as [p|e]; [|reflexivity].
    cbn [result_map]. f_equal.
    transitivity (map (fun s => c * trapezoid (ks2 self) (integrand self p s)) ss).
    + apply map_ext. intros s. rewrite integrand_scale. apply trapezoid_scale.
    + unfold scale. now rewrite map_map.
  - intros L. rewrite !call_unfold, (interp1d_add _ _ _ _ L).
    destruct (interp1d ks pk1 (ks2 self)) as [p|e] eqn:E1;
      destruct (interp1d ks pk2 (ks2 self)) as [q|e'] eqn:E2; try reflexivity.
    cbn [result_map result_map2]. f_equal. rewrite add_map_same.
    apply map_ext. intros s.
    assert (Lpq : List.length p = List.length q).
    { apply interp1d_length in E1, E2. congruence. }
    rewrite (integrand_add _ _ _ _ Lpq). apply trapezoid_add.
    now apply length_integrand.
  - intros L L2 Cov. rewrite call_unfold.
    destruct (interp1d_returns ks pk1 (ks2 self) L L2 Cov) as (p & E).
    rewrite E. cbn [result_map]. eexists. split; [reflexivity|]. apply length_map.
Qed.

(** ** Construction: the dense grid and the kernel *)

Lemma linspace_spec start stop num l :
  linspace start stop num = Return l ->
  (0 <= num)%Z /\ List.length l = Z.to_nat num /\
  forall j, (j < List.length l)%nat ->
    nth j l 0 = start + INR j * ((stop - start) / (INR (List.length l) - 1)).
Proof.
  unfold linspace. destruct (Z.ltb_spec num 0); [discriminate|].
  intros [= <-]. split; [assumption|].
  rewrite length_map, length_seq. split; [reflexivity|].
  intros j Hj.
  set (f := fun i : nat =>
              if ((1 <? num)%Z && (Z.of_nat i =? num - 1)%Z)%bool then stop
              else IZR (Z.of_nat i) * ((stop - start) / IZR (num - 1)) + start).
  rewrite (nth_indep _ 0 (f 0%nat)) by (rewrite length_map, length_seq; exact Hj).
  rewrite map_nth, seq_nth by exact Hj. cbn [Nat.add]. unfold f.
  assert (En : INR (Z.to_nat num) = IZR num)
    by (rewrite INR_IZR_INZ, Z2Nat.id by assumption; reflexivity).
  rewrite En, minus_IZR, <- INR_IZR_INZ.
  destruct (Z.ltb_spec 1 num); cbn [andb].
  - destruct (Z.eqb_spec (Z.of_nat j) (num - 1)) as [E|E].
    + assert (Ej : INR j = IZR num - 1)
        by (rewrite INR_IZR_INZ, E, minus_IZR; reflexivity).
      rewrite Ej. field. apply Rgt_not_eq. apply Rlt_gt.
      apply Rlt_0_minus. now apply IZR_lt.
    + ring.
  - ring.
Qed.

Lemma last_as_nth {A} (l : list A) (d : A) :
  last l d = nth (List.length l - 1) l d.
Proof.
  induction l as [|a l IH]; [reflexivity|].
  destruct l as [|b l]; [reflexivity|].
  change (last (a :: b :: l) d) with (last (b :: l) d). rewrite IH.
  simpl. now rewrite Nat.sub_0_r.
Qed.

Lemma integrand_as_spec a dense pk s :
  map (fun p => fst p * sin (snd p * s) / s)
      (combine (mul (map (fun k => k * exp (- k * k * a * a) / (2 * PI * PI)) dense) pk)
               dense)
  = integrand_at a s dense pk.
Proof.
  unfold integrand_at, mul, kernel. revert pk.
  induction dense as [|k dense IH]; intros [|p pk]; simpl; try reflexivity.
  f_equal; [|apply IH].
  replace (- k * k * a * a) with (- (k * k * a * a)) by ring. reflexivity.
Qed.

(** C3, as the program has it.  On input wavenumbers that are positive,
    construction gives a dense grid of [interpolateDetail] times the input
    size, log-spaced from the smallest to the largest input wavenumber, and
    the kernel [k exp(-k^2 a^2) / (2 pi^2)] on it, computed once.  A call
    interpolates the spectrum onto the dense grid (an out-of-range grid
    raises) and returns, for each distance [s] in order, the trapezoid rule
    over the dense grid of [kernel(k) pk(k) sin(k s) / s], the wavenumber
    [k] itself being the integration variable, with weights
    [k_(j+1) - k_j]; the output has one value per distance. *)
Theorem gauss_transform ks interpolateDetail a :
  ks <> [] -> (forall k, In k ks -> 0 < k) -> (0 <= interpolateDetail)%Z ->
  exists self kmin kmax,
    np_min ks = Return kmin /\ np_max ks = Return kmax /\
    __init__ ks interpolateDetail a = Return self /\
    List.length (ks2 self) = (Z.to_nat interpolateDetail * List.length ks)%nat /\
    (forall j, (j < List.length (ks2 self))%nat ->
       nth j (ks2 self) 0 =
       exp (ln kmin + INR j * ((ln kmax - ln kmin)
                               / (INR (List.length (ks2 self)) - 1)))) /\
    ((2 <= List.length (ks2 self))%nat ->
       hd 0 (ks2 self) = kmin /\ last (ks2 self) 0 = kmax) /\
    precomp self = map (kernel a) (ks2 self) /\
    forall ks' pks ss,
      match interp1d ks' pks (ks2 self) with
      | Raise e => __call__ self ks' pks ss = Raise e
      | Return pk_interp =>
        exists xi,
          __call__ self ks' pks ss = Return xi /\
          List.length xi = List.length ss /\
          xi = map (fun s => trapezoid (ks2 self)
                                       (integrand_at a s (ks2 self) pk_interp)) ss
      end.
Proof.
  intros Hne Hpos Hd.
  destruct ks as [|k0 ks0] eqn:Eks; [contradiction|]. rewrite <- Eks in *.
  assert (Emin : np_min ks = Return (fold_left Rmin ks0 k0)) by (rewrite Eks; reflexivity).
  assert (Emax : np_max ks = Return (fold_left Rmax ks0 k0)) by (rewrite Eks; reflexivity).
  set (kmin := fold_left Rmin ks0 k0) in *. set (kmax := fold_left Rmax ks0 k0) in *.
  destruct (np_min_spec _ _ Emin) as [Imin _].
  destruct (np_max_spec _ _ Emax) as [Imax _].
  pose proof (Hpos _ Imin) as Pmin. pose proof (Hpos _ Imax) as Pmax.
  unfold __init__. rewrite Emin, Emax. cbn [Py.bind]. unfold logspace_e.
  destruct (linspace (ln kmin) (ln kmax) (interpolateDetail * Z.of_nat (List.length ks)))
    as [y|e] eqn:Ey.
  2:{ exfalso. unfold linspace in Ey.
      destruct (Z.ltb_spec (interpolateDetail * Z.of_nat (List.length ks)) 0);
        [nia | discriminate]. }
  destruct (linspace_spec _ _ _ _ Ey) as (_ & Ly & Ny).
  cbn [Py.bind]. eexists. exists kmin, kmax.
  split; [reflexivity|]. split; [reflexivity|]. split; [reflexivity|].
  cbn [ks2 precomp].
  assert (Lks2 : List.length (map exp y) = (Z.to_nat interpolateDetail * List.length ks)%nat).
  { rewrite length_map, Ly, Z2Nat.inj_mul, Nat2Z.id by lia. reflexivity. }
  assert (Nks2 : forall j, (j < List.length (map exp y))%nat ->
             nth j (map exp y) 0 =
             exp (ln kmin + INR j * ((ln kmax - ln kmin)
                                     / (INR (List.length (map exp y)) - 1)))).
  { intros j Hj. rewrite length_map in *.
    rewrite (nth_indep _ 0 (exp 0)) by (rewrite length_map; exact Hj).
    rewrite map_nth. now rewrite (Ny j Hj). }
  split; [exact Lks2|]. split; [exact Nks2|]. split; [|split].
  - intros L2. split.
    + replace (hd 0 (map exp y)) with (nth 0 (map exp y) 0)
        by (destruct (map exp y); reflexivity).
      rewrite Nks2 by lia. cbn [INR]. rewrite Rmult_0_l, Rplus_0_r. now apply exp_ln.
    + rewrite last_as_nth, Nks2 by lia.
      set (n := List.length (map exp y)) in *.
      assert (En : INR (n - 1) = INR n - 1).
      { rewrite minus_INR by lia. reflexivity. }
      rewrite En.
      replace (ln kmin + (INR n - 1) * ((ln kmax - ln kmin) / (INR n - 1)))
        with (ln kmax).
      * now apply exp_ln.
      * field. apply Rgt_not_eq, Rlt_gt, Rlt_0_minus.
        change 1 with (INR 1). apply lt_INR. lia.
  - apply map_ext. intros k. unfold kernel.
    replace (- k * k * a * a) with (- (k * k * a * a)) by ring. reflexivity.
  - intros ks' pks ss. unfold __call__. cbn [ks2 precomp].
    destruct (interp1d ks' pks (map exp y)) as [pk_interp|e]; [|reflexivity].
    cbn [Py.bind]. eexists. split; [reflexivity|]. split; [apply length_map|].
    apply map_ext. intros s. rewrite trapz_trapezoid, integrand_as_spec. reflexivity.
Qed.

Ltac decide_Rltb :=
  repeat match goal with
         | |- context [Rltb ?a ?b] =>
           first [ rewrite (proj2 (Rltb_true a b)) by lra
                 | rewrite (proj2 (Rltb_false a b)) by lra ]
         end.

Lemma gauss_1_2_constructed : __init__ [1; 2] 1 (1 / 4) = Return Examples.gauss_1_2.
Proof.
  unfold __init__, np_min, np_max, logspace_e, linspace. cbn.
  rewrite (Rmin_left 1 2) by lra. rewrite (Rmax_right 1 2) by lra.
  rewrite ln_1. change (Pos.to_nat 2) with 2%nat. cbn.
  replace (0 * ((ln 2 - 0) / 1) + 0) with 0 by (unfold Rdiv; ring).
  rewrite exp_0, (exp_ln 2) by lra. reflexivity.
Qed.

Lemma interp_example :
  interp1d [1; 2] [1; 0] [1; 2]
  = Return [(0 - 1) / (2 - 1) * (1 - 1) + 1; (0 - 1) / (2 - 1) * (2 - 1) + 1].
Proof.
  unfold interp1d. cbn -[Rltb]. decide_Rltb. cbn -[Rltb]. decide_Rltb. cbn -[Rltb].
  unfold call_linear, searchsorted. cbn -[Rltb]. decide_Rltb. cbn -[Rltb].
  reflexivity.
Qed.

Lemma ln_2_lt_1 : ln 2 < 1.
Proof.
  replace 1 with (ln (exp 1)) by apply ln_exp. apply ln_increasing; [lra|].
  pose proof (exp_ineq1 1 ltac:(lra)). lra.
Qed.

Lemma sin_1_pos : 0 < sin 1.
Proof. apply sin_gt_0; [lra|]. pose proof PI2_1. lra. Qed.

(** C3 fails as stated.  On [ks = [1, 2]] with [interpolateDetail = 1] and
    [a = 1/4], the spectrum [pk = [1, 0]] and the distance [s = 1], only the
    node [k = 1] contributes, with [f0 = kernel(1) * sin(1)].  The call
    returns [(2 - 1) * f0 / 2]; the trapezoid rule in log-k space would
    give [(ln 2 - ln 1) * f0 / 2]. *)
Lemma call_is_not_in_log_space :
  __init__ [1; 2] 1 (1 / 4) = Return Examples.gauss_1_2 /\
  __call__ Examples.gauss_1_2 [1; 2] [1; 0] [1]
  = Return [(2 - 1) * Examples.gauss_1_2_f0 / 2] /\
  call_in_log_space Examples.gauss_1_2 [1; 2] [1; 0] [1]
  = Return [(ln 2 - ln 1) * Examples.gauss_1_2_f0 / 2] /\
  (2 - 1) * Examples.gauss_1_2_f0 / 2 <> (ln 2 - ln 1) * Examples.gauss_1_2_f0 / 2.
Proof.
  set (f0 := Examples.gauss_1_2_f0).
  assert (Ef0 : f0 = 1 * exp (- 1 * 1 * (1 / 4) * (1 / 4)) / (2 * PI * PI) * sin 1)
    by reflexivity.
  pose proof PI_RGT_0 as Ppi.
  split; [apply gauss_1_2_constructed|]. split; [|split].
  - unfold __call__, Examples.gauss_1_2. cbn [ks2 precomp].
    rewrite interp_example. cbn [Py.bind].
    unfold trapz, mul, sum.
    cbn [map combine diff tl removelast fst snd fold_right].
    f_equal. f_equal. rewrite !Rmult_1_r, Ef0, !Rmult_1_r.
    field. lra.
  - unfold call_in_log_space, Examples.gauss_1_2. cbn [ks2 precomp].
    rewrite interp_example. cbn [Py.bind].
    unfold trapz, mul, sum.
    cbn [map combine diff tl removelast fst snd fold_right].
    f_equal. f_equal. rewrite !Rmult_1_r, Ef0, !Rmult_1_r.
    field. lra.
  - rewrite ln_1.
    pose proof ln_2_lt_1 as L. pose proof sin_1_pos as S1.
    pose proof (exp_pos (- 1 * 1 * (1 / 4) * (1 / 4))) as E.
    assert (F0 : 0 < f0).
    { rewrite Ef0. apply Rmult_lt_0_compat; [|exact S1].
      apply Rdiv_lt_0_compat; [lra|].
      apply Rmult_lt_0_compat; lra. }
    intros H.
    assert (Hf : (1 - ln 2) * f0 = 0) by lra.
    apply Rmult_integral in Hf. lra.
Qed.

Lemma gauss_transform_witness :
  exists self,
    __init__ [1; 2] interpolateDetail_default a_default = Return self /\
    List.length (ks2 self) = 4%nat /\
    hd 0 (ks2 self) = 1 /\ last (ks2 self) 0 = 2 /\
    precomp self = map (kernel a_default) (ks2 self).
Proof.
  destruct (gauss_transform [1; 2] interpolateDetail_default a_default)
    as (self & kmin & kmax & Emin & Emax & Einit & Len & _ & Ends & Pre & _).
  - discriminate.
  - intros k [<-|[<-|[]]]; lra.
  - unfold interpolateDetail_default. lia.
  - exists self. split; [exact Einit|]. split; [exact Len|].
    destruct (Ends ltac:(rewrite Len; simpl; lia)) as [Hhd Hlast].
    assert (E1 : kmin = 1).
    { cbn in Emin. rewrite (Rmin_left 1 2) in Emin by lra. now injection Emin. }
    assert (E2 : kmax = 2).
    { cbn in Emax. rewrite (Rmax_right 1 2) in Emax by lra. now injection Emax. }
    rewrite Hhd, Hlast, E1, E2. repeat split. exact Pre.
Defined.

Lemma call_checks_bounds_witness :
  exists msg, __call__ Examples.gauss_1_2 [3 / 2; 2] [1; 1] [1] = Raise (ValueError msg).
Proof.
  apply (call_checks_bounds Examples.gauss_1_2 [3 / 2; 2] [1; 1] [1] 1 2).
  - cbn. f_equal. apply Rmin_left. lra.
  - cbn. f_equal. apply Rmax_right. lra.
  - left. exists (3 / 2). split; [|lra]. cbn. f_equal. apply Rmin_left. lra.
Defined.

Lemma call_linear_in_pk_witness :
  exists xi,
    __call__ Examples.gauss_1_2 [1; 2] [1; 0] [1; 3] = Return xi /\
    List.length xi = 2%nat /\
    __call__ Examples.gauss_1_2 [1; 2] (scale 5 [1; 0]) [1; 3] = Return (scale 5 xi) /\
    __call__ Examples.gauss_1_2 [1; 2] (add [1; 0] [0; 1]) [1; 3] =
      result_map2 add (Return xi) (__call__ Examples.gauss_1_2 [1; 2] [0; 1] [1; 3]).
Proof.
  destruct (call_linear_in_pk Examples.gauss_1_2 [1; 2] [1; 0] [0; 1] 5 [1; 3])
    as (Scale & Add & Returns).
  destruct (Returns eq_refl (le_n 2)) as (xi & E & L).
  - intros v [<-|[<-|[]]]; split.
    + exists 1. split; [now left | lra].
    + exists 2. split; [right; now left | lra].
    + exists 1. split; [now left | lra].
    + exists 2. split; [right; now left | lra].
  - exists xi. split; [exact E|]. split; [exact L|]. split.
    + rewrite Scale, E. reflexivity.
    + rewrite (Add eq_refl), E. reflexivity.
Defined.

End Transform.

(* ===================================================================== *)
(** * Properties of the construction of a generator *)
(* ===================================================================== *)

Module GridConstruction.

Import Camb Vocabulary Interpolation.
Import Lqa.
Local Open Scope Q_scope.






(** ** The grids are ascending *)

Lemma inject_Z_pos_step (N : Z) (d : Q) :
  (2 <= N)%Z -> 0 < d -> 0 < d / inject_Z (N - 1).
Proof.
  intros HN Hd. apply Qlt_shift_div_l.
  - change 0 with (inject_Z 0). rewrite <- Zlt_Qlt. lia.
  - lra.
Qed.

(** The samples of [np.linspace(start, stop, N)], [start < stop], ascend
    strictly and stay between [start] and [stop]. *)
Lemma linspace_ascending start stop N l :
  start < stop ->
  Np.linspace start stop N = Return l ->
  (forall i j gi gj, (0 <= i)%Z -> (i < j)%Z -> (j < N)%Z ->
     getitem l i = Return gi -> getitem l j = Return gj -> gi < gj) /\
  (forall i gi, (0 <= i < N)%Z -> getitem l i = Return gi ->
     start <= gi /\ gi <= stop).
Proof.
  intros Lt El. apply linspace_inv in El. destruct El as (HN & _ & Lk & _).
  assert (Step : (2 <= N)%Z -> 0 < (stop - start) / inject_Z (N - 1))
    by (intros; apply inject_Z_pos_step; [assumption | lra]).
  split.
  - intros i j gi gj Hi Hij Hj Ei Ej.
    destruct (Lk i ltac:(lia)) as (vi & Evi & [Qi|[? _]]); [|lia].
    destruct (Lk j ltac:(lia)) as (vj & Evj & [Qj|[? _]]); [|lia].
    rewrite Ei in Evi. injection Evi as <-. rewrite Ej in Evj. injection Evj as <-.
    rewrite Qi, Qj. specialize (Step ltac:(lia)).
    assert (Hd : inject_Z i < inject_Z j) by (rewrite <- Zlt_Qlt; exact Hij).
    assert (0 < (inject_Z j - inject_Z i) * ((stop - start) / inject_Z (N - 1)))
      by (apply Qmult_lt_0_compat; [lra | exact Step]).
    lra.
  - intros i gi Hi Ei.
    destruct (Lk i Hi) as (vi & Evi & [Qi|[-> Qi]]).
    + rewrite Ei in Evi. injection Evi as <-.
      destruct (Z.eq_dec N 1) as [->|N1].
      * assert (i = 0%Z) by lia. subst i. rewrite Qi.
        change (inject_Z 0) with 0. split; lra.
      * specialize (Step ltac:(lia)).
        set (step := (stop - start) / inject_Z (N - 1)) in *.
        assert (Hi0 : 0 <= inject_Z i)
          by (change 0 with (inject_Z 0); rewrite <- Zle_Qle; lia).
        assert (HiN : inject_Z i <= inject_Z (N - 1)) by (rewrite <- Zle_Qle; lia).
        assert (Full : inject_Z (N - 1) * step == stop - start).
        { unfold step. field. intros Z0.
          assert (E' : inject_Z (N - 1) == inject_Z 0) by exact Z0.
          apply (proj1 (inject_Z_injective _ _)) in E'. lia. }
        assert (0 <= inject_Z i * step) by (apply Qmult_le_0_compat; lra).
        assert (0 <= (inject_Z (N - 1) - inject_Z i) * step)
          by (apply Qmult_le_0_compat; lra).
        rewrite Qi. split; lra.
    + rewrite Ei in Evi. injection Evi as <-. rewrite Qi. split; lra.
Qed.

(** X2.  The omch2 grid of a constructed generator ascends strictly from 0.05
    to 0.3, and its H0 grid, when it has more than the one sample [h0],
    from 0.6 to 0.8. *)
Theorem init_grids_ascending dir z N H h ob n w g :
  fst (__init__ dir z N H h ob n w) = Return g ->
  (forall i j gi gj, (0 <= i)%Z -> (i < j)%Z -> (j < N)%Z ->
     getitem (omch2s g) i = Return gi -> getitem (omch2s g) j = Return gj ->
     gi < gj) /\
  (forall i gi, (0 <= i < N)%Z -> getitem (omch2s g) i = Return gi ->
     0.05 <= gi /\ gi <= 0.3) /\
  ((2 <= N)%Z ->
   (exists g0, getitem (omch2s g) 0 = Return g0 /\ g0 == 0.05) /\
   getitem (omch2s g) (-1) = Return 0.3) /\
  (H = 1%Z -> h0s g = [h]) /\
  (H <> 1%Z ->
   (forall i j hi hj, (0 <= i)%Z -> (i < j)%Z -> (j < H)%Z ->
      getitem (h0s g) i = Return hi -> getitem (h0s g) j = Return hj ->
      hi < hj) /\
   (forall i hi, (0 <= i < H)%Z -> getitem (h0s g) i = Return hi ->
      0.6 <= hi /\ hi <= 0.8)).
Proof.
  intros Hg.
  destruct (Fingerprint.init_inv _ _ _ _ _ _ _ _ _ Hg)
    as (_ & _ & _ & _ & _ & _ & _ & _ & Lo & Lh).
  assert (A : 0.05 < 0.3) by (vm_compute; reflexivity).
  assert (B : 0.6 < 0.8) by (vm_compute; reflexivity).
  destruct (linspace_ascending _ _ _ _ A Lo) as [Asc Rng].
  split; [exact Asc|]. split; [exact Rng|]. split; [|split].
  - intros HN. apply linspace_inv in Lo. destruct Lo as (_ & _ & _ & L0 & LN).
    split; [apply L0; lia | now apply LN].
  - intros ->. now injection Lh as <-.
  - intros H1. destruct (Z.eqb_spec H 1); [contradiction|].
    exact (linspace_ascending _ _ _ _ B Lh).
Qed.

Lemma init_grids_ascending_witness :
  exists gi gj,
    getitem (omch2s (Examples.generator 101 1)) 40 = Return gi /\
    getitem (omch2s (Examples.generator 101 1)) 41 = Return gj /\
    gi < gj /\ 0.05 <= gi /\ gj <= 0.3.
Proof.
  destruct (init_grids_ascending "/barry/cosmology" 0.51 101 1 0.676 0.04814 0.97
              Examples.empty_world (Examples.generator 101 1) eq_refl)
    as (Asc & Rng & _).
  eexists. eexists.
  split; [vm_compute; reflexivity|]. split; [vm_compute; reflexivity|].
  split; [|split].
  - apply (Asc 40%Z 41%Z); [lia | lia | lia | vm_compute; reflexivity
                           | vm_compute; reflexivity].
  - apply (Rng 40%Z); [lia | vm_compute; reflexivity].
  - apply (Rng 41%Z); [lia | vm_compute; reflexivity].
Defined.

End GridConstruction.

(* ===================================================================== *)
(** * Properties of table generation and of the cache file *)
(* ===================================================================== *)

Module TableGeneration.

Import Camb Vocabulary GenerationVocabulary.
Local Open Scope Z_scope.

Lemma solver_runs_emit e w :
  solver_runs (emit e w) =
  (solver_runs w + (if is_solver_run e then 1 else 0))%nat.
Proof.
  unfold solver_runs, emit. cbn [trace]. rewrite filter_app, length_app.
  cbn [filter]. destruct (is_solver_run e); reflexivity.
Qed.

Lemma solver_runs_np_save path t w :
  solver_runs (np_save path t w) = solver_runs w.
Proof.
  unfold solver_runs, np_save. cbn [trace]. rewrite filter_app, length_app.
  cbn [filter is_solver_run List.length]. lia.
Qed.

Lemma broadcast_to_length n v l :
  Np.broadcast_to n v = Return l -> List.length l = n.
Proof.
  unfold Np.broadcast_to. destruct (Nat.eqb_spec (List.length v) n) as [E|E].
  - now intros [= <-].
  - destruct v as [|a [|b v]]; try discriminate.
    intros [= <-]. apply repeat_length.
Qed.

(** One grid cell, step by step: the two solver runs, each logged before
    it starts, then the row. *)
Lemma generate_cell_unfold camb self i j o h w :
  generate_cell camb self i j o h w =
  let w1 := emit (CambRun false (h * 100) o (omega_b self * h * h))
                 (emit (LogDebug i j o h) w) in
  match camb (solver_pars self o h false) with
  | Raise e => (Raise e, w1)
  | Return rl =>
    let w2 := emit (CambRun true (h * 100) o (omega_b self * h * h)) w1 in
    match camb (solver_pars self o h true) with
    | Raise e => (Raise e, w2)
    | Return rnl =>
      ((lin1 <- getitem (matter_power rl) 1 ;;
        lin <- Np.broadcast_to (Z.to_nat (k_num self)) lin1 ;;
        nonlin <- Np.broadcast_to (Z.to_nat (2 * k_num self))
                                  (List.concat (matter_power rnl)) ;;
        Return (rdrag rl :: lin ++ nonlin)%list)%py, w2)
    end
  end.
Proof.
  unfold generate_cell, mbind, modify, lift, ret, solver_pars. cbv zeta.
  destruct (camb _) as [rl|e]; [|reflexivity].
  destruct (camb _) as [rnl|e]; [|reflexivity].
  destruct (getitem (matter_power rl) 1) as [lin1|e]; [|reflexivity].
  cbn [Py.bind].
  destruct (Np.broadcast_to (Z.to_nat (k_num self)) lin1) as [lin|e]; [|reflexivity].
  cbn [Py.bind].
  destruct (Np.broadcast_to _ (List.concat (matter_power rnl))); reflexivity.
Qed.

(** Whatever its outcome, a cell leaves the files alone; when it returns
    it has run the solver twice and its row has [1 + 3 k_num] channels. *)
Lemma generate_cell_inv camb self i j o h w r w' :
  generate_cell camb self i j o h w = (r, w') ->
  files w' = files w /\
  match r with
  | Return row =>
    solver_runs w' = (solver_runs w + 2)%nat /\
    List.length row = S (3 * Z.to_nat (k_num self))
  | Raise _ => True
  end.
Proof.
  rewrite generate_cell_unfold. cbv zeta.
  destruct (camb _) as [rl|e]; [|intros [= <- <-]; split; [reflexivity | exact I]].
  destruct (camb _) as [rnl|e]; [|intros [= <- <-]; split; [reflexivity | exact I]].
  intros [= <- <-]. split; [reflexivity|].
  destruct (getitem (matter_power rl) 1) as [lin1|e]; cbn [Py.bind]; [|exact I].
  destruct (Np.broadcast_to (Z.to_nat (k_num self)) lin1) as [lin|e] eqn:E1;
    cbn [Py.bind]; [|exact I].
  destruct (Np.broadcast_to _ (List.concat (matter_power rnl))) as [nonlin|e] eqn:E2;
    cbn [Py.bind]; [|exact I].
  split.
  - rewrite !solver_runs_emit. cbn [is_solver_run]. lia.
  - apply broadcast_to_length in E1, E2. cbn [List.length].
    rewrite length_app, E1, E2. destruct (k_num self); lia.
Qed.

Lemma generate_row_inv camb self i o hs : forall j w r w',
  generate_row camb self i j o hs w = (r, w') ->
  files w' = files w /\
  match r with
  | Return cells =>
    solver_runs w' = (solver_runs w + 2 * List.length hs)%nat /\
    List.length cells = List.length hs /\
    Forall (fun c => List.length c = S (3 * Z.to_nat (k_num self))) cells
  | Raise _ => True
  end.
Proof.
  induction hs as [|h hs IH]; intros j w r w'.
  - intros [= <- <-]. split; [reflexivity|]. cbn [List.length].
    split; [lia|]. split; [reflexivity | constructor].
  - cbn [generate_row]. unfold mbind at 1.
    destruct (generate_cell camb self i j o h w) as [[c|e] w1] eqn:Ec.
    2:{ intros [= <- <-]. apply generate_cell_inv in Ec. split; [apply Ec | exact I]. }
    apply generate_cell_inv in Ec. destruct Ec as (F1 & R1 & L1).
    unfold mbind at 1.
    destruct (generate_row camb self i (S j) o hs w1) as [[cs|e] w2] eqn:Er.
    2:{ intros [= <- <-]. apply IH in Er. split; [|exact I]. destruct Er. congruence. }
    apply IH in Er. destruct Er as (F2 & R2 & L2 & A2).
    unfold ret. intros [= <- <-]. split; [congruence|].
    cbn [List.length]. split; [lia|]. split; [now rewrite L2 | now constructor].
Qed.

Lemma generate_rows_inv camb self oms : forall i w r w',
  generate_rows camb self i oms w = (r, w') ->
  files w' = files w /\
  match r with
  | Return t =>
    solver_runs w' =
      (solver_runs w + 2 * List.length oms * List.length (h0s self))%nat /\
    table_shape t (List.length oms) (List.length (h0s self))
                (S (3 * Z.to_nat (k_num self)))
  | Raise _ => True
  end.
Proof.
  induction oms as [|o oms IH]; intros i w r w'.
  - intros [= <- <-]. split; [reflexivity|]. cbn [List.length].
    split; [lia|]. split; [reflexivity | constructor].
  - cbn [generate_rows]. unfold mbind at 1.
    destruct (generate_row camb self i 0 o (h0s self) w) as [[c|e] w1] eqn:Ec.
    2:{ intros [= <- <-]. apply generate_row_inv in Ec. split; [apply Ec | exact I]. }
    apply generate_row_inv in Ec. destruct Ec as (F1 & R1 & L1 & A1).
    unfold mbind at 1.
    destruct (generate_rows camb self (S i) oms w1) as [[cs|e] w2] eqn:Er.
    2:{ intros [= <- <-]. apply IH in Er. split; [|exact I]. destruct Er. congruence. }
    apply IH in Er. destruct Er as (F2 & R2 & L2 & A2).
    unfold ret. intros [= <- <-]. split; [congruence|].
    cbn [List.length]. split; [nia|]. split; [simpl; now rewrite L2|].
    constructor; [now split | assumption].
Qed.

(** [_generate_data] saves only as its last step. *)
Lemma generate_data_inv camb self w r w' :
  _generate_data camb self w = (r, w') ->
  match r with
  | Return t =>
    files w' = (filename self, t) :: files w /\
    solver_runs w' =
      (solver_runs w + 2 * List.length (omch2s self) * List.length (h0s self))%nat /\
    table_shape t (List.length (omch2s self)) (List.length (h0s self))
                (S (3 * Z.to_nat (k_num self)))
  | Raise _ => files w' = files w
  end.
Proof.
  unfold _generate_data, mbind, modify, ret.
  match goal with |- context [generate_rows camb self 0 ?o ?w0] =>
    destruct (generate_rows camb self 0 o w0) as [[t|e] w1] eqn:E
  end.
  - apply generate_rows_inv in E. destruct E as (F & R & Sh).
    intros [= <- <-]. split; [|split; [|exact Sh]].
    + cbn [np_save emit files] in *. now rewrite F.
    + rewrite solver_runs_np_save, solver_runs_emit, R, !solver_runs_emit.
      cbn [is_solver_run]. lia.
  - apply generate_rows_inv in E. destruct E as (F & _).
    intros [= <- <-]. exact F.
Qed.

(** X3.  For a generator built by [__init__], a generation that returns has
    filled a table of [N] x [H] cells of [1 + 3 * 2000] channels, saved it
    under the generator's file name as the newest file, and run the solver
    exactly twice per cell, once linear and once nonlinear. *)
Theorem generation_accounting camb dir z N H h ob n w0 g w t w' :
  fst (__init__ dir z N H h ob n w0) = Return g ->
  _generate_data camb g w = (Return t, w') ->
  table_shape t (Z.to_nat N) (Z.to_nat H) (S (3 * 2000)) /\
  files w' = (filename g, t) :: files w /\
  solver_runs w' = (solver_runs w + 2 * Z.to_nat N * Z.to_nat H)%nat.
Proof.
  intros Hg E. apply generate_data_inv in E. destruct E as (F & R & Sh).
  destruct (Fingerprint.init_inv _ _ _ _ _ _ _ _ _ Hg)
    as (_ & _ & _ & _ & _ & _ & Ek & _ & Lo & Lh).
  apply Interpolation.linspace_inv in Lo. destruct Lo as (_ & LN & _).
  assert (LH : List.length (h0s g) = Z.to_nat H).
  { destruct (Z.eqb_spec H 1) as [->|H1].
    - injection Lh as <-. reflexivity.
    - apply Interpolation.linspace_inv in Lh. apply Lh. }
  rewrite LN, LH in R. rewrite LN, LH, Ek in Sh.
  split; [exact Sh|]. split; [exact F | exact R].
Qed.

Lemma generation_accounting_witness :
  exists t w',
    _generate_data Examples.toy_camb (Examples.generator 3 2) Examples.empty_world
    = (Return t, w') /\
    table_shape t 3 2 (S (3 * 2000)) /\
    files w' = [(filename (Examples.generator 3 2), t)] /\
    solver_runs w' = 12%nat.
Proof.
  destruct (_generate_data Examples.toy_camb (Examples.generator 3 2)
                           Examples.empty_world) as [[t|e] w'] eqn:E.
  - exists t, w'. split; [reflexivity|].
    exact (generation_accounting Examples.toy_camb
             "/barry/cosmology" 0.51 3 2 0.676 0.04814 0.97
             Examples.empty_world (Examples.generator 3 2) Examples.empty_world
             t w' eq_refl E).
  - exfalso.
    destruct (Lifecycle.generate_data_ok Examples.toy_camb Lifecycle.toy_camb_contract
                (Examples.generator 3 2) Examples.empty_world) as (t & w1 & E1 & _).
    rewrite E in E1. discriminate E1.
Defined.

(** ** What a failed generation leaves behind *)

Lemma load_data_miss camb self w :
  path_exists (filename self) w = false ->
  load_data camb true (self, w) =
  match _generate_data camb self w with
  | (Return t, w') => (Return tt, (set_data self (Some t), w'))
  | (Raise e, w') => (Raise e, (self, w'))
  end.
Proof.
  intros Miss. unfold load_data, mbind, gets, in_world, modify. cbn [fst snd].
  rewrite Miss. cbn [negb fst snd].
  destruct (_generate_data camb self w) as [[t|e] w']; reflexivity.
Qed.

Lemma generate_rows_first_failure camb self i o oms hq hs w e :
  h0s self = hq :: hs ->
  camb (solver_pars self o hq false) = Raise e ->
  fst (generate_rows camb self i (o :: oms) w) = Raise e.
Proof.
  intros Eh Ec. cbn [generate_rows]. unfold mbind at 1. rewrite Eh.
  cbn [generate_row]. unfold mbind at 1. rewrite generate_cell_unfold, Ec.
  reflexivity.
Qed.

(** X4.  When [load_data(can_generate=True)] ends in an exception on a cache
    miss, nothing was saved: the files are as before, the cache file is
    still missing, and the instance keeps the table it had.  If the
    solver raises on its first run (and there is a first cell), that is
    the exception [load_data] ends with. *)
Theorem failed_generation_saves_nothing camb self w :
  path_exists (filename self) w = false ->
  (forall e s', load_data camb true (self, w) = (Raise e, s') ->
     fst s' = self /\ files (snd s') = files w /\
     path_exists (filename self) (snd s') = false) /\
  (forall e o oms hq hs,
     omch2s self = o :: oms -> h0s self = hq :: hs ->
     camb (solver_pars self o hq false) = Raise e ->
     fst (load_data camb true (self, w)) = Raise e).
Proof.
  intros Miss. rewrite (load_data_miss _ _ _ Miss). split.
  - intros e s'.
    destruct (_generate_data camb self w) as [[t|e'] w'] eqn:E; [discriminate|].
    intros [= <- <-]. apply generate_data_inv in E. cbn [fst snd].
    split; [reflexivity|]. split; [exact E|].
    unfold path_exists in *. now rewrite E.
  - intros e o oms hq hs Eo Eh Ec.
    unfold _generate_data, mbind, modify, ret. rewrite Eo.
    match goal with |- context [generate_rows camb self 0 ?l ?w0] =>
      pose proof (generate_rows_first_failure camb self 0 o oms hq hs w0 e Eh Ec) as Ef;
      destruct (generate_rows camb self 0 l w0) as [[t|e'] w1]
    end; cbn [fst] in *; [discriminate Ef | now injection Ef as ->].
Qed.

Lemma failed_generation_saves_nothing_witness :
  exists s',
    load_data Scenarios.failing_camb true
              (Examples.generator 3 1, Examples.empty_world)
    = (Raise (ExternalError "CAMBError"), s') /\
    fst s' = Examples.generator 3 1 /\ files (snd s') = [] /\
    path_exists (filename (Examples.generator 3 1)) (snd s') = false.
Proof.
  destruct (failed_generation_saves_nothing Scenarios.failing_camb
              (Examples.generator 3 1) Examples.empty_world eq_refl)
    as [Nothing Propagates].
  destruct (load_data Scenarios.failing_camb true
                      (Examples.generator 3 1, Examples.empty_world))
    as [r s'] eqn:E.
  assert (Er : r = Raise (ExternalError "CAMBError")).
  { eapply (Propagates _ _ _ _ _); [vm_compute; reflexivity | reflexivity | reflexivity]. }
  subst r. exists s'. split; [reflexivity|]. exact (Nothing _ _ eq_refl).
Defined.

(** ** The layout of a generated cell *)

Section Layout.

Variable camb : CambParams -> result CambResults.
Hypothesis camb_ok : solver_contract camb.

Lemma generate_cell_stores self i j o h w row w' :
  generate_cell camb self i j o h w = (Return row, w') ->
  stores_node camb self o h row.
Proof.
  rewrite generate_cell_unfold. cbv zeta.
  destruct (camb_ok (solver_pars self o h false)) as (rl & El & Ll & Fl).
  destruct (camb_ok (solver_pars self o h true)) as (rnl & Enl & Lnl & Fnl).
  rewrite El, Enl. cbn [solver_pars p_redshifts p_npoints List.length] in *.
  destruct (matter_power rl) as [|lin0 [|lin [|? ?]]] eqn:Ml; try discriminate Ll.
  destruct (matter_power rnl) as [|nl0 [|nl1 [|? ?]]] eqn:Mnl; try discriminate Lnl.
  inversion Fl as [|? ? _ Fl']; subst. inversion Fl' as [|? ? Klin _]; subst.
  inversion Fnl as [|? ? K0 Fnl']; subst. inversion Fnl' as [|? ? K1 _]; subst.
  change (getitem [lin0; lin] 1) with (Return lin). cbn [Py.bind].
  change (List.concat [nl0; nl1]) with (nl0 ++ nl1 ++ [])%list.
  rewrite List.app_nil_r.
  unfold Np.broadcast_to. rewrite Klin, Nat.eqb_refl. cbn [Py.bind].
  assert (K2 : List.length (nl0 ++ nl1)%list = Z.to_nat (2 * k_num self)).
  { rewrite length_app. lia. }
  rewrite K2, Nat.eqb_refl. cbn [Py.bind].
  intros [= <- _].
  exists rl, rnl, lin0, lin, nl0, nl1. repeat split; assumption.
Qed.

Lemma generate_row_stores self i o hs : forall j w cells w',
  generate_row camb self i j o hs w = (Return cells, w') ->
  forall k hq, nth_error hs k = Some hq ->
  stores_node camb self o hq (nth k cells []).
Proof.
  induction hs as [|h hs IH]; intros j w cells w' E k hq Hk.
  - destruct k; discriminate Hk.
  - revert E. cbn [generate_row]. unfold mbind at 1.
    destruct (generate_cell camb self i j o h w) as [[c|e] w1] eqn:Ec; [|discriminate].
    unfold mbind at 1.
    destruct (generate_row camb self i (S j) o hs w1) as [[cs|e] w2] eqn:Er;
      [|discriminate].
    unfold ret. intros [= <- _]. destruct k as [|k].
    + injection Hk as <-. cbn [nth]. eapply generate_cell_stores; eassumption.
    + cbn [nth]. eapply IH; eassumption.
Qed.

Lemma generate_rows_stores self oms : forall i w t w',
  generate_rows camb self i oms w = (Return t, w') ->
  forall a b o hq, nth_error oms a = Some o -> nth_error (h0s self) b = Some hq ->
  stores_node camb self o hq (cell t (Z.of_nat a) (Z.of_nat b)).
Proof.
  induction oms as [|o' oms IH]; intros i w t w' E a b o hq Ha Hb.
  - destruct a; discriminate Ha.
  - revert E. cbn [generate_rows]. unfold mbind at 1.
    destruct (generate_row camb self i 0 o' (h0s self) w) as [[r|e] w1] eqn:Er;
      [|discriminate].
    unfold mbind at 1.
    destruct (generate_rows camb self (S i) oms w1) as [[rs|e] w2] eqn:Ers;
      [|discriminate].
    unfold ret. intros [= <- _]. unfold cell. rewrite !Nat2Z.id.
    destruct a as [|a].
    + injection Ha as <-. cbn [nth]. eapply generate_row_stores; eassumption.
    + cbn [nth]. specialize (IH _ _ _ _ Ers a b o hq Ha Hb).
      unfold cell in IH. now rewrite !Nat2Z.id in IH.
Qed.

Lemma generate_data_stores self w t w' a b o hq :
  _generate_data camb self w = (Return t, w') ->
  nth_error (omch2s self) a = Some o ->
  nth_error (h0s self) b = Some hq ->
  stores_node camb self o hq (cell t (Z.of_nat a) (Z.of_nat b)).
Proof.
  unfold _generate_data, mbind, modify, ret.
  match goal with |- context [generate_rows camb self 0 ?o ?w0] =>
    destruct (generate_rows camb self 0 o w0) as [[t'|e] w1] eqn:E
  end; [|discriminate].
  intros [= <- _]. eapply generate_rows_stores; eassumption.
Qed.

(** X5.  With a solver that honours its contract, after
    [load_data(can_generate=True)] on a cache miss the cell [data[a][b]]
    of the installed table holds what the solver computed for the node
    [(omch2s[a], h0s[b])]: channel 0 is [rdrag] of the linear run, the next
    [k_num] channels are row 1 of the linear power table, and the last
    [2 k_num] channels are rows 0 and 1 of the nonlinear power table. *)
Theorem generated_cell_layout self w a b o hq :
  path_exists (filename self) w = false ->
  nth_error (omch2s self) a = Some o ->
  nth_error (h0s self) b = Some hq ->
  exists t w',
    load_data camb true (self, w) = (Return tt, (set_data self (Some t), w')) /\
    stores_node camb self o hq (cell t (Z.of_nat a) (Z.of_nat b)).
Proof.
  intros Miss Ha Hb.
  destruct (Lifecycle.generate_data_ok camb camb_ok self w) as (t & w' & E & _).
  exists t, w'. rewrite (load_data_miss _ _ _ Miss), E. split; [reflexivity|].
  eapply generate_data_stores; eassumption.
Qed.

End Layout.

Lemma generated_cell_layout_witness :
  exists t w' o hq,
    load_data Examples.toy_camb true (Examples.generator 3 2, Examples.empty_world)
    = (Return tt, (set_data (Examples.generator 3 2) (Some t), w')) /\
    nth_error (omch2s (Examples.generator 3 2)) 1 = Some o /\ (o == 0.175)%Q /\
    nth_error (h0s (Examples.generator 3 2)) 1 = Some hq /\ (hq == 0.8)%Q /\
    stores_node Examples.toy_camb (Examples.generator 3 2) o hq (cell t 1 1).
Proof.
  destruct (nth_error (omch2s (Examples.generator 3 2)) 1) as [o|] eqn:Eo;
    [|vm_compute in Eo; discriminate Eo].
  destruct (nth_error (h0s (Examples.generator 3 2)) 1) as [hq|] eqn:Eh;
    [|vm_compute in Eh; discriminate Eh].
  destruct (generated_cell_layout Examples.toy_camb Lifecycle.toy_camb_contract
              (Examples.generator 3 2) Examples.empty_world 1%nat 1%nat o hq
              eq_refl Eo Eh) as (t & w' & E & St).
  exists t, w', o, hq. split; [exact E|].
  split; [reflexivity|].
  split; [vm_compute in Eo; injection Eo as <-; vm_compute; reflexivity|].
  split; [reflexivity|].
  split; [vm_compute in Eh; injection Eh as <-; vm_compute; reflexivity|].
  exact St.
Defined.

(** ** Save and load *)

Lemma load_data_hit camb can_generate self w t :
  lookup_file (filename self) (files w) = Some t ->
  load_data camb can_generate (self, w) =
  (Return tt, (set_data self (Some t), emit (LogInfo "Loading existing CAMB data") w)).
Proof.
  intros Hit. unfold load_data, mbind, gets, in_world, modify, np_load, path_exists.
  cbn [fst snd]. rewrite Hit. cbn [negb fst snd emit files]. rewrite Hit. reflexivity.
Qed.

(** X6.  The cache round trip.  After one generator has generated and saved its
    table, [load_data] on any generator with the same file name, whatever
    its [can_generate], reads that very table back: it logs one line, runs
    the solver not once and writes nothing. *)
Theorem generated_table_reloads camb g1 g2 w can_generate :
  solver_contract camb ->
  path_exists (filename g1) w = false ->
  filename g2 = filename g1 ->
  exists t w1,
    load_data camb true (g1, w) = (Return tt, (set_data g1 (Some t), w1)) /\
    load_data camb can_generate (g2, w1) =
      (Return tt, (set_data g2 (Some t),
                   emit (LogInfo "Loading existing CAMB data") w1)) /\
    solver_runs (emit (LogInfo "Loading existing CAMB data") w1) = solver_runs w1.
Proof.
  intros Ok Miss Same.
  destruct (Lifecycle.generate_data_ok camb Ok g1 w) as (t & w1 & E & F & _).
  exists t, w1. rewrite (load_data_miss _ _ _ Miss), E. split; [reflexivity|].
  split.
  - apply load_data_hit. rewrite Same, F. apply Lifecycle.lookup_file_head.
  - rewrite solver_runs_emit. cbn [is_solver_run]. lia.
Qed.

Lemma generated_table_reloads_witness :
  exists t w1,
    load_data Examples.toy_camb true (Examples.generator 3 1, Examples.empty_world)
    = (Return tt, (set_data (Examples.generator 3 1) (Some t), w1)) /\
    load_data Examples.toy_camb false (Examples.generator 3 1, w1)
    = (Return tt, (set_data (Examples.generator 3 1) (Some t),
                   emit (LogInfo "Loading existing CAMB data") w1)).
Proof.
  destruct (generated_table_reloads Examples.toy_camb
              (Examples.generator 3 1) (Examples.generator 3 1)
              Examples.empty_world false Lifecycle.toy_camb_contract
              eq_refl eq_refl) as (t & w1 & E1 & E2 & _).
  exists t, w1. split; assumption.
Defined.

End TableGeneration.

(* ===================================================================== *)
(** * The gate on generation *)
(* ===================================================================== *)

Module CacheMiss.

Import Camb Vocabulary GenerationVocabulary.

(** C5: on a cache miss [load_data()] (generation not allowed, the default)
    raises the data-unavailable [ValueError]; the only thing it does is log
    the error, so no solver run, directory or file is made and the instance
    keeps the table it had.  With [can_generate=True], and a solver that
    honours its contract, the same miss returns normally: the solver has
    been run twice for every grid node, the table it filled has [om] x [h0]
    cells of [1 + 3 k_num] channels, each cell holding what the solver
    computed for its node, and that table is both installed in the
    instance and saved under the instance's file name. *)
Theorem load_data_cache_miss camb self w :
  path_exists (filename self) w = false ->
  load_data camb can_generate_default (self, w) =
    (Raise (ValueError data_unavailable_msg),
     (self, {| files := files w;
               trace := trace w ++ [LogError data_unavailable_msg] |})) /\
  (solver_contract camb ->
   exists t w',
     load_data camb true (self, w) = (Return tt, (set_data self (Some t), w')) /\
     files w' = (filename self, t) :: files w /\
     lookup_file (filename self) (files w') = Some t /\
     solver_runs w' =
       (solver_runs w + 2 * List.length (omch2s self) * List.length (h0s self))%nat /\
     table_shape t (List.length (omch2s self)) (List.length (h0s self))
                 (S (3 * Z.to_nat (k_num self))) /\
     forall a b o hq,
       nth_error (omch2s self) a = Some o ->
       nth_error (h0s self) b = Some hq ->
       stores_node camb self o hq (cell t (Z.of_nat a) (Z.of_nat b))).
Proof.
  intros Miss. split.
  - unfold load_data, mbind, gets, in_world, modify, raise. simpl.
    rewrite Miss. reflexivity.
  - intros Ok.
    destruct (Lifecycle.generate_data_ok camb Ok self w) as (t & w' & E & _).
    exists t, w'. rewrite (TableGeneration.load_data_miss _ _ _ Miss), E.
    split; [reflexivity|].
    destruct (TableGeneration.generate_data_inv _ _ _ _ _ E) as (F & R & Sh).
    split; [exact F|]. split; [rewrite F; apply Lifecycle.lookup_file_head|].
    split; [exact R|]. split; [exact Sh|].
    intros a b o hq Ha Hb.
    exact (TableGeneration.generate_data_stores camb Ok self w t w' a b o hq E Ha Hb).
Qed.

Lemma load_data_cache_miss_witness :
  path_exists (filename (Examples.generator 3 2)) Examples.empty_world = false /\
  load_data Examples.toy_camb can_generate_default
            (Examples.generator 3 2, Examples.empty_world) =
    (Raise (ValueError data_unavailable_msg),
     (Examples.generator 3 2,
      {| files := []; trace := [LogError data_unavailable_msg] |})) /\
  exists t w',
    load_data Examples.toy_camb true
              (Examples.generator 3 2, Examples.empty_world) =
      (Return tt, (set_data (Examples.generator 3 2) (Some t), w')) /\
    lookup_file (filename (Examples.generator 3 2)) (files w') = Some t /\
    solver_runs w' = 12%nat /\
    exists o hq,
      nth_error (omch2s (Examples.generator 3 2)) 2 = Some o /\
      nth_error (h0s (Examples.generator 3 2)) 0 = Some hq /\
      stores_node Examples.toy_camb (Examples.generator 3 2) o hq (cell t 2 0).
Proof.
  destruct (load_data_cache_miss Examples.toy_camb (Examples.generator 3 2)
              Examples.empty_world eq_refl) as [Refused Generated].
  split; [reflexivity|]. split; [exact Refused|].
  destruct (Generated Lifecycle.toy_camb_contract) as (t & w' & E & _ & F & R & _ & St).
  exists t, w'. split; [exact E|]. split; [exact F|]. split; [exact R|].
  destruct (nth_error (omch2s (Examples.generator 3 2)) 2) as [o|] eqn:Eo;
    [|vm_compute in Eo; discriminate Eo].
  destruct (nth_error (h0s (Examples.generator 3 2)) 0) as [hq|] eqn:Eh;
    [|vm_compute in Eh; discriminate Eh].
  exists o, hq. split; [reflexivity|]. split; [reflexivity|].
  exact (St 2%nat 0%nat o hq Eo Eh).
Defined.

End CacheMiss.

(* ===================================================================== *)
(** * Properties of the lazy load in [get_data] *)
(* ===================================================================== *)

Module LazyLoad.

Import Camb Vocabulary GenerationVocabulary.
Local Open Scope Q_scope.

Lemma get_data_unloaded_miss camb self w om h0o :
  data self = None ->
  path_exists (filename self) w = false ->
  get_data camb om h0o (self, w) =
  (Raise (ValueError data_unavailable_msg),
   (self, emit (LogError data_unavailable_msg) w)).
Proof.
  intros Hd Miss. unfold get_data, mbind, gets. cbn [fst snd]. rewrite Hd.
  unfold load_data, can_generate_default, mbind, gets, in_world, modify, raise.
  cbn [fst snd]. rewrite Miss. reflexivity.
Qed.

Lemma path_exists_lookup path w :
  path_exists path w = true -> exists t, lookup_file path (files w) = Some t.
Proof.
  unfold path_exists. destruct (lookup_file path (files w)) as [t|]; [|discriminate].
  intros _. now exists t.
Qed.

(** The three ways a call of [get_data] can go, by the state it starts
    in. *)
Lemma get_data_cases camb self w om h0o :
  (exists t, data self = Some t /\
             snd (get_data camb om h0o (self, w)) = (self, w)) \/
  (data self = None /\ path_exists (filename self) w = false /\
   get_data camb om h0o (self, w) =
   (Raise (ValueError data_unavailable_msg),
    (self, emit (LogError data_unavailable_msg) w))) \/
  (exists t, data self = None /\ lookup_file (filename self) (files w) = Some t /\
             get_data camb om h0o (self, w) =
             get_data camb om h0o
                      (set_data self (Some t),
                       emit (LogInfo "Loading existing CAMB data") w) /\
             snd (get_data camb om h0o (self, w)) =
             (set_data self (Some t), emit (LogInfo "Loading existing CAMB data") w)).
Proof.
  destruct (data self) as [t|] eqn:Hd.
  - left. exists t. split; [reflexivity|].
    rewrite (Query.get_data_loaded camb self w om h0o t Hd). reflexivity.
  - right. destruct (path_exists (filename self) w) eqn:Ex.
    + right. apply path_exists_lookup in Ex as (t & Hf). exists t.
      split; [reflexivity|]. split; [exact Hf|].
      rewrite (Query.get_data_lazy_load camb self w om h0o t Hd Hf).
      split; [reflexivity|].
      rewrite (Query.get_data_loaded camb (set_data self (Some t)) _ om h0o t eq_refl).
      reflexivity.
    + left. split; [reflexivity|]. split; [reflexivity|].
      now apply get_data_unloaded_miss.
Qed.

(** X7.  [get_data] never generates: its outcome and the state it leaves are
    the same whatever the solver is, it writes no file and it runs the
    solver not once, in any state and for any query. *)
Theorem get_data_never_generates camb camb' om h0o s :
  get_data camb om h0o s = get_data camb' om h0o s /\
  files (snd (snd (get_data camb om h0o s))) = files (snd s) /\
  solver_runs (snd (snd (get_data camb om h0o s))) = solver_runs (snd s).
Proof.
  destruct s as [self w]. split.
  - destruct (data self) as [t|] eqn:Hd.
    + now rewrite !(Query.get_data_loaded _ self w om h0o t Hd).
    + destruct (path_exists (filename self) w) eqn:Ex.
      * apply path_exists_lookup in Ex as (t & Hf).
        rewrite !(Query.get_data_lazy_load _ self w om h0o t Hd Hf).
        now rewrite !(Query.get_data_loaded _ (set_data self (Some t)) _ om h0o t eq_refl).
      * now rewrite !get_data_unloaded_miss.
  - destruct (get_data_cases camb self w om h0o)
      as [(t & _ & E)|[(_ & _ & E)|(t & _ & _ & _ & E)]]; rewrite E; cbn [fst snd].
    + split; reflexivity.
    + split; [reflexivity|]. rewrite TableGeneration.solver_runs_emit.
      cbn [is_solver_run]. lia.
    + split; [reflexivity|]. rewrite TableGeneration.solver_runs_emit.
      cbn [is_solver_run]. lia.
Qed.

(** X8.  On a generator that holds no table yet, [get_data] first loads: with
    the cache file missing it raises the data-unavailable [ValueError]
    for every query, having logged the error and nothing else; with the
    cache file present it logs the load, keeps the file's table in the
    instance and answers as the loaded generator does. *)
Theorem get_data_loads_lazily camb self w om h0o :
  data self = None ->
  (path_exists (filename self) w = false ->
   get_data camb om h0o (self, w) =
   (Raise (ValueError data_unavailable_msg),
    (self, emit (LogError data_unavailable_msg) w))) /\
  (forall t, lookup_file (filename self) (files w) = Some t ->
   get_data camb om h0o (self, w) =
   get_data camb om h0o
            (set_data self (Some t), emit (LogInfo "Loading existing CAMB data") w) /\
   snd (get_data camb om h0o (self, w)) =
   (set_data self (Some t), emit (LogInfo "Loading existing CAMB data") w)).
Proof.
  intros Hd. split.
  - now apply get_data_unloaded_miss.
  - intros t Hf.
    rewrite (Query.get_data_lazy_load camb self w om h0o t Hd Hf).
    split; [reflexivity|].
    rewrite (Query.get_data_loaded camb (set_data self (Some t)) _ om h0o t eq_refl).
    reflexivity.
Qed.

Lemma get_data_loads_lazily_witness :
  get_data Examples.toy_camb 0.31 None (Examples.generator 3 1, Examples.empty_world)
  = (Raise (ValueError data_unavailable_msg),
     (Examples.generator 3 1,
      emit (LogError data_unavailable_msg) Examples.empty_world)) /\
  snd (get_data Examples.toy_camb 0.31 None
                (Examples.generator 3 1,
                 {| files := [(filename (Examples.generator 3 1), [])]; trace := [] |}))
  = (set_data (Examples.generator 3 1) (Some []),
     {| files := [(filename (Examples.generator 3 1), [])];
        trace := [LogInfo "Loading existing CAMB data"] |}).
Proof.
  split.
  - exact (proj1 (get_data_loads_lazily Examples.toy_camb (Examples.generator 3 1)
                    Examples.empty_world 0.31 None eq_refl) eq_refl).
  - exact (proj2 (proj2 (get_data_loads_lazily Examples.toy_camb (Examples.generator 3 1)
                    {| files := [(filename (Examples.generator 3 1), [])]; trace := [] |}
                    0.31 None eq_refl) [] (Lifecycle.lookup_file_head _ _ _))).
Defined.

(** X9.  Once a call of [get_data] has returned, the generator holds a table,
    and from then on [get_data] is read-only: any further call, whatever
    its outcome, leaves instance and world as they are, and the same call
    again returns the same triple. *)
Theorem get_data_settles camb om h0o s v s' :
  get_data camb om h0o s = (Return v, s') ->
  (exists t, data (fst s') = Some t) /\
  get_data camb om h0o s' = (Return v, s') /\
  (forall om' h0o', snd (get_data camb om' h0o' s') = s').
Proof.
  destruct s as [self w]. intros E.
  assert (Loaded : exists t, data (fst s') = Some t /\
                             get_data camb om h0o s' = (Return v, s')).
  { destruct (get_data_cases camb self w om h0o)
      as [(t & Hd & Es)|[(_ & _ & Er)|(t & Hd & Hf & Eg & Es)]].
    - rewrite E in Es. cbn [snd] in Es. subst s'. exists t. split; assumption.
    - rewrite E in Er. discriminate Er.
    - rewrite E in Es. cbn [snd] in Es. subst s'. exists t.
      split; [reflexivity|]. now rewrite <- Eg. }
  destruct Loaded as (t & Hd & Again). split; [now exists t|]. split; [exact Again|].
  intros om' h0o'. destruct s' as [self' w']. cbn [fst] in Hd.
  rewrite (Query.get_data_loaded camb self' w' om' h0o' t Hd). reflexivity.
Qed.

Lemma get_data_settles_witness :
  exists v s',
    get_data Examples.toy_camb 0.31 None
             (Examples.generator 3 1,
              {| files := [(filename (Examples.generator 3 1), Examples.table_3x1)];
                 trace := [] |})
    = (Return v, s') /\
    (exists t, data (fst s') = Some t) /\
    get_data Examples.toy_camb 0.31 None s' = (Return v, s').
Proof.
  destruct (get_data Examples.toy_camb 0.31 None
              (Examples.generator 3 1,
               {| files := [(filename (Examples.generator 3 1), Examples.table_3x1)];
                  trace := [] |})) as [[v|e] s'] eqn:E.
  - exists v, s'. split; [reflexivity|].
    destruct (get_data_settles _ _ _ _ _ _ E) as (L & A & _). split; assumption.
  - exfalso. apply (f_equal (fun p => returns (fst p))) in E.
    vm_compute in E. discriminate E.
Defined.

End LazyLoad.

(* ===================================================================== *)
(** * Further properties of the bilinear interpolation *)
(* ===================================================================== *)

Module Blend.

Import Camb Vocabulary GenerationVocabulary Interpolation.
Import Lqa.
Local Open Scope Q_scope.

(** ** Fractional indices inside the grid *)

Lemma omch2_index_in_grid N omch2 :
  (2 <= N)%Z -> 0.05 <= omch2 -> omch2 <= 0.3 ->
  0 <= omch2_index N omch2 /\ omch2_index N omch2 <= inject_Z (N - 1).
Proof.
  intros HN Lo Hi. unfold omch2_index.
  setoid_replace (inject_Z (N - 1) * (omch2 - 0.05) / 0.25)
    with (inject_Z (N - 1) * ((omch2 - 0.05) * 4)) by field.
  apply index_in_grid; try lra.
  change 0 with (inject_Z 0). rewrite <- Zle_Qle. lia.
Qed.

Lemma h0_index_in_grid H h0q :
  (1 <= H)%Z -> (H = 1%Z \/ (0.6 <= h0q /\ h0q <= 0.8)) ->
  0 <= h0_index H h0q /\ h0_index H h0q <= inject_Z (H - 1).
Proof.
  intros HH Hh. unfold h0_index. destruct (Z.eqb_spec H 1) as [->|H1].
  - split; [lra|]. vm_compute. discriminate.
  - destruct Hh as [?|[Hl Hu]]; [contradiction|].
    setoid_replace (inject_Z (H - 1) * (h0q - 0.6) / 0.2)
      with (inject_Z (H - 1) * ((h0q - 0.6) * 5)) by field.
    apply index_in_grid; try lra.
    change 0 with (inject_Z 0). rewrite <- Zle_Qle. lia.
Qed.

Lemma floor_ceiling_in_range n q :
  0 <= q -> q <= inject_Z (n - 1) ->
  (0 <= Qfloor q)%Z /\ (Qceiling q <= n - 1)%Z.
Proof.
  intros L U. split.
  - rewrite <- (Qfloor_Z 0). now apply Qfloor_resp_le.
  - rewrite <- (Qceiling_Z (n - 1)). now apply Qceiling_resp_le.
Qed.

Lemma frac_in_unit q :
  0 <= q - inject_Z (Qfloor q) /\ q - inject_Z (Qfloor q) <= 1.
Proof.
  pose proof (Qfloor_le q) as L. pose proof (Qlt_floor q) as U.
  rewrite inject_Z_plus in U. change (inject_Z 1) with 1 in U. split; lra.
Qed.

(** ** The blend stays between the extremes of the table *)

Lemma wrap_nonneg n i : (0 <= i)%Z -> wrap n i = i.
Proof. intros Hi. unfold wrap. destruct (Z.ltb_spec i 0); [lia | reflexivity]. Qed.

Lemma cell_within lo hi t N H c i j :
  table_shape t (Z.to_nat N) (Z.to_nat H) c ->
  table_within lo hi t ->
  (0 <= i < N)%Z -> (0 <= j < H)%Z ->
  row_within lo hi (cell t i j).
Proof.
  intros [Lt Ft] Wt Hi Hj. unfold cell.
  assert (Hr : In (nth (Z.to_nat i) t []) t) by (apply nth_In; lia).
  unfold table_within in Wt. rewrite Forall_forall in Wt, Ft.
  specialize (Wt _ Hr). destruct (Ft _ Hr) as [Lr _].
  rewrite Forall_forall in Wt. apply Wt. apply nth_In. lia.
Qed.

Lemma convex4 lo hi x y v1 v2 v3 v4 :
  0 <= x -> x <= 1 -> 0 <= y -> y <= 1 ->
  lo <= v1 /\ v1 <= hi -> lo <= v2 /\ v2 <= hi ->
  lo <= v3 /\ v3 <= hi -> lo <= v4 /\ v4 <= hi ->
  lo <= v1 * (1 - x) * (1 - y) + v2 * x * (1 - y) + v3 * y * (1 - x) + v4 * x * y /\
  v1 * (1 - x) * (1 - y) + v2 * x * (1 - y) + v3 * y * (1 - x) + v4 * x * y <= hi.
Proof.
  intros X0 X1 Y0 Y1 [L1 U1] [L2 U2] [L3 U3] [L4 U4].
  assert (W1 : 0 <= (1 - x) * (1 - y)) by (apply Qmult_le_0_compat; lra).
  assert (W2 : 0 <= x * (1 - y)) by (apply Qmult_le_0_compat; lra).
  assert (W3 : 0 <= y * (1 - x)) by (apply Qmult_le_0_compat; lra).
  assert (W4 : 0 <= x * y) by (apply Qmult_le_0_compat; lra).
  assert (A1 : 0 <= (v1 - lo) * ((1 - x) * (1 - y))) by (apply Qmult_le_0_compat; lra).
  assert (A2 : 0 <= (v2 - lo) * (x * (1 - y))) by (apply Qmult_le_0_compat; lra).
  assert (A3 : 0 <= (v3 - lo) * (y * (1 - x))) by (apply Qmult_le_0_compat; lra).
  assert (A4 : 0 <= (v4 - lo) * (x * y)) by (apply Qmult_le_0_compat; lra).
  assert (B1 : 0 <= (hi - v1) * ((1 - x) * (1 - y))) by (apply Qmult_le_0_compat; lra).
  assert (B2 : 0 <= (hi - v2) * (x * (1 - y))) by (apply Qmult_le_0_compat; lra).
  assert (B3 : 0 <= (hi - v3) * (y * (1 - x))) by (apply Qmult_le_0_compat; lra).
  assert (B4 : 0 <= (hi - v4) * (x * y)) by (apply Qmult_le_0_compat; lra).
  split.
  - setoid_replace (v1 * (1 - x) * (1 - y) + v2 * x * (1 - y) + v3 * y * (1 - x) + v4 * x * y)
      with (lo + ((v1 - lo) * ((1 - x) * (1 - y)) + (v2 - lo) * (x * (1 - y))
                  + (v3 - lo) * (y * (1 - x)) + (v4 - lo) * (x * y))) by ring.
    lra.
  - setoid_replace (v1 * (1 - x) * (1 - y) + v2 * x * (1 - y) + v3 * y * (1 - x) + v4 * x * y)
      with (hi - ((hi - v1) * ((1 - x) * (1 - y)) + (hi - v2) * (x * (1 - y))
                  + (hi - v3) * (y * (1 - x)) + (hi - v4) * (x * y))) by ring.
    lra.
Qed.

Lemma in_combine4 (a b c d : list Q) p :
  In p (combine (combine (combine a b) c) d) ->
  In (fst (fst (fst p))) a /\ In (snd (fst (fst p))) b /\
  In (snd (fst p)) c /\ In (snd p) d.
Proof.
  destruct p as [[[pa pb] pc] pd]. cbn [fst snd]. intros Hp.
  pose proof (in_combine_r _ _ _ _ Hp) as Hd.
  apply in_combine_l in Hp.
  pose proof (in_combine_r _ _ _ _ Hp) as Hc.
  apply in_combine_l in Hp.
  pose proof (in_combine_r _ _ _ _ Hp) as Hb.
  apply in_combine_l in Hp. auto.
Qed.

Lemma row_within_eq lo hi v w :
  row_eq v w -> row_within lo hi w -> row_within lo hi v.
Proof.
  unfold row_within. induction 1 as [|a b v w Eab _ IH]; intros Hw; constructor.
  - inversion Hw as [|? ? [L U] _]; subst. rewrite Eab. split; assumption.
  - apply IH. now inversion Hw.
Qed.

Lemma bilinear_within lo hi t N H c oi hi' :
  table_shape t (Z.to_nat N) (Z.to_nat H) c ->
  table_within lo hi t ->
  (0 <= Qfloor oi)%Z -> (Qceiling oi <= N - 1)%Z ->
  (0 <= Qfloor hi')%Z -> (Qceiling hi' <= H - 1)%Z ->
  row_within lo hi (bilinear t N H oi hi').
Proof.
  intros Sh Wt O0 O1 H0 H1.
  pose proof (Qfloor_le_ceiling oi). pose proof (Qfloor_le_ceiling hi').
  unfold bilinear. rewrite !wrap_nonneg by lia.
  assert (C1 := cell_within lo hi t N H c (Qfloor oi) (Qfloor hi') Sh Wt
                  ltac:(lia) ltac:(lia)).
  assert (C2 := cell_within lo hi t N H c (Qceiling oi) (Qfloor hi') Sh Wt
                  ltac:(lia) ltac:(lia)).
  assert (C3 := cell_within lo hi t N H c (Qfloor oi) (Qceiling hi') Sh Wt
                  ltac:(lia) ltac:(lia)).
  assert (C4 := cell_within lo hi t N H c (Qceiling oi) (Qceiling hi') Sh Wt
                  ltac:(lia) ltac:(lia)).
  unfold row_within in *. rewrite Forall_forall in *.
  intros a Ha. apply in_map_iff in Ha as (p & <- & Hp).
  apply in_combine4 in Hp. destruct Hp as (P1 & P2 & P3 & P4).
  destruct p as [[[v1 v2] v3] v4]. cbn [fst snd] in *.
  destruct (frac_in_unit oi). destruct (frac_in_unit hi').
  apply convex4; auto.
Qed.

(** X10.  Interpolation never overshoots.  On a generator built by [__init__]
    with at least two omch2 samples, loaded with a table of its shape, a
    query inside the grid (omch2 from 0.05 to 0.3 and, on an H0 grid of
    several samples, h0 from 0.6 to below 0.8) returns a row every entry
    of which lies between the smallest and the largest entry of the table:
    bounds that hold for the whole table hold for every interpolated
    spectrum. *)
Theorem interpolation_within_table_range
        dir z N H h ob n w g t c omch2 h0q lo hi :
  fst (__init__ dir z N H h ob n w) = Return g ->
  (2 <= N)%Z -> (1 <= H)%Z ->
  table_shape t (Z.to_nat N) (Z.to_nat H) c ->
  0.05 <= omch2 -> omch2 <= 0.3 ->
  (H = 1%Z \/ (0.6 <= h0q /\ h0q < 0.8)) ->
  table_within lo hi t ->
  exists row,
    _interpolate (set_data g (Some t)) omch2 h0q = Return row /\
    List.length row = c /\
    row_within lo hi row.
Proof.
  intros Hg HN HH Sh Lo Hi Hh' Wt.
  assert (Hh : H = 1%Z \/ (0.6 <= h0q /\ h0q <= 0.8))
    by (destruct Hh' as [H1|[Hl Hu]]; [now left | right; split; lra]).
  destruct (interpolate_on_init_grid dir z N H h ob n w g t omch2 h0q Hg HN HH)
    as (oi & hi' & Eo & Eh & Ei).
  destruct (omch2_index_in_grid N omch2 HN Lo Hi) as [Bo0 Bo1].
  destruct (h0_index_in_grid H h0q HH Hh) as [Bh0 Bh1].
  rewrite <- Eo in Bo0, Bo1. rewrite <- Eh in Bh0, Bh1.
  destruct (floor_ceiling_in_range N oi Bo0 Bo1) as [Fo Co].
  destruct (floor_ceiling_in_range H hi' Bh0 Bh1) as [Fh Ch].
  assert (R : result_eq (interp_at H t oi hi') (Return (bilinear t N H oi hi'))).
  { apply (interp_at_in_range t N H c); try exact Sh; try lia.
    intros ->. rewrite Eh. reflexivity. }
  rewrite <- Ei in R.
  destruct (_interpolate (set_data g (Some t)) omch2 h0q) as [row|e] eqn:E;
    [|contradiction].
  exists row. split; [reflexivity|]. split.
  - exact (Query.interpolate_length (set_data g (Some t)) t _ _ _ _ _ _ eq_refl Sh E).
  - eapply row_within_eq; [exact R|].
    now apply (bilinear_within lo hi t N H c).
Qed.

Lemma table_withinb_sound lo hi t :
  table_withinb lo hi t = true -> table_within lo hi t.
Proof.
  unfold table_withinb, table_within, row_withinb, row_within. intros E.
  rewrite forallb_forall in E. apply Forall_forall. intros r Hr.
  specialize (E r Hr). rewrite forallb_forall in E. apply Forall_forall.
  intros cl Hc. specialize (E cl Hc). rewrite forallb_forall in E.
  apply Forall_forall. intros a Ha. specialize (E a Ha).
  apply andb_true_iff in E as [E1 E2]. apply Qle_bool_iff in E1, E2. now split.
Qed.

Lemma interpolation_within_table_range_witness :
  exists row,
    _interpolate Examples.loaded_3x2 0.1 0.7 = Return row /\
    List.length row = S (3 * 2000) /\
    row_within 0 1000 row.
Proof.
  apply (interpolation_within_table_range
           "/barry/cosmology" 0.51 3 2 0.676 0.04814 0.97 Examples.empty_world
           (Examples.generator 3 2) Examples.table_3x2 (S (3 * 2000)) 0.1 0.7 0 1000).
  - vm_compute. reflexivity.
  - lia.
  - lia.
  - apply table_shapeb_sound. vm_compute. reflexivity.
  - apply Qle_bool_iff. vm_compute. reflexivity.
  - apply Qle_bool_iff. vm_compute. reflexivity.
  - right. split; [apply Qle_bool_iff; vm_compute; reflexivity | reflexivity].
  - apply table_withinb_sound. vm_compute. reflexivity.
Defined.

(** ** Between two neighbouring omch2 samples *)

Lemma floor_between i q :
  inject_Z i <= q -> q < inject_Z i + 1 -> Qfloor q = i.
Proof.
  intros L U.
  assert (A : (Qfloor q < i + 1)%Z).
  { rewrite Zlt_Qlt, inject_Z_plus. change (inject_Z 1) with 1.
    eapply Qle_lt_trans; [apply Qfloor_le | exact U]. }
  assert (B : (i < Qfloor q + 1)%Z).
  { rewrite Zlt_Qlt. eapply Qle_lt_trans; [exact L | apply Qlt_floor]. }
  lia.
Qed.

Lemma ceiling_between i q :
  inject_Z i < q -> q <= inject_Z i + 1 -> Qceiling q = (i + 1)%Z.
Proof.
  intros L U.
  assert (A : (Qceiling q <= i + 1)%Z).
  { rewrite <- (Qceiling_Z (i + 1)). apply Qceiling_resp_le.
    rewrite inject_Z_plus. exact U. }
  assert (B : (i < Qceiling q)%Z).
  { rewrite Zlt_Qlt. eapply Qlt_le_trans; [exact L | apply Qle_ceiling]. }
  lia.
Qed.

Lemma map_combine_snd {A B C} (f : B -> C) (l : list A) (m : list B) :
  List.length l = List.length m ->
  map (fun p => f (snd p)) (combine l m) = map f m.
Proof.
  revert m. induction l as [|a l IH]; intros [|b m] E; simpl in *;
    try reflexivity; try discriminate.
  f_equal. apply IH. now injection E.
Qed.

Lemma row_eq_map_id (f : Q -> Q) v :
  (forall a, f a == a) -> row_eq (map f v) v.
Proof.
  intros Hf. induction v as [|a v IH]; simpl; constructor; [apply Hf | exact IH].
Qed.

Lemma combine_diag {A} (v : list A) : combine v v = map (fun a => (a, a)) v.
Proof. induction v as [|a v IH]; simpl; [reflexivity | now rewrite IH]. Qed.

(** The blend along omch2 of the cells at the floor and ceil of [oi], for
    one H0 sample. *)
Lemma interp_at_single_h0 t N c oi hi :
  table_shape t (Z.to_nat N) 1 c -> hi == 0 ->
  (0 <= Qfloor oi)%Z -> (Qceiling oi <= N - 1)%Z ->
  result_eq (interp_at 1 t oi hi)
            (Return (map (fun p => fst p * (1 - (oi - inject_Z (Qfloor oi)))
                                  + snd p * (oi - inject_Z (Qfloor oi)))
                         (combine (cell t (Qfloor oi) 0) (cell t (Qceiling oi) 0)))) /\
  List.length (cell t (Qfloor oi) 0) = c /\
  List.length (cell t (Qceiling oi) 0) = c.
Proof.
  intros Sh E0 F C. pose proof (Qfloor_le_ceiling oi).
  destruct (subscript2_in_range t N 1 c (Qfloor oi) 0 Sh) as [E1 L1]; try lia.
  destruct (subscript2_in_range t N 1 c (Qceiling oi) 0 Sh) as [E2 L2]; try lia.
  rewrite !wrap_nonneg in E1, E2, L1, L2 by lia.
  split; [|split; assumption].
  unfold interp_at. cbn [Z.eqb Pos.eqb].
  rewrite (Qfloor_eq _ _ E0). change (Qfloor 0) with 0%Z.
  rewrite E1, E2. cbn [Py.bind result_eq]. rewrite blend2_as_map.
  apply row_eq_map. intros [a b] _. cbn [fst snd].
  rewrite E0. change (inject_Z 0) with 0. ring.
Qed.

(** X11.  With a single H0 sample, [_interpolate] is piecewise linear in omch2
    with its knots at the grid samples.  For two neighbouring samples
    [omch2s[i]] and [omch2s[i+1]] and a query a fraction [s] of the way
    from the first to the second, ends included, the result is
    [(1 - s) * data[i][0] + s * data[i+1][0]], entry by entry. *)
Theorem interpolation_between_neighbours
        dir z N h ob n w g t c i s omch2 h0q gi gj :
  fst (__init__ dir z N 1 h ob n w) = Return g ->
  (2 <= N)%Z ->
  table_shape t (Z.to_nat N) 1 c ->
  (0 <= i)%Z -> (i + 1 < N)%Z ->
  getitem (omch2s g) i = Return gi ->
  getitem (omch2s g) (i + 1) = Return gj ->
  0 <= s -> s <= 1 ->
  omch2 == gi + s * (gj - gi) ->
  result_eq (_interpolate (set_data g (Some t)) omch2 h0q)
            (Return (Np.add (Np.scale (cell t i 0) (1 - s))
                            (Np.scale (cell t (i + 1) 0) s))).
Proof.
  intros Hg HN Sh Hi0 Hi1 Egi Egj S0 S1 Eom.
  destruct (Fingerprint.init_inv _ _ _ _ _ _ _ _ _ Hg)
    as (_ & _ & _ & _ & _ & _ & _ & _ & Lo & _).
  destruct (interpolate_on_init_grid dir z N 1 h ob n w g t omch2 h0q Hg HN ltac:(lia))
    as (oi & hi & Eo & Eh & Ei).
  assert (E0 : hi == 0) by exact Eh.
  (* the fractional index is i + s *)
  assert (Eoi : oi == inject_Z i + s).
  { apply linspace_inv in Lo. destruct Lo as (_ & _ & Lk & _).
    destruct (Lk i ltac:(lia)) as (v & Ev & [Qv|[? _]]); [|lia].
    rewrite Egi in Ev. injection Ev as <-.
    destruct (Lk (i + 1)%Z ltac:(lia)) as (v & Ev & [Qv'|[? _]]); [|lia].
    rewrite Egj in Ev. injection Ev as <-.
    rewrite Eo. unfold omch2_index. rewrite Eom, Qv', Qv, inject_Z_plus.
    change (inject_Z 1) with 1. field.
    intros Z0. assert (E' : inject_Z (N - 1) == inject_Z 0) by exact Z0.
    apply (proj1 (inject_Z_injective _ _)) in E'. lia. }
  rewrite Ei. clear Ei.
  unfold Np.scale. rewrite add_map_combine.
  destruct (subscript2_in_range t N 1 c i 0 Sh) as [_ Li]; try lia.
  destruct (subscript2_in_range t N 1 c (i + 1) 0 Sh) as [_ Lj]; try lia.
  rewrite !wrap_nonneg in Li, Lj by lia.
  destruct (Qlt_le_dec s 1) as [Slt|Sge].
  - (* strictly before the next sample: the floor is i *)
    assert (Fl : Qfloor oi = i) by (apply floor_between; rewrite Eoi; lra).
    destruct (Qlt_le_dec 0 s) as [Spos|Szero].
    + assert (Ce : Qceiling oi = (i + 1)%Z) by (apply ceiling_between; rewrite Eoi; lra).
      destruct (interp_at_single_h0 t N c oi hi Sh E0 ltac:(lia) ltac:(lia)) as (E & _).
      eapply result_eq_trans; [exact E|]. rewrite Fl, Ce. cbn [result_eq].
      apply row_eq_map. intros [a b] _. cbn [fst snd]. rewrite Eoi. ring.
    + assert (Es : s == 0) by lra.
      assert (Ce : Qceiling oi = i).
      { rewrite (Qceiling_eq oi (inject_Z i)) by (rewrite Eoi, Es; ring).
        apply Qceiling_Z. }
      destruct (interp_at_single_h0 t N c oi hi Sh E0 ltac:(lia) ltac:(lia)) as (E & _).
      eapply result_eq_trans; [exact E|]. rewrite Fl, Ce. cbn [result_eq].
      eapply row_eq_trans.
      * rewrite combine_diag, map_map. cbn [fst snd].
        apply (row_eq_map_id (fun a => a * (1 - (oi - inject_Z i))
                                       + a * (oi - inject_Z i))).
        intros a. ring.
      * apply row_eq_sym. eapply row_eq_trans.
        -- apply (row_eq_map _ (fun p => fst p)). intros [a b] _. cbn [fst snd].
           rewrite Es. ring.
        -- rewrite (map_combine_fst (fun a : Q => a)) by congruence.
           rewrite map_id. apply row_eq_refl.
  - (* on the next sample *)
    assert (Es : s == 1) by lra.
    assert (En : oi == inject_Z (i + 1))
      by (rewrite Eoi, Es, inject_Z_plus; reflexivity).
    assert (Fl : Qfloor oi = (i + 1)%Z) by (rewrite (Qfloor_eq _ _ En); apply Qfloor_Z).
    assert (Ce : Qceiling oi = (i + 1)%Z)
      by (rewrite (Qceiling_eq _ _ En); apply Qceiling_Z).
    destruct (interp_at_single_h0 t N c oi hi Sh E0 ltac:(lia) ltac:(lia)) as (E & _).
    eapply result_eq_trans; [exact E|]. rewrite Fl, Ce. cbn [result_eq].
    eapply row_eq_trans.
    + rewrite combine_diag, map_map. cbn [fst snd].
      apply (row_eq_map_id (fun a => a * (1 - (oi - inject_Z (i + 1)))
                                     + a * (oi - inject_Z (i + 1)))).
      intros a. ring.
    + apply row_eq_sym. eapply row_eq_trans.
      * apply (row_eq_map _ (fun p => snd p)). intros [a b] _. cbn [fst snd].
        rewrite Es. ring.
      * rewrite (map_combine_snd (fun a : Q => a)) by congruence.
        rewrite map_id. apply row_eq_refl.
Qed.

Lemma interpolation_between_neighbours_witness :
  exists gi gj,
    getitem (omch2s (Examples.generator 3 1)) 0 = Return gi /\
    getitem (omch2s (Examples.generator 3 1)) 1 = Return gj /\
    result_eq (_interpolate Examples.loaded_3x1 (gi + (1 # 4) * (gj - gi)) 0.676)
              (Return (Np.add (Np.scale (cell Examples.table_3x1 0 0) (1 - (1 # 4)))
                              (Np.scale (cell Examples.table_3x1 (0 + 1) 0) (1 # 4)))).
Proof.
  eexists. eexists.
  split; [vm_compute; reflexivity|]. split; [vm_compute; reflexivity|].
  eapply (interpolation_between_neighbours
            "/barry/cosmology" 0.51 3 0.676 0.04814 0.97 Examples.empty_world
            (Examples.generator 3 1) Examples.table_3x1 (S (3 * 2000)) 0 (1 # 4)).
  - vm_compute. reflexivity.
  - lia.
  - apply table_shapeb_sound. vm_compute. reflexivity.
  - lia.
  - lia.
  - vm_compute. reflexivity.
  - vm_compute. reflexivity.
  - apply Qle_bool_iff. vm_compute. reflexivity.
  - apply Qle_bool_iff. vm_compute. reflexivity.
  - reflexivity.
Defined.

(** ** Before the table is loaded *)

Lemma interpolate_on_init_grid_unloaded dir z N H h ob n w g omch2 h0q :
  fst (__init__ dir z N H h ob n w) = Return g ->
  (2 <= N)%Z -> (1 <= H)%Z ->
  _interpolate g omch2 h0q = Raise TypeError.
Proof.
  intros Hg HN HH.
  destruct (Fingerprint.init_inv _ _ _ _ _ _ _ _ _ Hg)
    as (_ & _ & EN & EH & _ & _ & _ & Ed & Lo & Lh).
  apply linspace_inv in Lo. destruct Lo as (_ & _ & _ & Lo0 & LoN).
  destruct (Lo0 ltac:(lia)) as (g0 & Eg0 & Qg0). specialize (LoN HN).
  unfold _interpolate. rewrite Eg0, LoN, EN, EH, Ed. cbn [Py.bind].
  assert (Nz : ~ 0.3 - g0 == 0) by (rewrite Qg0; intros E; vm_compute in E; discriminate E).
  rewrite (divide_nonzero _ _ Nz).
  destruct (Z.eqb_spec H 1) as [->|H1].
  - reflexivity.
  - apply linspace_inv in Lh. destruct Lh as (_ & _ & _ & Lh0 & LhN).
    destruct (Lh0 ltac:(lia)) as (h_0 & Eh0 & Qh0). specialize (LhN ltac:(lia)).
    rewrite Eh0, LhN. cbn [Py.bind].
    assert (Nh : ~ 0.8 - h_0 == 0) by (rewrite Qh0; intros E; vm_compute in E; discriminate E).
    rewrite (divide_nonzero _ _ Nh). reflexivity.
Qed.

(** X12.  A generator that holds no table never interpolates: whatever its
    grids and the query, [_interpolate] raises; on a generator built by
    [__init__] with at least two omch2 samples the exception is the
    [TypeError] of subscripting [None]. *)
Theorem interpolate_needs_table :
  (forall self omch2 h0q,
     data self = None -> exists e, _interpolate self omch2 h0q = Raise e) /\
  (forall dir z N H h ob n w g omch2 h0q,
     fst (__init__ dir z N H h ob n w) = Return g ->
     (2 <= N)%Z -> (1 <= H)%Z ->
     _interpolate g omch2 h0q = Raise TypeError).
Proof.
  split; [|exact interpolate_on_init_grid_unloaded].
  intros self omch2 h0q Hd. unfold _interpolate. rewrite Hd.
  destruct (getitem (omch2s self) 0) as [g0|e]; cbn [Py.bind]; [|eexists; reflexivity].
  destruct (getitem (omch2s self) (-1)) as [gN|e]; cbn [Py.bind]; [|eexists; reflexivity].
  destruct (if (h0_resolution self =? 1)%Z then _ else _) as [hi|e];
    cbn [Py.bind]; [|eexists; reflexivity].
  destruct (Np.divide _ (gN - g0)) as [oi|]; cbn [Np.int_floor Py.bind];
    [|eexists; reflexivity].
  destruct hi as [hi|]; cbn [Np.int_floor Py.bind]; eexists; reflexivity.
Qed.

Lemma interpolate_needs_table_witness :
  _interpolate (Examples.generator 101 1) 0.1 0.676 = Raise TypeError.
Proof.
  apply (proj2 interpolate_needs_table
               "/barry/cosmology"%string 0.51 101%Z 1%Z 0.676 0.04814 0.97
               Examples.empty_world (Examples.generator 101 1) 0.1 0.676 eq_refl);
    lia.
Defined.

End Blend.

(* ===================================================================== *)
(** * Queries on a generator with a single H0 sample *)
(* ===================================================================== *)

Module SingleH0.

Import Camb Vocabulary GenerationVocabulary Interpolation.
Import Lqa.
Local Open Scope Q_scope.

(** With one H0 sample the interpolation reads its query through omch2
    alone, as a rational number. *)
Lemma interpolate_single_h0_comp self omch2 omch2' h0q h0q' :
  h0_resolution self = 1%Z ->
  omch2 == omch2' ->
  result_eq (_interpolate self omch2 h0q) (_interpolate self omch2' h0q').
Proof.
  intros H1 Eom. unfold _interpolate. rewrite H1. cbn [Z.eqb Pos.eqb].
  destruct (getitem (omch2s self) 0) as [g0|e]; [|reflexivity].
  destruct (getitem (omch2s self) (-1)) as [gN|e]; [|reflexivity].
  cbn [Py.bind].
  assert (E : 1 * inject_Z (om_resolution self - 1) * (omch2 - g0) ==
              1 * inject_Z (om_resolution self - 1) * (omch2' - g0))
    by (rewrite Eom; reflexivity).
  pose proof (divide_comp _ _ (gN - g0) E) as D.
  destruct (Np.divide (1 * inject_Z (om_resolution self - 1) * (omch2 - g0)) (gN - g0))
    as [oi|];
  destruct (Np.divide (1 * inject_Z (om_resolution self - 1) * (omch2' - g0)) (gN - g0))
    as [oi'|]; try contradiction; [|reflexivity].
  cbn [Np.int_floor Np.int_ceil Py.bind].
  rewrite (Qfloor_eq _ _ D), (Qceiling_eq _ _ D).
  destruct (subscript2 (data self) (Qfloor oi') (Qfloor 0)) as [v1|e]; [|reflexivity].
  cbn [Py.bind].
  destruct (subscript2 (data self) (Qceiling oi') (Qfloor 0)) as [v2|e]; [|reflexivity].
  cbn [Py.bind result_eq]. rewrite !blend2_as_map.
  apply row_eq_map. intros [a b] _. cbn [fst snd]. rewrite D. reflexivity.
Qed.

Lemma getitem_row_eq v w i :
  row_eq v w ->
  match getitem v i, getitem w i with
  | Return a, Return b => a == b
  | Raise e1, Raise e2 => e1 = e2
  | _, _ => False
  end.
Proof.
  intros E. pose proof (Query.row_eq_length _ _ E) as L.
  unfold getitem. rewrite <- L.
  destruct ((0 <=? _)%Z && _); [|reflexivity].
  set (k := Z.to_nat (if (i <? 0)%Z then (i + Z.of_nat (List.length v))%Z else i)).
  clearbody k. revert k. induction E as [|a b v w Eab _ IH]; intros [|k]; cbn; auto.
  apply IH. now injection L.
Qed.

(** X13.  On a loaded generator with a single H0 sample (the default),
    [get_data(om, h0)] depends on its two arguments only through
    [omch2 = (om - omega_b) * h0 * h0]: two queries with the same omch2
    end alike, in the same exception or in triples equal entry by entry,
    however different their [h0]. *)
Theorem single_h0_query_depends_on_omch2 camb self w t om om' h0q h0q' :
  h0_resolution self = 1%Z ->
  data self = Some t ->
  (om - omega_b self) * h0q * h0q == (om' - omega_b self) * h0q' * h0q' ->
  answer_eq (fst (get_data camb om (Some h0q) (self, w)))
            (fst (get_data camb om' (Some h0q') (self, w))).
Proof.
  intros H1 Hd Eom.
  rewrite (Query.get_data_loaded camb self w om (Some h0q) t Hd),
          (Query.get_data_loaded camb self w om' (Some h0q') t Hd).
  cbv zeta. cbn [fst].
  pose proof (interpolate_single_h0_comp self _ _ h0q h0q' H1 Eom) as R.
  destruct (_interpolate self ((om - omega_b self) * h0q * h0q) h0q) as [row|e];
    destruct (_interpolate self ((om' - omega_b self) * h0q' * h0q') h0q') as [row'|e'];
    cbn [result_eq] in R; try contradiction; [|exact R].
  pose proof (getitem_row_eq row row' 0 R) as G.
  destruct (getitem row 0) as [a|e]; destruct (getitem row' 0) as [b|e'];
    try contradiction; [|exact G].
  cbn [answer_eq]. split; [exact G|]. split; now apply Query.row_eq_slice.
Qed.

Lemma single_h0_query_depends_on_omch2_witness :
  answer_eq
    (fst (get_data Examples.toy_camb 0.24814 (Some 1)
                   (Examples.loaded_3x1, Examples.empty_world)))
    (fst (get_data Examples.toy_camb 0.84814 (Some 0.5)
                   (Examples.loaded_3x1, Examples.empty_world))).
Proof.
  apply (single_h0_query_depends_on_omch2 Examples.toy_camb Examples.loaded_3x1
           Examples.empty_world Examples.table_3x1 0.24814 0.84814 1 0.5).
  - reflexivity.
  - reflexivity.
  - vm_compute. reflexivity.
Defined.

End SingleH0.

(* ===================================================================== *)
(** * From generation to query, and the benchmark queries *)
(* ===================================================================== *)

Module EndToEnd.

Import Camb Vocabulary GenerationVocabulary Interpolation.
Import Lqa.
Local Open Scope Q_scope.

Lemma getitem_of_nth_error {A} (l : list A) (k : nat) (a : A) :
  nth_error l k = Some a ->
  getitem l (Z.of_nat k) = Return a /\ (Z.of_nat k < Z.of_nat (List.length l))%Z.
Proof.
  intros E. assert (Hk : (k < List.length l)%nat) by (apply nth_error_Some; congruence).
  split; [|lia]. unfold getitem.
  destruct (Z.ltb_spec (Z.of_nat k) 0); [lia|].
  destruct (Z.leb_spec 0 (Z.of_nat k)); [|lia].
  destruct (Z.ltb_spec (Z.of_nat k) (Z.of_nat (List.length l))); [|lia].
  cbn [andb]. now rewrite Nat2Z.id, E.
Qed.

(** A query on a grid node reads the node's cell. *)
Lemma interpolate_on_node dir z N H h ob n w g t c omch2 h0q i j gi :
  fst (__init__ dir z N H h ob n w) = Return g ->
  (2 <= N)%Z -> (1 <= H)%Z ->
  table_shape t (Z.to_nat N) (Z.to_nat H) c ->
  (0 <= i < N)%Z -> (0 <= j < H)%Z ->
  getitem (omch2s g) i = Return gi ->
  omch2 == gi ->
  (H = 1%Z \/ exists hj, getitem (h0s g) j = Return hj /\ h0q == hj) ->
  result_eq (_interpolate (set_data g (Some t)) omch2 h0q) (Return (cell t i j)).
Proof.
  intros Hg HN HH Sh Hi Hj Egi Eom Hnode.
  destruct (Fingerprint.init_inv _ _ _ _ _ _ _ _ _ Hg)
    as (_ & _ & _ & _ & _ & _ & _ & _ & Lo & Lh).
  destruct (interpolate_on_init_grid dir z N H h ob n w g t omch2 h0q Hg HN HH)
    as (oi & hi & Eo & Eh & Ei).
  assert (Eoi : oi == inject_Z i).
  { rewrite Eo, (Query.omch2_index_comp _ _ _ Eom).
    apply Query.index_on_omch2_node; [exact HN|].
    apply linspace_inv in Lo. destruct Lo as (_ & _ & Lk & _).
    destruct (Lk i Hi) as (v & Ev & [Qv|[? _]]); [|lia].
    rewrite Egi in Ev. injection Ev as <-. exact Qv. }
  assert (Ehi : hi == inject_Z j).
  { rewrite Eh. destruct Hnode as [->|(hj & Ehj & Qh)].
    - assert (j = 0%Z) by lia. subst j. reflexivity.
    - destruct (Z.eq_dec H 1) as [->|H1].
      + assert (j = 0%Z) by lia. subst j. reflexivity.
      + rewrite (Query.h0_index_comp _ _ _ Qh).
        apply Query.index_on_h0_node; [lia|].
        destruct (Z.eqb_spec H 1); [contradiction|].
        apply linspace_inv in Lh. destruct Lh as (_ & _ & Lk & _).
        destruct (Lk j Hj) as (v & Ev & [Qv|[? _]]); [|lia].
        rewrite Ehj in Ev. injection Ev as <-. exact Qv. }
  rewrite Ei. eapply result_eq_trans.
  - apply (interp_at_in_range t N H c); try exact Sh.
    + rewrite (Qfloor_eq _ _ Eoi), Qfloor_Z. lia.
    + rewrite (Qceiling_eq _ _ Eoi), Qceiling_Z. lia.
    + rewrite (Qfloor_eq _ _ Ehi), Qfloor_Z. lia.
    + rewrite (Qceiling_eq _ _ Ehi), Qceiling_Z. lia.
    + intros ->. rewrite Ehi. assert (j = 0%Z) by lia. subst j. reflexivity.
  - cbn [result_eq]. apply Query.bilinear_on_node; try assumption; lia.
Qed.

(** The two slices of [get_data] on a row laid out as [_generate_data]
    lays it out. *)
Lemma slices_of_layout (r : Q) (lin nl0 nl1 : list Q) (K : nat) :
  List.length lin = K -> List.length nl0 = K -> List.length nl1 = K ->
  slice (r :: lin ++ nl0 ++ nl1)%list 1 (Some (1 + Z.of_nat K)%Z) = lin /\
  slice (r :: lin ++ nl0 ++ nl1)%list (1 + 2 * Z.of_nat K)%Z None = nl1.
Proof.
  intros L1 L2 L3. split.
  - replace 1%Z with (Z.of_nat 1) at 1 by reflexivity.
    replace (1 + Z.of_nat K)%Z with (Z.of_nat (S K)) by lia.
    rewrite Query.slice_from_to by (cbn [List.length]; rewrite !length_app; lia).
    replace (S K - 1)%nat with K by lia. cbn [skipn].
    rewrite firstn_app, L1, Nat.sub_diag, <- L1, firstn_all. cbn [firstn].
    apply List.app_nil_r.
  - replace (1 + 2 * Z.of_nat K)%Z with (Z.of_nat (S (2 * K))) by lia.
    rewrite Query.slice_from by (cbn [List.length]; rewrite !length_app; lia).
    cbn [skipn]. rewrite skipn_app, L1.
    rewrite (skipn_all2 lin) by lia. cbn [app].
    replace (2 * K - K)%nat with K by lia.
    rewrite skipn_app, L2, Nat.sub_diag.
    rewrite (skipn_all2 nl0) by lia. reflexivity.
Qed.

(** X14.  From generation to query.  With a solver that honours its contract, a
    generator built by [__init__] that generates its table on a cache miss
    and is then queried on a grid node [(omch2s[a], h0s[b])], not the last
    sample of the omch2 axis nor, on an H0 grid of several samples, of the
    H0 axis, returns what the solver computed for that node: the sound
    horizon [rdrag] of the linear run, the linear spectrum of redshift
    row 1 and the nonlinear spectrum of redshift row 1.  Row 0 of the
    nonlinear table, which is stored too, is not returned. *)
Theorem node_query_returns_solver_output
        camb dir z N H h ob n w0 g w om h0q a b gi hj :
  solver_contract camb ->
  fst (__init__ dir z N H h ob n w0) = Return g ->
  (2 <= N)%Z -> (1 <= H)%Z ->
  (Z.of_nat a + 1 < N)%Z ->
  path_exists (filename g) w = false ->
  nth_error (omch2s g) a = Some gi ->
  nth_error (h0s g) b = Some hj ->
  (om - ob) * h0q * h0q == gi ->
  (H = 1%Z \/ ((Z.of_nat b + 1 < H)%Z /\ h0q == hj)) ->
  exists s1 rl rnl lin0 lin nl0 nl1 r_s pk_lin pk_nl,
    load_data camb true (g, w) = (Return tt, s1) /\
    camb (solver_pars g gi hj false) = Return rl /\
    matter_power rl = [lin0; lin] /\
    camb (solver_pars g gi hj true) = Return rnl /\
    matter_power rnl = [nl0; nl1] /\
    get_data camb om (Some h0q) s1 = (Return (r_s, pk_lin, pk_nl), s1) /\
    r_s == rdrag rl /\ row_eq pk_lin lin /\ row_eq pk_nl nl1.
Proof.
  intros Ok Hg HN HH Hlast Miss Ha Hb Eom Hnode.
  destruct (Fingerprint.init_inv _ _ _ _ _ _ _ _ _ Hg)
    as (_ & _ & _ & _ & _ & Eob & Ek & _ & Lo & Lh).
  assert (LN : List.length (omch2s g) = Z.to_nat N).
  { apply linspace_inv in Lo. apply Lo. }
  assert (LH : List.length (h0s g) = Z.to_nat H).
  { destruct (Z.eqb_spec H 1) as [->|H1].
    - injection Lh as <-. reflexivity.
    - apply linspace_inv in Lh. apply Lh. }
  destruct (Lifecycle.generate_data_ok camb Ok g w) as (t & w' & Eg & _ & Sh).
  rewrite LN, LH, Ek in Sh.
  assert (El : load_data camb true (g, w) = (Return tt, (set_data g (Some t), w')))
    by (rewrite (TableGeneration.load_data_miss _ _ _ Miss), Eg; reflexivity).
  destruct (TableGeneration.generate_data_stores camb Ok g w t w' a b gi hj Eg Ha Hb)
    as (rl & rnl & lin0 & lin & nl0 & nl1 & Erl & Ml & Ernl & Mnl & Ec & L1 & L2 & L3).
  destruct (getitem_of_nth_error _ _ _ Ha) as [Ga La].
  destruct (getitem_of_nth_error _ _ _ Hb) as [Gb Lb].
  assert (R : result_eq (_interpolate (set_data g (Some t)) ((om - ob) * h0q * h0q) h0q)
                        (Return (cell t (Z.of_nat a) (Z.of_nat b)))).
  { apply (interpolate_on_node dir z N H h ob n w0 g t (S (3 * 2000)) _ h0q
             (Z.of_nat a) (Z.of_nat b) gi Hg HN HH Sh); try lia; try assumption.
    destruct Hnode as [?|[_ Qh]]; [now left|]. right. now exists hj. }
  exists (set_data g (Some t), w'), rl, rnl, lin0, lin, nl0, nl1.
  rewrite (Query.get_data_loaded camb (set_data g (Some t)) w' om (Some h0q) t eq_refl).
  cbv zeta. cbn [set_data omega_b k_num]. rewrite Eob, Ek.
  destruct (_interpolate (set_data g (Some t)) ((om - ob) * h0q * h0q) h0q)
    as [row|e]; [|contradiction].
  cbn [result_eq] in R. rewrite Ec in R.
  rewrite Ek in L1, L2, L3.
  destruct (slices_of_layout (rdrag rl) lin nl0 nl1 (Z.to_nat 2000) L1 L2 L3)
    as [S1 S2].
  rewrite Z2Nat.id in S1, S2 by lia.
  inversion R as [|rs c0 row' cell' Ers Erest]; subst.
  exists rs, (slice (rs :: row') 1 (Some (1 + 2000)%Z)),
         (slice (rs :: row') (1 + 2 * 2000)%Z None).
  split; [exact El|]. split; [exact Erl|]. split; [exact Ml|].
  split; [exact Ernl|]. split; [exact Mnl|]. split; [reflexivity|].
  split; [exact Ers|]. split.
  - rewrite <- S1. apply Query.row_eq_slice. constructor; assumption.
  - rewrite <- S2. apply Query.row_eq_slice. constructor; assumption.
Qed.

Lemma node_query_returns_solver_output_witness :
  exists gi s1 rl rnl lin0 lin nl0 nl1 r_s pk_lin pk_nl,
    nth_error (omch2s (Examples.generator 3 1)) 1 = Some gi /\
    load_data Examples.toy_camb true (Examples.generator 3 1, Examples.empty_world)
    = (Return tt, s1) /\
    Examples.toy_camb (solver_pars (Examples.generator 3 1) gi 0.676 false) = Return rl /\
    matter_power rl = [lin0; lin] /\
    Examples.toy_camb (solver_pars (Examples.generator 3 1) gi 0.676 true) = Return rnl /\
    matter_power rnl = [nl0; nl1] /\
    get_data Examples.toy_camb 0.22314 (Some 1) s1 = (Return (r_s, pk_lin, pk_nl), s1) /\
    r_s == rdrag rl /\ row_eq pk_lin lin /\ row_eq pk_nl nl1.
Proof.
  destruct (nth_error (omch2s (Examples.generator 3 1)) 1) as [gi|] eqn:Eg;
    [|vm_compute in Eg; discriminate Eg].
  exists gi.
  destruct (node_query_returns_solver_output Examples.toy_camb
              "/barry/cosmology" 0.51 3 1 0.676 0.04814 0.97 Examples.empty_world
              (Examples.generator 3 1) Examples.empty_world 0.22314 1 1%nat 0%nat
              gi 0.676 Lifecycle.toy_camb_contract eq_refl)
    as (s1 & rl & rnl & lin0 & lin & nl0 & nl1 & r_s & pk_lin & pk_nl & Rest).
  - lia.
  - lia.
  - lia.
  - reflexivity.
  - exact Eg.
  - reflexivity.
  - vm_compute in Eg. injection Eg as <-. vm_compute. reflexivity.
  - left. reflexivity.
  - exists s1, rl, rnl, lin0, lin, nl0, nl1, r_s, pk_lin, pk_nl.
    split; [reflexivity | exact Rest].
Defined.

End EndToEnd.

Module BenchmarkQueries.

Import Camb Vocabulary GenerationVocabulary Interpolation Benchmark.
Import Lqa.
Local Open Scope Q_scope.

Lemma init_returns_world dir z N H h ob n w g :
  fst (__init__ dir z N H h ob n w) = Return g ->
  exists msg, __init__ dir z N H h ob n w = (Return g, emit (LogInfo msg) w).
Proof.
  unfold __init__.
  destruct (Np.linspace 0.05 0.3 N) as [oms|e]; [|discriminate].
  destruct (if (H =? 1)%Z then Return [h] else Np.linspace 0.6 0.8 H)
    as [hs|e]; [|discriminate].
  cbn [fst]. intros [= <-]. eexists. reflexivity.
Qed.

(** The set-up both helpers share, on a world whose cache holds a table
    for the default generator. *)
Lemma make_generator_loads camb dir w g t :
  fst (__init__ dir 0.61 101 1 0.676 0.04814 0.97 w) = Return g ->
  lookup_file (filename g) (files w) = Some t ->
  exists w', make_generator camb dir w = Return (set_data g (Some t), w').
Proof.
  intros Hg Hf. unfold make_generator.
  destruct (init_returns_world _ _ _ _ _ _ _ _ _ Hg) as (msg & ->).
  rewrite (TableGeneration.load_data_hit camb _ g _ t) by exact Hf.
  eexists. reflexivity.
Qed.

Lemma query_above_grid_raises dir z N H h ob n w g (t : table) omch2 h0q :
  fst (__init__ dir z N H h ob n w) = Return g ->
  (2 <= N)%Z -> (1 <= H)%Z ->
  List.length t = Z.to_nat N ->
  0.3 < omch2 ->
  _interpolate (set_data g (Some t)) omch2 h0q = Raise IndexError.
Proof.
  intros Hg HN HH Lt Hom.
  destruct (interpolate_on_init_grid dir z N H h ob n w g t omch2 h0q Hg HN HH)
    as (oi & hi & Eo & Eh & Ei).
  rewrite Ei. apply (interp_at_above t N); [exact Lt | lia |].
  rewrite Eo. unfold omch2_index.
  setoid_replace (inject_Z (N - 1) * (omch2 - 0.05) / 0.25)
    with (inject_Z (N - 1) * ((omch2 - 0.05) * 4)) by field.
  apply index_above_grid; [|lra].
  change 1 with (inject_Z 1). rewrite <- Zle_Qle. lia.
Qed.

Lemma square_from_60 v : 60 <= v -> 3600 <= v * v.
Proof.
  intros Hv.
  assert (0 <= (v - 60) * (v + 60)) by (apply Qmult_le_0_compat; lra).
  setoid_replace (v * v) with ((v - 60) * (v + 60) + 3600) by ring. lra.
Qed.

(** X15.  The benchmark closure of [test_rand] never measures a query: it draws
    [h0] from [60, 80) although the generator works in units where h0 is
    0.676, so every omch2 it asks for is above 186 and every call ends in
    [IndexError], whatever the two draws are. *)
Theorem test_rand_always_raises camb dir w g t u v :
  fst (__init__ dir 0.61 101 1 0.676 0.04814 0.97 w) = Return g ->
  lookup_file (filename g) (files w) = Some t ->
  table_shape t 101 1 (S (3 * 2000)) ->
  0.1 <= u -> u < 0.2 -> 60 <= v -> v < 80 ->
  exists s,
    make_generator camb dir w = Return s /\
    test_rand_fn camb u v s = (Raise IndexError, s).
Proof.
  intros Hg Hf Sh U0 U1 V0 V1.
  destruct (make_generator_loads camb dir w g t Hg Hf) as (w' & Em).
  exists (set_data g (Some t), w'). split; [exact Em|].
  destruct (Fingerprint.init_inv _ _ _ _ _ _ _ _ _ Hg)
    as (_ & _ & _ & _ & _ & Eob & _).
  unfold test_rand_fn, mbind.
  rewrite (Query.get_data_loaded camb (set_data g (Some t)) w' u (Some v) t eq_refl).
  cbv zeta. cbn [set_data omega_b]. rewrite Eob.
  rewrite (query_above_grid_raises dir 0.61 101 1 0.676 0.04814 0.97 w g t _ v Hg);
    [reflexivity | lia | lia | apply Sh |].
  pose proof (square_from_60 v V0) as Sq.
  assert (P : 0 <= (u - 0.04814 - 0.05186) * (v * v))
    by (apply Qmult_le_0_compat; lra).
  setoid_replace ((u - 0.04814) * v * v)
    with ((u - 0.04814 - 0.05186) * (v * v) + 0.05186 * (v * v)) by ring.
  lra.
Qed.

Lemma flat_table_shape : table_shape Scenarios.flat_table 101 1 (S (3 * 2000)).
Proof.
  unfold Scenarios.flat_table. split; [apply repeat_length|].
  apply Forall_forall. intros r Hr. apply repeat_spec in Hr. subst r.
  split; [reflexivity|]. constructor; [apply repeat_length | constructor].
Qed.

Lemma test_rand_always_raises_witness :
  exists s,
    make_generator Examples.toy_camb "/barry/cosmology" Scenarios.cached_world
    = Return s /\
    test_rand_fn Examples.toy_camb 0.15 70 s = (Raise IndexError, s).
Proof.
  apply (test_rand_always_raises Examples.toy_camb "/barry/cosmology"
           Scenarios.cached_world Scenarios.default_generator Scenarios.flat_table
           0.15 70).
  - reflexivity.
  - apply Lifecycle.lookup_file_head.
  - exact flat_table_shape.
  - apply Qle_bool_iff. vm_compute. reflexivity.
  - vm_compute. reflexivity.
  - apply Qle_bool_iff. vm_compute. reflexivity.
  - vm_compute. reflexivity.
Defined.

(** X16.  The benchmark closure of [test_rand_h0const] never raises, for any
    draw: each call returns and leaves the generator as it was.  For
    draws under 0.15 the query is nevertheless below the grid: its floor
    index is negative, so the blend reads rows counted from the far end
    of the table. *)
Theorem test_rand_h0const_never_raises camb dir w g t u :
  fst (__init__ dir 0.61 101 1 0.676 0.04814 0.97 w) = Return g ->
  lookup_file (filename g) (files w) = Some t ->
  table_shape t 101 1 (S (3 * 2000)) ->
  0.1 <= u -> u < 0.2 ->
  exists s,
    make_generator camb dir w = Return s /\
    test_rand_h0const_fn camb u s = (Return tt, s) /\
    (u < 0.15 ->
     (Qfloor (omch2_index 101 ((u - 0.04814) * 0.676 * 0.676)) < 0)%Z /\
     (- 101 <= Qfloor (omch2_index 101 ((u - 0.04814) * 0.676 * 0.676)))%Z).
Proof.
  intros Hg Hf Sh U0 U1.
  destruct (make_generator_loads camb dir w g t Hg Hf) as (w' & Em).
  exists (set_data g (Some t), w'). split; [exact Em|].
  destruct (Fingerprint.init_inv _ _ _ _ _ _ _ _ _ Hg)
    as (_ & _ & _ & _ & Eh0 & Eob & Ek & _).
  set (omch2 := (u - 0.04814) * 0.676 * 0.676).
  assert (Lo : -11 <= omch2_index 101 omch2).
  { unfold omch2_index, omch2.
    setoid_replace (inject_Z (101 - 1) * ((u - 0.04814) * 0.676 * 0.676 - 0.05) / 0.25)
      with (400 * ((u - 0.04814) * 0.676 * 0.676 - 0.05)) by (vm_compute inject_Z; field).
    lra. }
  assert (Hi : omch2_index 101 omch2 <= 8).
  { unfold omch2_index, omch2.
    setoid_replace (inject_Z (101 - 1) * ((u - 0.04814) * 0.676 * 0.676 - 0.05) / 0.25)
      with (400 * ((u - 0.04814) * 0.676 * 0.676 - 0.05)) by (vm_compute inject_Z; field).
    lra. }
  assert (Fl : (-11 <= Qfloor (omch2_index 101 omch2))%Z).
  { rewrite <- (Qfloor_Z (-11)). apply Qfloor_resp_le. exact Lo. }
  assert (Ce : (Qceiling (omch2_index 101 omch2) <= 8)%Z).
  { rewrite <- (Qceiling_Z 8). apply Qceiling_resp_le. exact Hi. }
  split.
  - destruct (interpolate_on_init_grid dir 0.61 101 1 0.676 0.04814 0.97 w g t
                omch2 0.676 Hg ltac:(lia) ltac:(lia)) as (oi & hi & Eo & Eh & Ei).
    assert (R : result_eq (interp_at 1 t oi hi) (Return (bilinear t 101 1 oi hi))).
    { apply (interp_at_in_range t 101 1 (S (3 * 2000))); try exact Sh.
      - rewrite (Qfloor_eq _ _ Eo). lia.
      - rewrite (Qceiling_eq _ _ Eo). lia.
      - rewrite (Qfloor_eq _ _ Eh). vm_compute. discriminate.
      - rewrite (Qceiling_eq _ _ Eh). vm_compute. discriminate.
      - intros _. exact Eh. }
    rewrite <- Ei in R.
    unfold test_rand_h0const_fn, mbind.
    rewrite (Query.get_data_loaded camb (set_data g (Some t)) w' u None t eq_refl).
    cbv zeta. cbn [set_data omega_b Camb.h0 k_num]. rewrite Eob, Eh0.
    fold omch2.
    destruct (_interpolate (set_data g (Some t)) omch2 0.676) as [row|e] eqn:E;
      [|contradiction].
    pose proof (Query.interpolate_length (set_data g (Some t)) t _ _ _ _ _ _
                  eq_refl Sh E) as L.
    destruct row as [|rs row]; [discriminate L|]. reflexivity.
  - intros U2. fold omch2. split; [|lia].
    assert (Neg : omch2_index 101 omch2 < 0).
    { unfold omch2_index, omch2.
      setoid_replace (inject_Z (101 - 1) * ((u - 0.04814) * 0.676 * 0.676 - 0.05) / 0.25)
        with (400 * ((u - 0.04814) * 0.676 * 0.676 - 0.05)) by (vm_compute inject_Z; field).
      lra. }
    rewrite Zlt_Qlt. eapply Qle_lt_trans; [apply Qfloor_le | exact Neg].
Qed.

Lemma test_rand_h0const_never_raises_witness :
  exists s,
    make_generator Examples.toy_camb "/barry/cosmology" Scenarios.cached_world
    = Return s /\
    test_rand_h0const_fn Examples.toy_camb 0.12 s = (Return tt, s) /\
    (Qfloor (omch2_index 101 ((0.12 - 0.04814) * 0.676 * 0.676)) < 0)%Z.
Proof.
  destruct (test_rand_h0const_never_raises Examples.toy_camb "/barry/cosmology"
              Scenarios.cached_world Scenarios.default_generator Scenarios.flat_table
              0.12 eq_refl (Lifecycle.lookup_file_head _ _ _) flat_table_shape)
    as (s & Em & Ef & Below).
  - apply Qle_bool_iff. vm_compute. reflexivity.
  - vm_compute. reflexivity.
  - exists s. split; [exact Em|]. split; [exact Ef|].
    apply Below. vm_compute. reflexivity.
Defined.

End BenchmarkQueries.

(* ===================================================================== *)
(** * Further properties of the power-to-correlation transform *)
(* ===================================================================== *)

Module DenseGrid.

Import Pk2xi TransformVocabulary Transform.
Import Lra.
Local Open Scope R_scope.

(** ** What construction refuses *)

Lemma linspace_outcome start stop num :
  ((num < 0)%Z /\ exists msg, linspace start stop num = Raise (ValueError msg)) \/
  ((0 <= num)%Z /\ exists l, linspace start stop num = Return l).
Proof.
  unfold linspace. destruct (Z.ltb_spec num 0).
  - left. split; [assumption|]. eexists. reflexivity.
  - right. split; [assumption|]. eexists. reflexivity.
Qed.

Lemma init_returns ks interpolateDetail a :
  ks <> [] -> (0 <= interpolateDetail)%Z ->
  exists self, __init__ ks interpolateDetail a = Return self.
Proof.
  intros Hne Hd. unfold __init__, logspace_e.
  destruct ks as [|k0 ks0]; [contradiction|].
  cbn [np_min np_max Py.bind].
  destruct (linspace_outcome (ln (fold_left Rmin ks0 k0)) (ln (fold_left Rmax ks0 k0))
              (interpolateDetail * Z.of_nat (List.length (k0 :: ks0))))
    as [(Neg & _)|(_ & l & E)]; [nia|].
  rewrite E. cbn [Py.bind]. eexists. reflexivity.
Qed.

(** X17.  Construction fails exactly on an empty wavenumber array ([np.min] of a
    zero-size array) and on a negative [interpolateDetail] ([np.logspace]
    of a negative sample count); either way with a [ValueError]. *)
Theorem init_raises_iff ks interpolateDetail a :
  ((exists e, __init__ ks interpolateDetail a = Raise e) <->
   (ks = [] \/ (interpolateDetail < 0)%Z)) /\
  (forall e, __init__ ks interpolateDetail a = Raise e -> exists msg, e = ValueError msg).
Proof.
  unfold __init__, logspace_e.
  destruct ks as [|k0 ks0].
  - cbn [np_min Py.bind]. split.
    + split; [intros _; now left | intros _; eexists; reflexivity].
    + intros e [= <-]. eexists. reflexivity.
  - cbn [np_min np_max Py.bind].
    set (n := (interpolateDetail * Z.of_nat (List.length (k0 :: ks0)))%Z).
    assert (Hn : (n < 0)%Z <-> (interpolateDetail < 0)%Z).
    { unfold n. cbn [List.length]. nia. }
    destruct (linspace_outcome (ln (fold_left Rmin ks0 k0)) (ln (fold_left Rmax ks0 k0)) n)
      as [(Neg & msg & E)|(Pos & l & E)]; rewrite E; cbn [Py.bind].
    + split.
      * split; [intros _; right; now apply Hn | intros _; eexists; reflexivity].
      * intros e [= <-]. now exists msg.
    + split.
      * split; [intros (e & [=]) | intros [[=] | Hd]; apply Hn in Hd; lia].
      * intros e [=].
Qed.

Lemma init_raises_iff_witness :
  (exists msg, __init__ [] 2 (1 / 4) = Raise (ValueError msg)) /\
  (exists msg, __init__ [1; 2] (-1) (1 / 4) = Raise (ValueError msg)).
Proof.
  split.
  - destruct (init_raises_iff [] 2 (1 / 4)) as [[_ Raises] Kind].
    destruct (Raises (or_introl eq_refl)) as (e & E).
    destruct (Kind e E) as (msg & ->). now exists msg.
  - destruct (init_raises_iff [1; 2] (-1) (1 / 4)) as [[_ Raises] Kind].
    destruct (Raises (or_intror eq_refl)) as (e & E).
    destruct (Kind e E) as (msg & ->). now exists msg.
Defined.

(** ** The dense grid lies inside the input range *)

Lemma linspace_between start stop num l :
  start <= stop ->
  linspace start stop num = Return l ->
  (forall v, In v l -> start <= v <= stop) /\
  (forall i j, (i <= j)%nat -> (j < List.length l)%nat -> nth i l 0 <= nth j l 0).
Proof.
  intros Le El. destruct (linspace_spec _ _ _ _ El) as (_ & _ & Nth).
  set (n := List.length l) in *.
  assert (Step : (2 <= n)%nat -> 0 <= (stop - start) / (INR n - 1)).
  { intros Hn. apply Rmult_le_pos; [lra|].
    apply Rlt_le, Rinv_0_lt_compat.
    assert (1 < INR n) by (change 1 with (INR 1); apply lt_INR; lia). lra. }
  assert (Val : forall j, (j < n)%nat -> start <= nth j l 0 <= stop).
  { intros j Hj. rewrite (Nth j Hj).
    destruct (Nat.le_gt_cases n 1) as [Small|Big].
    - assert (j = 0%nat) by lia. subst j. cbn [INR]. rewrite Rmult_0_l. lra.
    - specialize (Step ltac:(lia)).
      assert (Hj0 : 0 <= INR j) by apply pos_INR.
      assert (HjN : INR j <= INR n - 1).
      { replace (INR n - 1) with (INR (n - 1))
          by (rewrite minus_INR by lia; reflexivity).
        apply le_INR. lia. }
      assert (Nz : INR n - 1 <> 0).
      { assert (1 < INR n) by (change 1 with (INR 1); apply lt_INR; lia). lra. }
      assert (A : 0 <= INR j * ((stop - start) / (INR n - 1)))
        by (apply Rmult_le_pos; assumption).
      assert (B : 0 <= (INR n - 1 - INR j) * ((stop - start) / (INR n - 1)))
        by (apply Rmult_le_pos; [lra | assumption]).
      replace ((INR n - 1 - INR j) * ((stop - start) / (INR n - 1)))
        with (stop - start - INR j * ((stop - start) / (INR n - 1))) in B
        by (field; exact Nz).
      lra. }
  split.
  - intros v Hv. destruct (In_nth l v 0 Hv) as (j & Hj & <-). now apply Val.
  - intros i j Hij Hj. rewrite (Nth i ltac:(lia)), (Nth j Hj).
    destruct (Nat.le_gt_cases n 1) as [Small|Big].
    + assert (j = 0%nat) by lia. assert (i = 0%nat) by lia. subst. lra.
    + specialize (Step ltac:(lia)).
      assert (0 <= (INR j - INR i) * ((stop - start) / (INR n - 1))).
      { apply Rmult_le_pos; [|assumption].
        assert (INR i <= INR j) by (apply le_INR; lia). lra. }
      lra.
Qed.

Lemma ln_monotone x y : 0 < x -> x <= y -> ln x <= ln y.
Proof.
  intros Hx [Lt | ->]; [|lra]. left. now apply ln_increasing.
Qed.

Lemma exp_monotone x y : x <= y -> exp x <= exp y.
Proof. intros [Lt | ->]; [left; now apply exp_increasing | lra]. Qed.

(** What [__init__] builds from positive wavenumbers. *)
Lemma init_dense_grid ks interpolateDetail a self :
  (forall k, In k ks -> 0 < k) ->
  __init__ ks interpolateDetail a = Return self ->
  exists kmin kmax,
    In kmin ks /\ In kmax ks /\
    (forall k, In k ks -> kmin <= k <= kmax) /\
    (forall v, In v (ks2 self) -> kmin <= v <= kmax) /\
    (forall i j, (i <= j)%nat -> (j < List.length (ks2 self))%nat ->
       nth i (ks2 self) 0 <= nth j (ks2 self) 0).
Proof.
  intros Hpos. unfold __init__, logspace_e.
  destruct (np_min ks) as [kmin|] eqn:Emin; cbn [Py.bind]; [|discriminate].
  destruct (np_max ks) as [kmax|] eqn:Emax; cbn [Py.bind]; [|discriminate].
  destruct (linspace (ln kmin) (ln kmax) _) as [y|] eqn:Ey; cbn [Py.bind];
    [|discriminate].
  intros [= <-]. cbn [ks2].
  destruct (np_min_spec _ _ Emin) as [Imin Lmin].
  destruct (np_max_spec _ _ Emax) as [Imax Lmax].
  pose proof (Hpos _ Imin) as Pmin. pose proof (Hpos _ Imax) as Pmax.
  assert (Le : ln kmin <= ln kmax) by (apply ln_monotone; [assumption | now apply Lmin]).
  destruct (linspace_between _ _ _ _ Le Ey) as [Btw Asc].
  exists kmin, kmax. split; [assumption|]. split; [assumption|].
  split; [intros k Hk; split; [now apply Lmin | now apply Lmax]|]. split.
  - intros v Hv. apply in_map_iff in Hv as (u & <- & Hu).
    destruct (Btw u Hu) as [L U]. apply exp_monotone in L, U.
    rewrite exp_ln in L, U by assumption. split; assumption.
  - intros i j Hij Hj. rewrite length_map in Hj.
    rewrite !(nth_indep (map exp y) 0 (exp 0)) by (rewrite length_map; lia).
    rewrite !map_nth. apply exp_monotone. now apply Asc.
Qed.

(** ** Calls on the grid the transform was built on *)

Lemma init_dense_length ks interpolateDetail a self :
  __init__ ks interpolateDetail a = Return self ->
  List.length (ks2 self) = Z.to_nat (interpolateDetail * Z.of_nat (List.length ks)).
Proof.
  unfold __init__, logspace_e.
  destruct (np_min ks) as [kmin|]; cbn [Py.bind]; [|discriminate].
  destruct (np_max ks) as [kmax|]; cbn [Py.bind]; [|discriminate].
  destruct (linspace (ln kmin) (ln kmax) _) as [y|] eqn:Ey; cbn [Py.bind];
    [|discriminate].
  intros [= <-]. cbn [ks2]. rewrite length_map.
  now destruct (linspace_spec _ _ _ _ Ey) as (_ & Ly & _).
Qed.

(** A spectrum sampled on the grid the transform was built on passes the
    bounds check. *)
Lemma call_on_own_grid ks interpolateDetail a self pks ss :
  (forall k, In k ks -> 0 < k) ->
  (2 <= List.length ks)%nat ->
  __init__ ks interpolateDetail a = Return self ->
  List.length pks = List.length ks ->
  exists xi, __call__ self ks pks ss = Return xi /\
             List.length xi = List.length ss.
Proof.
  intros Hpos L2 Einit L.
  assert (Cov : covers ks (ks2 self)).
  { destruct (init_dense_grid ks interpolateDetail a self Hpos Einit)
      as (kmin & kmax & Imin & Imax & _ & Btw & _).
    intros v Hv. destruct (Btw v Hv) as [Lv Uv]. split.
    - exists kmin. split; assumption.
    - exists kmax. split; assumption. }
  rewrite call_unfold.
  destruct (interp1d_returns ks pks (ks2 self) (eq_sym L) L2 Cov) as (p & E).
  rewrite E. cbn [result_map]. eexists. split; [reflexivity | apply length_map].
Qed.

(** ** A dense grid without an interval *)

(** X20.  With [interpolateDetail = 0] construction succeeds with an empty dense
    grid, and every call on the construction grid then returns 0 for
    every distance, whatever the spectrum: the quadrature has no interval
    to sum over, and nothing is raised. *)
Theorem zero_detail_gives_zeros ks a pks ss :
  (forall k, In k ks -> 0 < k) ->
  (2 <= List.length ks)%nat ->
  List.length pks = List.length ks ->
  exists self,
    __init__ ks 0 a = Return self /\
    ks2 self = [] /\
    __call__ self ks pks ss = Return (map (fun _ => 0) ss).
Proof.
  intros Hpos L2 L. unfold __init__, logspace_e.
  destruct ks as [|k0 ks0]; [simpl in L2; lia|].
  cbn [np_min np_max Py.bind]. rewrite Z.mul_0_l.
  unfold linspace. cbn [Z.ltb Z.compare Z.to_nat seq map Py.bind].
  eexists. split; [reflexivity|]. cbn [ks2 precomp]. split; [reflexivity|].
  unfold __call__. cbn [ks2 precomp]. unfold interp1d.
  destruct (Nat.eqb_spec (List.length (k0 :: ks0)) (List.length pks)); [|congruence].
  destruct (Nat.ltb_spec (List.length (k0 :: ks0)) 2); [lia|].
  cbn [negb existsb map Py.bind mul combine]. reflexivity.
Qed.

Lemma zero_detail_gives_zeros_witness :
  exists self,
    __init__ [1; 2] 0 (1 / 4) = Return self /\
    __call__ self [1; 2] [5; 7] [1; 3] = Return [0; 0].
Proof.
  destruct (zero_detail_gives_zeros [1; 2] (1 / 4) [5; 7] [1; 3])
    as (self & Einit & _ & Ecall).
  - intros k [<-|[<-|[]]]; lra.
  - simpl. lia.
  - reflexivity.
  - exists self. split; [exact Einit | exact Ecall].
Defined.

(** ** Symmetry in the distance *)

(** X21.  The transform is even in the distance: negating every requested
    distance (none of them 0) changes nothing, since [sin(k s) / s] is
    even in [s]. *)
Theorem call_even_in_distance self ks pks ss :
  Forall (fun s => s <> 0) ss ->
  __call__ self ks pks (map Ropp ss) = __call__ self ks pks ss.
Proof.
  intros Hs. unfold __call__.
  destruct (interp1d ks pks (ks2 self)) as [pks2|e]; [|reflexivity].
  cbn [Py.bind]. f_equal. rewrite map_map. apply map_ext_in.
  intros s Hin. rewrite Forall_forall in Hs. specialize (Hs s Hin).
  f_equal. apply map_ext. intros [p k]. cbn [fst snd].
  replace (k * - s) with (- (k * s)) by ring. rewrite sin_neg. field. exact Hs.
Qed.

Lemma call_even_in_distance_witness :
  __call__ Examples.gauss_1_2 [1; 2] [1; 0] (map Ropp [1; 3])
  = __call__ Examples.gauss_1_2 [1; 2] [1; 0] [1; 3].
Proof.
  apply call_even_in_distance.
  constructor; [lra|]. constructor; [lra|]. constructor.
Defined.

End DenseGrid.

(* ===================================================================== *)
(** * Properties of the background functions *)
(* ===================================================================== *)

Module Background.

Import Cosmology.
Import Lra.
Local Open Scope R_scope.

(** X22.  At redshift 0 nothing has evolved: [E_z] is 1 and [Omega_m_z] gives
    back the present-day matter density, whatever its value. *)
Theorem background_today omega_m :
  E_z omega_m 0 = Some 1 /\ Omega_m_z omega_m 0 = Some omega_m.
Proof.
  assert (E : E_z omega_m 0 = Some 1).
  { unfold E_z, np_sqrt.
    replace ((1 + 0) ^ 3 * omega_m + (1 - omega_m)) with 1 by ring.
    destruct (Rlt_dec 1 0); [lra|]. now rewrite sqrt_1. }
  split; [exact E|]. unfold Omega_m_z. rewrite E. unfold np_divide.
  destruct (Req_dec_T (1 ^ 2) 0) as [Z|_]; [exfalso; revert Z; simpl; lra|].
  f_equal. field.
Qed.

(** ** Inside the physical range *)

Lemma cube_pos z : -1 < z -> 0 < (1 + z) ^ 3.
Proof. intros Hz. apply pow_lt. lra. Qed.

Lemma radicand_pos omega_m z :
  0 <= omega_m <= 1 -> -1 < z ->
  0 < (1 + z) ^ 3 * omega_m + (1 - omega_m).
Proof.
  intros [O0 O1] Hz. pose proof (cube_pos z Hz) as A.
  assert (0 <= (1 + z) ^ 3 * omega_m) by (apply Rmult_le_pos; lra).
  destruct (Rle_lt_or_eq_dec _ _ O1) as [Lt | ->]; lra.
Qed.

(** The values of the two functions where the radicand is positive. *)
Lemma background_values omega_m z :
  0 <= omega_m <= 1 -> -1 < z ->
  E_z omega_m z = Some (sqrt ((1 + z) ^ 3 * omega_m + (1 - omega_m))) /\
  Omega_m_z omega_m z =
    Some (omega_m * (1 + z) ^ 3 / ((1 + z) ^ 3 * omega_m + (1 - omega_m))).
Proof.
  intros Ho Hz. pose proof (radicand_pos omega_m z Ho Hz) as P.
  assert (E : E_z omega_m z = Some (sqrt ((1 + z) ^ 3 * omega_m + (1 - omega_m)))).
  { unfold E_z, np_sqrt. destruct (Rlt_dec _ 0); [lra | reflexivity]. }
  split; [exact E|]. unfold Omega_m_z. rewrite E. unfold np_divide.
  rewrite pow2_sqrt by lra.
  destruct (Req_dec_T _ 0); [lra | reflexivity].
Qed.

Lemma density_bounds omega_m A :
  0 <= omega_m <= 1 -> 0 < A ->
  0 < A * omega_m + (1 - omega_m) ->
  (1 <= A -> omega_m <= omega_m * A / (A * omega_m + (1 - omega_m)) <= 1) /\
  (A <= 1 -> omega_m * A / (A * omega_m + (1 - omega_m)) <= omega_m).
Proof.
  intros [O0 O1] HA P.
  set (D := A * omega_m + (1 - omega_m)) in *.
  assert (Di : 0 < / D) by now apply Rinv_0_lt_compat.
  assert (E1 : 1 - omega_m * A / D = (1 - omega_m) * / D) by (unfold D in *; field; lra).
  assert (E2 : omega_m * A / D - omega_m = omega_m * (1 - omega_m) * (A - 1) * / D)
    by (unfold D in *; field; lra).
  assert (N0 : 0 <= omega_m * (1 - omega_m)) by (apply Rmult_le_pos; lra).
  split.
  - intros A1.
    assert (0 <= (1 - omega_m) * / D) by (apply Rmult_le_pos; lra).
    assert (0 <= omega_m * (1 - omega_m) * (A - 1) * / D).
    { apply Rmult_le_pos; [|lra]. apply Rmult_le_pos; lra. }
    lra.
  - intros A1.
    assert (0 <= omega_m * (1 - omega_m) * (1 - A) * / D).
    { apply Rmult_le_pos; [|lra]. apply Rmult_le_pos; lra. }
    assert (omega_m * (1 - omega_m) * (A - 1) * / D
            = - (omega_m * (1 - omega_m) * (1 - A) * / D)) by ring.
    lra.
Qed.

Lemma cube_ge_1 z : 0 <= z -> 1 <= (1 + z) ^ 3.
Proof. intros Hz. apply pow_R1_Rle. lra. Qed.

Lemma cube_le_1 z : -1 < z -> z <= 0 -> (1 + z) ^ 3 <= 1.
Proof.
  intros L U. replace 1 with (1 ^ 3) at 2 by ring. apply pow_incr. lra.
Qed.

(** X23.  For a flat universe with [0 <= omega_m <= 1] and a redshift above
    [-1], both functions are finite: [E_z] is positive with
    [E^2 = omega_m (1+z)^3 + 1 - omega_m], and [Omega_m_z] is
    [omega_m (1+z)^3 / E^2].  Looking back ([z >= 0]) [E_z] is at least 1
    and the matter density lies between its present-day value and 1; in
    the future ([z <= 0]) it is at most its present-day value. *)
Theorem matter_density_at_redshift omega_m z :
  0 <= omega_m <= 1 -> -1 < z ->
  exists e v,
    E_z omega_m z = Some e /\ 0 < e /\
    e * e = omega_m * (1 + z) ^ 3 + 1 - omega_m /\
    Omega_m_z omega_m z = Some v /\
    v = omega_m * (1 + z) ^ 3 / (e * e) /\
    (0 <= z -> 1 <= e /\ omega_m <= v <= 1) /\
    (z <= 0 -> v <= omega_m).
Proof.
  intros Ho Hz. pose proof (radicand_pos omega_m z Ho Hz) as P.
  destruct (background_values omega_m z Ho Hz) as [E V].
  pose proof (cube_pos z Hz) as A.
  destruct (density_bounds omega_m ((1 + z) ^ 3) Ho A P) as [Back Fwd].
  set (D := (1 + z) ^ 3 * omega_m + (1 - omega_m)) in *.
  exists (sqrt D), (omega_m * (1 + z) ^ 3 / D).
  split; [exact E|]. split; [now apply sqrt_lt_R0|].
  rewrite sqrt_sqrt by lra.
  split; [unfold D; ring|]. split; [exact V|]. split; [reflexivity|]. split.
  - intros Z0. pose proof (cube_ge_1 z Z0) as A1. split; [|now apply Back].
    rewrite <- sqrt_1. apply sqrt_le_1; try lra.
    unfold D. assert (0 <= ((1 + z) ^ 3 - 1) * omega_m) by (apply Rmult_le_pos; lra).
    lra.
  - intros Z0. apply Fwd. now apply cube_le_1.
Qed.

Lemma matter_density_at_redshift_witness :
  exists e v,
    E_z (3 / 10) 1 = Some e /\ e * e = 31 / 10 /\
    Omega_m_z (3 / 10) 1 = Some v /\ 3 / 10 <= v <= 1.
Proof.
  destruct (matter_density_at_redshift (3 / 10) 1)
    as (e & v & E & _ & Sq & V & _ & Back & _); [lra | lra |].
  exists e, v. split; [exact E|]. split; [rewrite Sq; field|].
  split; [exact V|]. apply Back. lra.
Defined.

(** ** The growth rate *)

Lemma rpower_unit_interval x y : 0 < x <= 1 -> 0 <= y -> 0 < Rpower x y <= 1.
Proof.
  intros [X0 X1] Hy. unfold Rpower. split; [apply exp_pos|].
  rewrite <- exp_0. apply DenseGrid.exp_monotone.
  assert (ln x <= 0) by (rewrite <- ln_1; now apply DenseGrid.ln_monotone).
  assert (0 <= y * - ln x) by (apply Rmult_le_pos; lra). lra.
Qed.

(** X24.  The growth rate [Omega_m(z) ** 0.55] of [PowerNoda2019.get_growth]:
    for [0 < omega_m <= 1] and a redshift [z >= 0] it is finite and lies
    in (0, 1], and it is exactly 1 in a universe of matter only
    ([omega_m = 1]). *)
Theorem growth_rate_range redshift om :
  0 < om <= 1 -> 0 <= redshift ->
  exists f,
    get_growth redshift om = Some f /\ 0 < f <= 1 /\ (om = 1 -> f = 1).
Proof.
  intros [O0 O1] Hz.
  assert (Ho : 0 <= om <= 1) by lra. assert (Hz1 : -1 < redshift) by lra.
  pose proof (radicand_pos om redshift Ho Hz1) as P.
  destruct (background_values om redshift Ho Hz1) as [_ V].
  pose proof (cube_pos redshift Hz1) as A.
  destruct (density_bounds om ((1 + redshift) ^ 3) Ho A P) as [Back _].
  specialize (Back (cube_ge_1 redshift Hz)).
  set (v := om * (1 + redshift) ^ 3 / ((1 + redshift) ^ 3 * om + (1 - om))) in *.
  unfold get_growth. rewrite V. unfold pow_0_55.
  destruct (Rlt_dec v 0); [lra|]. destruct (Req_dec_T v 0); [lra|].
  eexists. split; [reflexivity|]. split.
  - apply rpower_unit_interval; lra.
  - intros ->. assert (Ev : v = 1) by lra. rewrite Ev.
    unfold Rpower. rewrite ln_1, Rmult_0_r. apply exp_0.
Qed.

Lemma growth_rate_range_witness :
  exists f, get_growth (61 / 100) (31 / 100) = Some f /\ 0 < f <= 1.
Proof.
  destruct (growth_rate_range (61 / 100) (31 / 100)) as (f & E & R & _);
    [lra | lra |].
  exists f. split; assumption.
Defined.

End Background.

(* ===================================================================== *)
(** * The generator's wavenumber grid and the transform built on it *)
(* ===================================================================== *)

Module Pipeline.

Import Pk2xi TransformVocabulary Transform.
Import Lra.
Local Open Scope R_scope.

Lemma init_wavenumber_range dir z N H h ob n w g :
  fst (Camb.__init__ dir z N H h ob n w) = Return g ->
  Camb.k_min g = (1 # 10000)%Q /\ Camb.k_max g = 5%Q /\ Camb.k_num g = 2000%Z.
Proof.
  unfold Camb.__init__.
  destruct (Np.linspace 0.05 0.3 N) as [oms|e]; [|discriminate].
  destruct (if (H =? 1)%Z then Return [h] else Np.linspace 0.6 0.8 H)
    as [hs|e]; [|discriminate].
  cbn [fst]. intros [= <-]. repeat split.
Qed.

Lemma Q2R_k_min : Q2R (1 # 10000) = 1 / 10000.
Proof. unfold Q2R. cbn [Qnum Qden]. reflexivity. Qed.

Lemma Q2R_k_max : Q2R 5 = 5.
Proof. unfold Q2R. cbn [Qnum Qden]. field. Qed.

(** [np.logspace] between the logarithms of two positive bounds. *)
Lemma logspace_grid lo hi num l :
  0 < lo -> lo <= hi ->
  logspace_e (ln lo) (ln hi) num = Return l ->
  List.length l = Z.to_nat num /\
  (forall k, In k l -> lo <= k <= hi) /\
  ((2 <= List.length l)%nat -> hd 0 l = lo /\ last l 0 = hi).
Proof.
  intros Plo Le. unfold logspace_e.
  destruct (linspace (ln lo) (ln hi) num) as [y|] eqn:Ey; cbn [Py.bind]; [|discriminate].
  intros [= <-].
  assert (Phi : 0 < hi) by lra.
  assert (Ll : ln lo <= ln hi) by now apply DenseGrid.ln_monotone.
  destruct (linspace_spec _ _ _ _ Ey) as (_ & Ly & Ny).
  destruct (DenseGrid.linspace_between _ _ _ _ Ll Ey) as [Btw _].
  rewrite length_map. split; [exact Ly|]. split.
  - intros k Hk. apply in_map_iff in Hk as (u & <- & Hu).
    destruct (Btw u Hu) as [L U]. apply DenseGrid.exp_monotone in L, U.
    rewrite exp_ln in L, U by assumption. split; assumption.
  - intros L2.
    assert (Nth : forall j, (j < List.length y)%nat ->
              nth j (map exp y) 0 =
              exp (ln lo + INR j * ((ln hi - ln lo) / (INR (List.length y) - 1)))).
    { intros j Hj. rewrite (nth_indep _ 0 (exp 0)) by (rewrite length_map; exact Hj).
      rewrite map_nth. now rewrite (Ny j Hj). }
    split.
    + replace (hd 0 (map exp y)) with (nth 0 (map exp y) 0)
        by (destruct (map exp y); reflexivity).
      rewrite Nth by lia. cbn [INR]. rewrite Rmult_0_l, Rplus_0_r. now apply exp_ln.
    + rewrite last_as_nth, length_map, Nth by lia.
      set (m := List.length y) in *.
      assert (En : INR (m - 1) = INR m - 1) by (rewrite minus_INR by lia; reflexivity).
      rewrite En.
      replace (ln lo + (INR m - 1) * ((ln hi - ln lo) / (INR m - 1))) with (ln hi).
      * now apply exp_ln.
      * field. apply Rgt_not_eq, Rlt_gt, Rlt_0_minus.
        change 1 with (INR 1). apply lt_INR. lia.
Qed.

Lemma length_slices_of_row (row : list Q) (K : nat) :
  List.length row = S (3 * K) ->
  List.length (slice row 1 (Some (1 + Z.of_nat K)%Z)) = K /\
  List.length (slice row (1 + 2 * Z.of_nat K)%Z None) = K.
Proof.
  intros L.
  destruct (Query.channels_split row K L)
    as (rs & lin & mid & nl & _ & E1 & E2 & _ & L1 & _ & L3).
  rewrite E1, E2. split; assumption.
Qed.

(** X25.  The wavenumber grid of a constructed generator and the transform the
    models build on it.  [self.ks] has 2000 samples running from 1e-4 to
    5; [PowerToCorrelationGauss(ks)] with its defaults constructs, with a
    dense grid of 4000 samples; a call of that transform on [ks] with any
    spectrum of 2000 samples returns one value per distance; and both
    spectra that [get_data] returns on a table of the generator's channel
    count are such spectra. *)
Theorem generator_grid_feeds_transform dir z N H h ob n w g :
  fst (Camb.__init__ dir z N H h ob n w) = Return g ->
  exists ks self,
    Wavenumbers.ks g = Return ks /\
    List.length ks = 2000%nat /\
    hd 0 ks = 1 / 10000 /\ last ks 0 = 5 /\
    (forall k, In k ks -> 1 / 10000 <= k <= 5) /\
    __init__ ks interpolateDetail_default a_default = Return self /\
    List.length (ks2 self) = 4000%nat /\
    (forall pks ss, List.length pks = 2000%nat ->
       exists xi, __call__ self ks pks ss = Return xi /\
                  List.length xi = List.length ss) /\
    (forall camb t a b w' om h0o r_s pk_lin pk_nl s' ss,
       Vocabulary.table_shape t a b (S (3 * 2000)) ->
       Camb.get_data camb om h0o (Camb.set_data g (Some t), w')
       = (Return (r_s, pk_lin, pk_nl), s') ->
       exists xi_lin xi_nl,
         __call__ self ks (map Q2R pk_lin) ss = Return xi_lin /\
         __call__ self ks (map Q2R pk_nl) ss = Return xi_nl /\
         List.length xi_lin = List.length ss /\
         List.length xi_nl = List.length ss).
Proof.
  intros Hg.
  destruct (init_wavenumber_range _ _ _ _ _ _ _ _ _ Hg) as (Emin & Emax & Ek).
  unfold Wavenumbers.ks. rewrite Emin, Emax, Ek, Q2R_k_min, Q2R_k_max.
  destruct (logspace_e (ln (1 / 10000)) (ln 5) 2000) as [ks|e] eqn:Eks.
  2:{ exfalso. revert Eks. unfold logspace_e, linspace. cbn [Z.ltb Z.compare Py.bind].
      discriminate. }
  destruct (logspace_grid (1 / 10000) 5 2000 ks ltac:(lra) ltac:(lra) Eks)
    as (Lks & Rng & Ends).
  assert (L2000 : List.length ks = 2000%nat) by (rewrite Lks; reflexivity).
  assert (Hpos : forall k, In k ks -> 0 < k).
  { intros k Hk. destruct (Rng k Hk). lra. }
  assert (Hne : ks <> []) by (intros ->; discriminate L2000).
  destruct (DenseGrid.init_returns ks interpolateDetail_default a_default Hne
              ltac:(unfold interpolateDetail_default; lia)) as (self & Einit).
  assert (Own : forall pks ss, List.length pks = 2000%nat ->
            exists xi, __call__ self ks pks ss = Return xi /\
                       List.length xi = List.length ss).
  { intros pks ss Lp.
    apply (DenseGrid.call_on_own_grid ks interpolateDetail_default a_default);
      try assumption; [rewrite L2000; lia | congruence]. }
  exists ks, self. split; [reflexivity|]. split; [exact L2000|].
  destruct (Ends ltac:(rewrite L2000; lia)) as [Hhd Hlast].
  split; [exact Hhd|]. split; [exact Hlast|]. split; [exact Rng|].
  split; [exact Einit|]. split.
  { rewrite (DenseGrid.init_dense_length _ _ _ _ Einit), L2000. reflexivity. }
  split; [exact Own|].
  intros camb t a b w' om h0o r_s pk_lin pk_nl s' ss Sh.
  rewrite (Query.get_data_loaded camb (Camb.set_data g (Some t)) w' om h0o t eq_refl).
  cbv zeta. cbn [Camb.set_data Camb.k_num]. rewrite Ek.
  match goal with |- context [Camb._interpolate ?s ?o ?q] =>
    destruct (Camb._interpolate s o q) as [row|e] eqn:Ei
  end; [|discriminate].
  pose proof (Query.interpolate_length (Camb.set_data g (Some t)) t _ _ _ _ _ _
                eq_refl Sh Ei) as Lrow.
  destruct (getitem row 0) as [rs|e]; [|discriminate].
  intros [= _ <- <- _].
  destruct (length_slices_of_row row 2000 Lrow) as [Llin Lnl].
  destruct (Own (map Q2R (slice row 1 (Some (1 + 2000)%Z))) ss) as (x1 & E1 & LL1).
  { rewrite length_map. exact Llin. }
  destruct (Own (map Q2R (slice row (1 + 2 * 2000)%Z None)) ss) as (x2 & E2 & LL2).
  { rewrite length_map. exact Lnl. }
  exists x1, x2. repeat split; assumption.
Qed.

Lemma generator_grid_feeds_transform_witness :
  exists ks self,
    Wavenumbers.ks (Examples.generator 101 1) = Return ks /\
    List.length ks = 2000%nat /\
    __init__ ks interpolateDetail_default a_default = Return self /\
    List.length (ks2 self) = 4000%nat.
Proof.
  destruct (generator_grid_feeds_transform "/barry/cosmology" 0.51%Q 101 1
              0.676%Q 0.04814%Q 0.97%Q Examples.empty_world
              (Examples.generator 101 1) eq_refl)
    as (ks & self & Eks & L & _ & _ & _ & Einit & L2 & _).
  exists ks, self. repeat split; assumption.
Defined.

End Pipeline.
